(** * irreptables: tables of irreducible representations of little groups

    A shallow embedding of [irreptables/__init__.py] (classes [SymopTable],
    [CharFunction], [KPoint], [Irrep], [IrrepTable]) and the properties of its
    two loaders and of [save4user].

    Conventions of the embedding.
    - A Python exception is a value of [exn]; a call that may raise returns
      [result A].  [try ... except Exception] is a match on the result.
    - A text file is the list of its lines, each with its newline.
      [f.readline()] takes the head and returns the empty string at the end
      of the file; [lines.pop()] on the reversed list of the user loader is
      the head of the list in file order.
    - NumPy's numbers are kept behind the interface [NumPy]: the development
      is generic in the numeric kernel, and where a property depends on how
      the arithmetic comes out, that is a hypothesis on the numbers at hand.
      Two executable kernels run the closed examples: a fixed-point one,
      [Ref.numpy], and [RefNaN.numpy], which adds a not-a-number to it.
    - The helpers [str2bool], [str2list_space] and [str_] live in
      [irrep.__aux], which is not part of the sources at hand: they are the
      fields of the interface [Aux].
    - A [dict] is an association list in insertion order. *)

From Stdlib Require Import ZArith List String Ascii Bool Lia.
From Stdlib Require Finite Sorted.
Import ListNotations.
Local Open Scope string_scope.
Local Open Scope Z_scope.

(* ===================================================================== *)
(** ** Python runtime: exceptions and results *)

Inductive exn : Set :=
| ValueError | IndexError | KeyError | AssertionError | RuntimeError
| AttributeError | TypeError | NameError.

Inductive result (A : Type) : Type :=
| OK (a : A)
| Raise (e : exn).
Arguments OK {A} a.
Arguments Raise {A} e.

Definition bind {A B} (r : result A) (k : A -> result B) : result B :=
  match r with
  | OK a => k a
  | Raise e => Raise e
  end.

Notation "x <- r ;; k" := (bind r (fun x => k))
  (at level 61, r at next level, right associativity).
Notation "' p <- r ;; k" := (bind r (fun x => match x with p => k end))
  (at level 61, p pattern, r at next level, right associativity).

(** [None] raises [e]. *)
Definition or_raise {A} (e : exn) (o : option A) : result A :=
  match o with
  | Some a => OK a
  | None => Raise e
  end.

(** [assert b]. *)
Definition py_assert (b : bool) : result unit :=
  if b then OK tt else Raise AssertionError.

(** [xs[i]] on a list, [IndexError] out of range (non-negative [i]). *)
Definition index {A} (xs : list A) (i : nat) : result A :=
  or_raise IndexError (nth_error xs i).

(** A comprehension [[f(x) for x in xs]] whose body may raise. *)
Fixpoint mapM {A B} (f : A -> result B) (xs : list A) : result (list B) :=
  match xs with
  | [] => OK []
  | x :: xs' => y <- f x ;; ys <- mapM f xs' ;; OK (y :: ys)
  end.

(** [xs[a:b]] for [0 <= a <= b]. *)
Definition slice {A} (a b : nat) (xs : list A) : list A :=
  firstn (b - a) (skipn a xs).

(* ===================================================================== *)
(** ** Python runtime: [str] methods (ASCII) *)

Module Str.

(** [c.isspace()] on the ASCII range: TAB..CR, FS..US and the space. *)
Definition isspace (c : ascii) : bool :=
  let n := N_of_ascii c in
  (((9 <=? n) && (n <=? 13)) || ((28 <=? n) && (n <=? 32)))%N.

Definition is_empty (s : string) : bool :=
  match s with
  | EmptyString => true
  | String _ _ => false
  end.

Definition snoc (s : string) (c : ascii) : string := s ++ String c "".

(** [s.split()]: the maximal runs of non-whitespace characters. *)
Fixpoint split_from (tok : string) (s : string) : list string :=
  match s with
  | EmptyString => if is_empty tok then [] else [tok]
  | String c s' =>
      if isspace c
      then if is_empty tok then split_from "" s' else tok :: split_from "" s'
      else split_from (snoc tok c) s'
  end.

Definition split (s : string) : list string := split_from "" s.

(** [s.split(sep)] for a one-character separator: never empty. *)
Fixpoint split_on_from (sep : ascii) (tok : string) (s : string) : list string :=
  match s with
  | EmptyString => [tok]
  | String c s' =>
      if Ascii.eqb c sep
      then tok :: split_on_from sep "" s'
      else split_on_from sep (snoc tok c) s'
  end.

Definition split_on (sep : ascii) (s : string) : list string :=
  split_on_from sep "" s.

Fixpoint lstrip (s : string) : string :=
  match s with
  | EmptyString => ""
  | String c s' => if isspace c then lstrip s' else s
  end.

Fixpoint rstrip (s : string) : string :=
  match s with
  | EmptyString => ""
  | String c s' =>
      let r := rstrip s' in
      if is_empty r && isspace c then "" else String c r
  end.

(** [s.strip()]. *)
Definition strip (s : string) : string := rstrip (lstrip s).

Definition lower_char (c : ascii) : ascii :=
  let n := N_of_ascii c in
  if ((65 <=? n) && (n <=? 90))%N then ascii_of_N (n + 32) else c.

(** [s.lower()]. *)
Fixpoint lower (s : string) : string :=
  match s with
  | EmptyString => ""
  | String c s' => String (lower_char c) (lower s')
  end.

(** [s.startswith(p)]. *)
Definition startswith (p s : string) : bool := String.prefix p s.

(** [sep.join(xs)]. *)
Definition join (sep : string) (xs : list string) : string :=
  String.concat sep xs.

Definition digit (c : ascii) : option Z :=
  let n := N_of_ascii c in
  if ((48 <=? n) && (n <=? 57))%N then Some (Z.of_N (n - 48)) else None.

(** The digits of an [int] literal: decimal digits, a single underscore
    allowed between two digits. [prev] tells whether the last character read
    was a digit. *)
Fixpoint digits (prev : bool) (acc : Z) (s : string) : option Z :=
  match s with
  | EmptyString => if prev then Some acc else None
  | String c s' =>
      match digit c with
      | Some d => digits true (10 * acc + d) s'
      | None =>
          if Ascii.eqb c "_" && prev
          then match s' with
               | String c' _ =>
                   match digit c' with
                   | Some _ => digits false acc s'
                   | None => None
                   end
               | EmptyString => None
               end
          else None
      end
  end.

(** [int(s)]: surrounding whitespace, an optional sign, decimal digits.
    [None] is the [ValueError]. *)
Definition to_int (s : string) : option Z :=
  match strip s with
  | String "-" s' => option_map Z.opp (digits false 0 s')
  | String "+" s' => digits false 0 s'
  | s' => digits false 0 s'
  end.

Fixpoint digits_of_pos (fuel : nat) (n : Z) (acc : string) : string :=
  match fuel with
  | O => acc
  | S fuel' =>
      let acc' := String (ascii_of_N (Z.to_N (48 + n mod 10))) acc in
      if n <? 10 then acc' else digits_of_pos fuel' (n / 10) acc'
  end.

(** [str(n)] for an [int]. *)
Definition of_int (n : Z) : string :=
  if n <? 0
  then String "-" (digits_of_pos (S (Z.to_nat (Z.log2 (- n)))) (- n) "")
  else digits_of_pos (S (Z.to_nat (Z.log2 n))) n "".

(** [str(b)] for a [bool]. *)
Definition of_bool (b : bool) : string := if b then "True" else "False".

End Str.

(* ===================================================================== *)
(** ** Python runtime: loops, lists, dicts *)

(** [for x in xs: body], the loop state threaded, an exception leaving it. *)
Fixpoint foldM {A S} (body : A -> S -> result S) (xs : list A) (s : S)
  : result S :=
  match xs with
  | [] => OK s
  | x :: xs' => s' <- body x s ;; foldM body xs' s'
  end.

(** [range(a, a + n)] as integers. *)
Definition range (a : Z) (n : nat) : list Z :=
  map (fun i => a + Z.of_nat i) (seq 0 n).

(** [xs[0::2]]. *)
Fixpoint evens {A} (xs : list A) : list A :=
  match xs with
  | [] => []
  | [x] => [x]
  | x :: _ :: xs' => x :: evens xs'
  end.

(** [zip(xs, ys)] mapped through [f]. *)
Fixpoint map2 {A B C} (f : A -> B -> C) (xs : list A) (ys : list B) : list C :=
  match xs, ys with
  | x :: xs', y :: ys' => f x y :: map2 f xs' ys'
  | _, _ => []
  end.

(** [xs[0:n]] for any integer [n]: a negative bound counts from the end. *)
Definition slice_to {A} (n : Z) (xs : list A) : list A :=
  if n <? 0
  then firstn (List.length xs - Z.to_nat (- n)) xs
  else firstn (Z.to_nat n) xs.

(** [arr.reshape(rows, cols)] of a flat array. *)
Fixpoint chunks {A} (rows cols : nat) (xs : list A) : list (list A) :=
  match rows with
  | O => []
  | S rows' => firstn cols xs :: chunks rows' cols (skipn cols xs)
  end.

Definition reshape {A} (rows cols : nat) (xs : list A)
  : result (list (list A)) :=
  if Nat.eqb (List.length xs) (rows * cols)
  then OK (chunks rows cols xs)
  else Raise ValueError.

(** NumPy's broadcasting of a binary operation over two flat arrays: equal
    lengths go pointwise, a one-element array is stretched, anything else is
    a [ValueError]. *)
Definition broadcast2 {A B C} (f : A -> B -> C) (xs : list A) (ys : list B)
  : result (list C) :=
  if Nat.eqb (List.length xs) (List.length ys) then OK (map2 f xs ys)
  else match xs, ys with
       | [x], _ => OK (map (f x) ys)
       | _, [y] => OK (map (fun x => f x y) xs)
       | _, _ => Raise ValueError
       end.

Fixpoint insert_sorted (x : Z) (xs : list Z) : list Z :=
  match xs with
  | [] => [x]
  | y :: ys => if x <=? y then x :: xs else y :: insert_sorted x ys
  end.

(** [sorted(xs)] on integers. *)
Definition sorted (xs : list Z) : list Z := fold_right insert_sorted [] xs.

Fixpoint dedup (xs : list Z) : list Z :=
  match xs with
  | [] => []
  | x :: xs' => if existsb (Z.eqb x) xs' then dedup xs' else x :: dedup xs'
  end.

(** [set(xs)] on integers, by its canonical listing: two sets are equal
    exactly when their listings are. *)
Definition py_set (xs : list Z) : list Z := sorted (dedup xs).

Section Dict.
Context {K V : Type} (eqb : K -> K -> bool).

(** [d[k]], [None] being the [KeyError]. *)
Fixpoint dict_get (k : K) (d : list (K * V)) : option V :=
  match d with
  | [] => None
  | (k', v) :: d' => if eqb k k' then Some v else dict_get k d'
  end.

(** [d[k] = v]: a present key keeps its place, a new one goes last. *)
Fixpoint dict_set (k : K) (v : V) (d : list (K * V)) : list (K * V) :=
  match d with
  | [] => [(k, v)]
  | (k', v') :: d' =>
      if eqb k k' then (k, v) :: d' else (k', v') :: dict_set k v d'
  end.

(** [{k: v for (k, v) in kvs}]. *)
Definition dict_of (kvs : list (K * V)) : list (K * V) :=
  fold_left (fun d kv => dict_set (fst kv) (snd kv) d) kvs [].
End Dict.

Definition keys {K V} (d : list (K * V)) : list K := map fst d.
Definition values {K V} (d : list (K * V)) : list V := map snd d.

(** A text file being read: the lines still ahead. *)
Definition file := list string.

(** [f.readline()]. *)
Definition readline (f : file) : string * file :=
  match f with
  | [] => ("", [])
  | l :: f' => (l, f')
  end.

(* ===================================================================== *)
(** ** The numeric kernel and the helpers of [irrep.__aux] *)

(** What the module asks of NumPy. *)
Class NumPy : Type := {
  float64 : Type;
  complex128 : Type;
  (** [float(token)], as [np.array(tokens, dtype=float)] applies it to each
      token; [None] is the [ValueError]. *)
  parse_float : string -> option float64;
  (** The value of a float literal of the source text. *)
  float_lit : string -> float64;
  (** An [int] meeting a float in arithmetic. *)
  float_of_int : Z -> float64;
  feqb : float64 -> float64 -> bool;      (** [x == y] *)
  fgtb : float64 -> float64 -> bool;      (** [x > y] *)
  fadd : float64 -> float64 -> float64;
  fsub : float64 -> float64 -> float64;
  fmul : float64 -> float64 -> float64;
  fmax : float64 -> float64 -> float64;
  fabs : float64 -> float64;              (** [np.abs] of a real *)
  fangle_pi : float64 -> float64;         (** [np.angle(x) / np.pi] of a real *)
  norm : list float64 -> float64;         (** [np.linalg.norm] *)
  (** [a * np.exp(1j * np.pi * p)]. *)
  cpolar : float64 -> float64 -> complex128;
  complex_of_int : Z -> complex128;
  cadd : complex128 -> complex128 -> complex128;
  creal : complex128 -> float64;
  cimag : complex128 -> float64;
  cabs : complex128 -> float64;
  cangle_pi : complex128 -> float64;      (** [np.angle(z) / np.pi] *)
  (** [str(x)] of a [numpy.float64]. *)
  str_float : float64 -> string;
}.

(** An entry of a numeric array: real or complex. *)
Inductive num {NP : NumPy} : Type :=
| NFloat (x : float64)
| NComplex (z : complex128).

(** A character of an irrep: a number, or a [CharFunction] object still to
    be called, which holds its rows [abcde]. *)
Inductive character {NP : NumPy} : Type :=
| Const (c : num)
| CharFunction (abcde : list (list float64)).

(** [irrep.__aux], as far as the module imports it. *)
Class Aux {NP : NumPy} : Type := {
  str2bool : string -> result bool;
  str2list_space : string -> result (list Z);
  (** [str_] on a number. *)
  str_ : float64 -> string;
  (** The block [Irrep.str] writes when some character is still a callable:
      NumPy packs the characters in an object array and [str_] meets the
      objects themselves. *)
  str_objects : list character -> result string;
}.

(* ===================================================================== *)
(** ** The module *)

Section Model.
Context {NP : NumPy} {AX : Aux}.

(** [np.array(tokens, dtype=float)]. *)
Definition float_array (toks : list string) : result (list float64) :=
  mapM (fun t => or_raise ValueError (parse_float t)) toks.

(** [np.array(tokens, dtype=int)], and [[int(x) for x in tokens]]. The
    integers are unbounded, as Python's are; NumPy's are 64 bits wide and an
    entry beyond them raises an [OverflowError], which is left out. *)
Definition int_array (toks : list string) : result (list Z) :=
  mapM (fun t => or_raise ValueError (Str.to_int t)) toks.

(** [mags * np.exp(1j * np.pi * phases)] on arrays. *)
Definition polar_array (mags phases : list float64) : result (list num) :=
  zs <- broadcast2 cpolar mags phases ;;
  OK (map NComplex zs).

Definition num_abs (c : num) : float64 :=
  match c with
  | NFloat x => fabs x
  | NComplex z => cabs z
  end.

Definition num_angle_pi (c : num) : float64 :=
  match c with
  | NFloat x => fangle_pi x
  | NComplex z => cangle_pi z
  end.

Definition num_real (c : num) : float64 :=
  match c with
  | NFloat x => x
  | NComplex z => creal z
  end.

Definition num_imag (c : num) : float64 :=
  match c with
  | NFloat _ => float_of_int 0
  | NComplex z => cimag z
  end.

(** [arr.max()]: a [ValueError] on an empty array. *)
Definition np_max (xs : list float64) : result float64 :=
  match xs with
  | [] => Raise ValueError
  | x :: xs' => OK (fold_left fmax xs' x)
  end.

(* --------------------------------------------------------------------- *)
(** *** class SymopTable *)

Record SymopTable : Type := {
  sym_R : list (list Z);
  sym_t : list float64;
  sym_S : list (list num);
}.

(** [SymopTable(line)]: the machine encoding, the spinor matrix as
    interleaved magnitude and phase. *)
Definition SymopTable_init (line : string) : result SymopTable :=
  let numbers := Str.split line in
  r <- int_array (firstn 9 numbers) ;;
  R <- reshape 3 3 r ;;
  t <- float_array (slice 9 12 numbers) ;;
  mags <- float_array (evens (skipn 12 numbers)) ;;
  phases <- float_array (evens (skipn 13 numbers)) ;;
  s <- polar_array mags phases ;;
  S <- reshape 2 2 s ;;
  OK {| sym_R := R; sym_t := t; sym_S := S |}.

(** [np.eye(2)]. *)
Definition eye2 : list (list num) :=
  [[NFloat (float_of_int 1); NFloat (float_of_int 0)];
   [NFloat (float_of_int 0); NFloat (float_of_int 1)]].

(** [SymopTable(line, from_user=True)]: a block of magnitudes, then a block
    of phases. *)
Definition SymopTable_init_from_user (line : string) : result SymopTable :=
  let numbers := Str.split line in
  r <- int_array (firstn 9 numbers) ;;
  R <- reshape 3 3 r ;;
  t <- float_array (slice 9 12 numbers) ;;
  if Nat.ltb 12 (List.length numbers)
  then
    mags <- float_array (slice 12 16 numbers) ;;
    phases <- float_array (slice 16 20 numbers) ;;
    s <- polar_array mags phases ;;
    S <- reshape 2 2 s ;;
    OK {| sym_R := R; sym_t := t; sym_S := S |}
  else OK {| sym_R := R; sym_t := t; sym_S := eye2 |}.

(** [SymopTable.str(spinor)]. *)
Definition SymopTable_str (s : SymopTable) (spinor : bool) : string :=
  let flat := List.concat (sym_S s) in
  Str.join "   " (map (fun r => Str.join " " (map Str.of_int r)) (sym_R s))
  ++ "     "
  ++ Str.join " " (map str_ (sym_t s))
  ++ (if spinor
      then "      "
           ++ Str.join "    "
                (map (fun X => Str.join "  " (map str_ X))
                     [map num_abs flat; map num_angle_pi flat])
      else "").

(* --------------------------------------------------------------------- *)
(** *** class CharFunction *)

(** [CharFunction(abcde)(u, v, w)]: the sum over the rows of
    [aaa[0] * exp(1j * pi * sum(a * u for a, u in zip(aaa[1:], (1, u, v, w))))].
    Python's [sum] starts from the integer [0]. *)
Definition CharFunction_call (abcde : list (list float64)) (u v w : float64)
  : result complex128 :=
  terms <- mapM (fun aaa =>
                   match aaa with
                   | [] => Raise IndexError
                   | a0 :: rest =>
                       OK (cpolar a0
                             (fold_left fadd
                                (map2 fmul rest [float_of_int 1; u; v; w])
                                (float_of_int 0)))
                   end) abcde ;;
  OK (fold_left cadd terms (complex_of_int 0)).

(** The call with the default arguments [u=0, v=0, w=0]. *)
Definition CharFunction_call0 (abcde : list (list float64))
  : result complex128 :=
  CharFunction_call abcde (float_of_int 0) (float_of_int 0) (float_of_int 0).

(* --------------------------------------------------------------------- *)
(** *** class KPoint *)

Record KPoint : Type := {
  kp_name : string;
  kp_k : list float64;
  kp_isym : list Z;
}.

(** [KPoint(line=line)]. *)
Definition KPoint_of_line (line : string) : result KPoint :=
  let line_ := Str.split_on ":" line in
  f0 <- index line_ 0 ;;
  w0 <- index (Str.split f0) 0 ;;
  if negb (w0 =? "kpoint")%string then Raise ValueError
  else
    name <- index (Str.split f0) 1 ;;
    f1 <- index line_ 1 ;;
    k <- float_array (Str.split f1) ;;
    f2 <- index line_ 2 ;;
    isym <- str2list_space f2 ;;
    OK {| kp_name := name; kp_k := k; kp_isym := isym |}.

Fixpoint list_eqb (xs ys : list Z) : bool :=
  match xs, ys with
  | [], [] => true
  | x :: xs', y :: ys' => (x =? y) && list_eqb xs' ys'
  | _, _ => false
  end.

(** [KPoint.__eq__], for k-points whose [isym] is a [set], as [save4user]
    builds them: [self.isym != other.isym] is then the comparison of two
    sets, here of their listings in increasing order. A k-point read from a
    line holds what [str2list_space] returned, and [!=] on that is the
    helper's affair: the comparison is used below for the k-points of
    [save4user] only. *)
Definition KPoint_eq (self other : KPoint) : result bool :=
  if negb (kp_name self =? kp_name other)%string then OK false
  else
    d <- broadcast2 fsub (kp_k self) (kp_k other) ;;
    if fgtb (norm d) (float_lit "1e-8") then OK false
    else if negb (list_eqb (kp_isym self) (kp_isym other)) then OK false
    else OK true.

(** [KPoint.str()]. *)
Definition KPoint_str (kp : KPoint) : string :=
  kp_name kp ++ " : " ++ Str.join " " (map str_float (kp_k kp))
  ++ "  : " ++ Str.join " " (map Str.of_int (sorted (kp_isym kp))).

(* --------------------------------------------------------------------- *)
(** *** class Irrep *)

(** [Irrep.reality]: an [int] from the machine encoding, a [bool] from the
    user encoding. *)
Inductive reality_t : Set :=
| RealityInt (n : Z)
| RealityBool (b : bool).

(** An attribute that a constructor may leave unassigned is an [option]:
    [hasuvw] is [None] when the object has no such attribute. [has_rkmk] is
    never read; its [None] stands for the value [None] and for the missing
    attribute alike. *)
Record Irrep : Type := {
  irr_k : list float64;
  irr_kpname : string;
  irr_has_rkmk : option bool;
  irr_name : string;
  irr_dim : Z;
  irr_nsym : Z;
  irr_reality : reality_t;
  irr_characters : list (Z * character);
  irr_hasuvw : option bool;
}.

(** The two lines of one matrix entry, inside [for i ... for j ...]: both
    are read, only a diagonal entry is looked at. *)
Definition read_entry (i j : nat)
  (st : list (list float64) * list bool * file)
  : result (list (list float64) * list bool * file) :=
  let '(abcde, hasuvw, f) := st in
  let (l1, f) := readline f in
  let (l2, f) := readline f in
  if negb (Nat.eqb i j) then OK (abcde, hasuvw, f)
  else
    let l1 := Str.strip l1 in
    flag <- (if (l1 =? "1")%string then OK false
             else if (l1 =? "2")%string then OK true
             else Raise RuntimeError) ;;
    row <- float_array (Str.split l2) ;;
    OK ((abcde ++ [row])%list, (hasuvw ++ [flag])%list, f).

(** What the body of [for isym in range(1, nsym_group + 1)] reads: the line
    [ism issym] and, for a present operation, the entries of its matrix, of
    which it keeps the rows and the flags of the diagonal. [None] is the
    [continue] of an absent operation. *)
Definition read_slot_lines (dim : Z) (isym : Z) (f : file)
  : result (option (list (list float64) * list bool) * file) :=
  let (l, f) := readline f in
  ints <- int_array (Str.split l) ;;
  match ints with
  | [ism; issym] =>
      _ <- py_assert (ism =? isym) ;;
      if issym =? 0 then OK (None, f)
      else if negb (issym =? 1) then Raise RuntimeError
      else
        let rng := seq 0 (Z.to_nat dim) in
        '(abcde, hasuvw, f) <-
          foldM (fun i => foldM (read_entry i) rng) rng ([], [], f) ;;
        OK (Some (abcde, hasuvw), f)
  | _ => Raise ValueError
  end.

(** The body of [for isym in range(1, nsym_group + 1)]. The test
    [isym <= nsym_group / 2] is on the exact quotient. *)
Definition read_slot (dim nsym_group : Z) (isym : Z)
  (st : list (Z * character) * bool * file)
  : result (list (Z * character) * bool * file) :=
  let '(characters, self_hasuvw, f) := st in
  '(slot, f) <- read_slot_lines dim isym f ;;
  match slot with
  | None => OK (characters, self_hasuvw, f)
  | Some (abcde, hasuvw) =>
      let self_hasuvw := if existsb id hasuvw then true else self_hasuvw in
      let characters :=
        if 2 * isym <=? nsym_group
        then dict_set Z.eqb isym (CharFunction abcde) characters
        else characters in
      OK (characters, self_hasuvw, f)
  end.

(** [{isym: self.characters[isym]() for isym in self.characters}]. *)
Definition reduce_characters (characters : list (Z * character))
  : result (list (Z * character)) :=
  kvs <- mapM (fun kv =>
                 match snd kv with
                 | CharFunction abcde =>
                     z <- CharFunction_call0 abcde ;;
                     OK (fst kv, Const (NComplex z))
                 | Const _ => Raise TypeError
                 end) characters ;;
  OK (dict_of Z.eqb kvs).

(** The fields of the first line of a machine record, in the order the
    constructor reads them. *)
Record irrep_head : Type := {
  hd_k : list float64;
  hd_has_rkmk : option bool;
  hd_name : string;
  hd_kpname : string;
  hd_dim : Z;
  hd_count : Z;
  hd_reality : Z;
}.

(** [s = f.readline().split()] and the attributes taken from [s]. *)
Definition read_irrep_head (f : file) : result (irrep_head * file) :=
  let (l, f) := readline f in
  let s := Str.split l in
  k <- float_array (firstn 3 s) ;;
  s3 <- index s 3 ;;
  let has_rkmk := if (s3 =? "1")%string then Some true else None in
  name <- index s 4 ;;
  kpname <- index s 7 ;;
  s5 <- index s 5 ;;
  dim <- or_raise ValueError (Str.to_int s5) ;;
  s6 <- index s 6 ;;
  n6 <- or_raise ValueError (Str.to_int s6) ;;
  s8 <- index s 8 ;;
  reality <- or_raise ValueError (Str.to_int s8) ;;
  OK ({| hd_k := k; hd_has_rkmk := has_rkmk; hd_name := name;
         hd_kpname := kpname; hd_dim := dim; hd_count := n6;
         hd_reality := reality |}, f).

(** [Irrep(f=f, nsym_group=nsym_group)]: the machine encoding, read from the
    file. [int(int(s[6]) / 2)] truncates the exact quotient. *)
Definition Irrep_init (f : file) (nsym_group : Z) : result (Irrep * file) :=
  '(h, f) <- read_irrep_head f ;;
  let nsym := Z.quot (hd_count h) 2 in
  '(characters, hasuvw, f) <-
    foldM (read_slot (hd_dim h) nsym_group) (range 1 (Z.to_nat nsym_group))
          ([], false, f) ;;
  characters <- (if negb hasuvw then reduce_characters characters
                 else OK characters) ;;
  _ <- py_assert (Z.of_nat (List.length characters) =? nsym) ;;
  OK ({| irr_k := hd_k h; irr_kpname := hd_kpname h;
         irr_has_rkmk := hd_has_rkmk h; irr_name := hd_name h;
         irr_dim := hd_dim h; irr_nsym := nsym;
         irr_reality := RealityInt (hd_reality h);
         irr_characters := characters; irr_hasuvw := Some hasuvw |}, f).

(** What the slot loop reads, slot by slot, apart from what it does with
    it. *)
Fixpoint read_slots_lines (dim : Z) (isyms : list Z) (f : file)
  : result (list (Z * option (list (list float64) * list bool)) * file) :=
  match isyms with
  | [] => OK ([], f)
  | isym :: isyms' =>
      '(slot, f) <- read_slot_lines dim isym f ;;
      '(slots, f) <- read_slots_lines dim isyms' f ;;
      OK ((isym, slot) :: slots, f)
  end.

(** [Irrep(line=line, k_point=k_point)]: the user encoding. Neither [hasuvw]
    nor [has_rkmk] is assigned. *)
Definition Irrep_init_user (line : string) (k_point : KPoint) : result Irrep :=
  let k := kp_k k_point in
  let kpname := kp_name k_point in
  let line := Str.split line in
  name <- index line 0 ;;
  l1 <- index line 1 ;;
  dim <- or_raise ValueError (Str.to_int l1) ;;
  let nsym := List.length (kp_isym k_point) in
  let reality := Nat.eqb (List.length (skipn 2 line)) nsym in
  amps <- float_array (slice 2 (2 + nsym) line) ;;
  ch <- (if negb reality
         then
           phases <- float_array (slice (2 + nsym) (2 + 2 * nsym) line) ;;
           polar_array amps phases
         else OK (map NFloat amps)) ;;
  kvs <- mapM (fun i =>
                 key <- index (kp_isym k_point) i ;;
                 c <- index ch i ;;
                 OK (key, Const c)) (seq 0 nsym) ;;
  OK {| irr_k := k; irr_kpname := kpname; irr_has_rkmk := None;
        irr_name := name; irr_dim := dim; irr_nsym := Z.of_nat nsym;
        irr_reality := RealityBool reality;
        irr_characters := dict_of Z.eqb kvs;
        irr_hasuvw := None |}.

Definition as_num (c : character) : option num :=
  match c with
  | Const n => Some n
  | CharFunction _ => None
  end.

Fixpoint all_nums (cs : list character) : option (list num) :=
  match cs with
  | [] => Some []
  | c :: cs' =>
      match as_num c, all_nums cs' with
      | Some n, Some ns => Some (n :: ns)
      | _, _ => None
      end
  end.

(** [Irrep.str()]. *)
Definition Irrep_str (irr : Irrep) : result string :=
  chars <- mapM (fun isym =>
                   or_raise KeyError (dict_get Z.eqb isym (irr_characters irr)))
                (sorted (keys (irr_characters irr))) ;;
  str_ch <-
    match all_nums chars with
    | Some ch =>
        m <- np_max (map (fun c => fabs (num_imag c)) ch) ;;
        if fgtb m (float_lit "1e-6")
        then OK ("   " ++ Str.join "  " (map (fun c => str_ (num_abs c)) ch)
                 ++ "   "
                 ++ Str.join "  " (map (fun c => str_ (num_angle_pi c)) ch))
        else OK ("   " ++ Str.join "  " (map (fun c => str_ (num_real c)) ch))
    | None => str_objects chars
    end ;;
  OK (irr_name irr ++ " " ++ Str.of_int (irr_dim irr) ++ " " ++ str_ch).

(* --------------------------------------------------------------------- *)
(** *** class IrrepTable *)

(** [name] and [NK] are [None] when the loader never assigned them. *)
Record IrrepTable : Type := {
  tab_number : Z;
  tab_name : option string;
  tab_spinor : bool;
  tab_nsym : Z;
  tab_symmetries : list SymopTable;
  tab_NK : option Z;
  tab_irreps : list Irrep;
}.

(** [while True: self.irreps.append(Irrep(f=f, nsym_group=self.nsym));
    f.readline()], left by an [IndexError], which the loader swallows; any
    other exception leaves the loader. [None] tells that [fuel] ran out. *)
Fixpoint scan_irreps (fuel : nat) (nsym_group : Z) (irreps : list Irrep)
  (f : file) : option (result (list Irrep)) :=
  match fuel with
  | O => None
  | S fuel' =>
      match Irrep_init f nsym_group with
      | OK (irr, f') =>
          scan_irreps fuel' nsym_group (irreps ++ [irr])%list
                      (snd (readline f'))
      | Raise IndexError => Some (OK irreps)
      | Raise e => Some (Raise e)
      end
  end.

(** One round of [[SymopTable(f.readline()) for i in range(self.nsym)]]. *)
Definition read_operation (i : Z) (st : list SymopTable * file)
  : result (list SymopTable * file) :=
  let (symmetries, f) := st in
  let (l, f) := readline f in
  s <- SymopTable_init l ;;
  OK ((symmetries ++ [s])%list, f).

(** The legacy loader with a bound on the records read: [IrrepTable(SGnumber,
    spinor, fromUser=False)] on the lines [f] of the bundled table. *)
Definition IrrepTable_init_fuel (fuel : nat) (SGnumber : Z) (spinor : bool)
  (f : file) : option (result IrrepTable) :=
  let (l, f) := readline f in
  match Str.split l with
  | [tn; name] =>
      match
        (nsym <- or_raise ValueError (Str.to_int tn) ;;
         '(symmetries, f) <-
           foldM read_operation (range 0 (Z.to_nat nsym)) ([], f) ;;
         let (l, f) := readline f in
         _ <- py_assert (Str.strip l =? "#")%string ;;
         let (l, f) := readline f in
         NK <- or_raise ValueError (Str.to_int l) ;;
         OK (nsym, symmetries, NK, f))
      with
      | Raise e => Some (Raise e)
      | OK (nsym, symmetries, NK, f) =>
          match scan_irreps fuel nsym [] f with
          | None => None
          | Some (Raise e) => Some (Raise e)
          | Some (OK irreps) =>
              let irreps :=
                if spinor
                then filter (fun s => Str.startswith "-" (irr_name s)) irreps
                else filter (fun s => negb (Str.startswith "-" (irr_name s)))
                            irreps in
              let nsym := Z.quot nsym 2 in
              Some (OK {| tab_number := SGnumber; tab_name := Some name;
                          tab_spinor := spinor; tab_nsym := nsym;
                          tab_symmetries := slice_to nsym symmetries;
                          tab_NK := Some NK; tab_irreps := irreps |})
          end
      end
  | _ => Some (Raise ValueError)
  end.

(** Every record read takes at least one line, so the number of lines bounds
    the number of records. *)
Definition IrrepTable_init (SGnumber : Z) (spinor : bool) (f : file)
  : option (result IrrepTable) :=
  IrrepTable_init_fuel (S (List.length f)) SGnumber spinor f.

(** [while len(self.symmetries) < self.nsym: l = lines.pop(); try: ...]:
    the pop is outside the [try]. *)
Fixpoint read_symmetries (nsym : Z) (symmetries : list SymopTable)
  (lines : file) : result (list SymopTable * file) :=
  if Z.of_nat (List.length symmetries) <? nsym
  then match lines with
       | [] => Raise IndexError
       | l :: lines' =>
           match SymopTable_init_from_user l with
           | OK s => read_symmetries nsym (symmetries ++ [s])%list lines'
           | Raise _ => read_symmetries nsym symmetries lines'
           end
       end
  else OK (symmetries, lines).

(** How the body of the header loop ends on a line: it goes on with the
    attributes [name] and [nsym] as they now are, or it reaches the
    [symmetries] line, reads the operations and leaves the loop. *)
Inductive header_step : Type :=
| Continue (name : option string) (nsym : option Z)
| Symmetries.

(** The tests of the header loop on one line; [name] and [nsym] are the
    attributes assigned so far. *)
Definition header_line (SG : Z) (spinor : bool) (name : option string)
  (nsym : option Z) (line : string) : result header_step :=
  let l := Str.split_on "=" (Str.strip line) in
  l0 <- index l 0 ;;
  let key := Str.lower l0 in
  if (key =? "SG")%string then
    l1 <- index l 1 ;;
    n <- or_raise ValueError (Str.to_int l1) ;;
    _ <- py_assert (n =? SG) ;;
    OK (Continue name nsym)
  else if (key =? "name")%string then
    l1 <- index l 1 ;;
    OK (Continue (Some l1) nsym)
  else if (key =? "nsym")%string then
    l1 <- index l 1 ;;
    n <- or_raise ValueError (Str.to_int l1) ;;
    OK (Continue name (Some n))
  else if (key =? "spinor")%string then
    l1 <- index l 1 ;;
    b <- str2bool l1 ;;
    _ <- py_assert (Bool.eqb b spinor) ;;
    OK (Continue name nsym)
  else if (key =? "symmetries")%string then OK Symmetries
  else OK (Continue name nsym).

(** The header loop of the user loader, up to its [break]. When the lines
    run out before a [symmetries] line, [self.symmetries] is read unassigned
    just after the loop; [self.nsym] is read unassigned when the
    [symmetries] line comes before any [nsym] line. *)
Fixpoint read_header (SG : Z) (spinor : bool) (name : option string)
  (nsym : option Z) (lines : file)
  : result (option string * Z * list SymopTable * file) :=
  match lines with
  | [] => Raise AttributeError
  | line :: lines' =>
      step <- header_line SG spinor name nsym line ;;
      match step with
      | Continue name' nsym' => read_header SG spinor name' nsym' lines'
      | Symmetries =>
          n <- or_raise AttributeError nsym ;;
          '(symmetries, rest) <- read_symmetries n [] lines' ;;
          OK (name, n, symmetries, rest)
      end
  end.

(** The second loop of the user loader: a line is tried as a k-point, then
    as an irrep of the current k-point; any exception is swallowed. [kp] is
    [None] while the variable is unbound. *)
Fixpoint read_irreps (kp : option KPoint) (irreps : list Irrep) (lines : file)
  : list Irrep :=
  match lines with
  | [] => irreps
  | line :: lines' =>
      let l := Str.strip line in
      match KPoint_of_line l with
      | OK kp' => read_irreps (Some kp') irreps lines'
      | Raise _ =>
          match kp with
          | None => read_irreps kp irreps lines'
          | Some k_point =>
              match Irrep_init_user l k_point with
              | OK irr => read_irreps kp (irreps ++ [irr])%list lines'
              | Raise _ => read_irreps kp irreps lines'
              end
          end
      end
  end.

(** [IrrepTable(SG, spinor, fromUser=True, name=...)] on the lines of the
    file, in file order. *)
Definition IrrepTable_init_user (SG : Z) (spinor : bool) (lines : file)
  : result IrrepTable :=
  '(name, nsym, symmetries, rest) <- read_header SG spinor None None lines ;;
  OK {| tab_number := SG; tab_name := name; tab_spinor := spinor;
        tab_nsym := nsym; tab_symmetries := symmetries; tab_NK := None;
        tab_irreps := read_irreps None [] rest |}.

Definition nl : string := String "010"%char EmptyString.

(** The coordinates that [save4user] leaves out. *)
Definition reserved : list float64 :=
  map float_lit
      ["0.123"; "0.313"; "1.123"; "0.877"; "0.427"; "0.246"; "0.687"].

(** [len(set(reserved).intersection(list(k))) == 0]. *)
Definition no_reserved (k : list float64) : bool :=
  negb (existsb (fun x => existsb (feqb x) reserved) k).

(** The k-point [save4user] builds from an irrep. *)
Definition KPoint_of_irrep (irr : Irrep) : KPoint :=
  {| kp_name := irr_kpname irr; kp_k := irr_k irr;
     kp_isym := py_set (keys (irr_characters irr)) |}.

(** The body of the first loop of [save4user]. *)
Definition add_kpoint (irr : Irrep) (kpoints : list (string * KPoint))
  : result (list (string * KPoint)) :=
  hasuvw <- or_raise AttributeError (irr_hasuvw irr) ;;
  if negb hasuvw then
    let kp := KPoint_of_irrep irr in
    if no_reserved (kp_k kp) then
      match dict_get String.eqb (kp_name kp) kpoints with
      | Some kp0 =>
          b <- KPoint_eq kp0 kp ;;
          _ <- py_assert b ;;
          OK kpoints
      | None => OK (dict_set String.eqb (kp_name kp) kp kpoints)
      end
    else OK kpoints
  else OK kpoints.

(** The text of the first [fout.write]. *)
Definition header_text (T : IrrepTable) : result string :=
  name <- or_raise AttributeError (tab_name T) ;;
  OK ("SG=" ++ Str.of_int (tab_number T) ++ nl
      ++ " name=" ++ name ++ " " ++ nl
      ++ " nsym= " ++ Str.of_int (tab_nsym T) ++ nl
      ++ " spinor=" ++ Str.of_bool (tab_spinor T) ++ nl).

(** The text of the second [fout.write]. *)
Definition symmetries_text (T : IrrepTable) : string :=
  "symmetries=" ++ nl
  ++ Str.join nl (map (fun s => SymopTable_str s (tab_spinor T))
                      (tab_symmetries T))
  ++ nl ++ nl.

(** What [save4user] has written, one string for each [fout.write], and how
    it ended. *)
Definition written : Type := list string * result unit.

(** [for irr in self.irreps: if irr.kpname == kp.name: fout.write(...)]. *)
Fixpoint write_irreps (kpname : string) (irreps : list Irrep)
  (out : list string) : written :=
  match irreps with
  | [] => (out, OK tt)
  | irr :: irreps' =>
      if (irr_kpname irr =? kpname)%string
      then match Irrep_str irr with
           | OK line => write_irreps kpname irreps' (out ++ [(line ++ nl)%string])%list
           | Raise e => (out, Raise e)
           end
      else write_irreps kpname irreps' out
  end.

(** The line [save4user] writes for a k-point. *)
Definition kpoint_text (kp : KPoint) : string :=
  nl ++ " kpoint  " ++ KPoint_str kp ++ nl.

(** [for kp in kpoints.values(): ...]. *)
Fixpoint write_kpoints (T : IrrepTable) (kps : list KPoint)
  (out : list string) : written :=
  match kps with
  | [] => (out, OK tt)
  | kp :: kps' =>
      match write_irreps (kp_name kp) (tab_irreps T)
                         (out ++ [kpoint_text kp])%list with
      | (out', OK _) => write_kpoints T kps' out'
      | w => w
      end
  end.

(** [IrrepTable.save4user(name)], as the sequence of its writes. *)
Definition save4user (T : IrrepTable) : written :=
  match header_text T with
  | Raise e => ([], Raise e)
  | OK h =>
      let out := [h; symmetries_text T] in
      match foldM add_kpoint (tab_irreps T) [] with
      | Raise e => (out, Raise e)
      | OK kpoints => write_kpoints T (values kpoints) out
      end
  end.

(* --------------------------------------------------------------------- *)
(** *** Views of the input, for the statements *)

(** The header loop run over the lines [pre], none of which is the
    [symmetries] line or raises: the attributes it leaves. *)
Fixpoint header_prefix (SG : Z) (spinor : bool) (name : option string)
  (nsym : option Z) (pre : list string) : option (option string * option Z) :=
  match pre with
  | [] => Some (name, nsym)
  | line :: pre' =>
      match header_line SG spinor name nsym line with
      | OK (Continue name' nsym') => header_prefix SG spinor name' nsym' pre'
      | _ => None
      end
  end.

(** The slots of a machine record that give a character: the present
    operations of the first half, each with the rows of its diagonal. *)
Definition retained (nsym_group : Z)
  (slots : list (Z * option (list (list float64) * list bool)))
  : list (Z * list (list float64)) :=
  flat_map (fun s =>
              match snd s with
              | Some (abcde, _) =>
                  if 2 * fst s <=? nsym_group then [(fst s, abcde)] else []
              | None => []
              end) slots.

(** Whether some diagonal entry of some slot carries the flag [2]. *)
Definition parameterized
  (slots : list (Z * option (list (list float64) * list bool))) : bool :=
  existsb (fun s =>
             match snd s with
             | Some (_, hasuvw) => existsb id hasuvw
             | None => false
             end) slots.

(** The sum over the rows of [coefficient * exp(i pi a1)], [a1] being the
    second entry of the row (zero for a row that stops at its
    coefficient). *)
Definition constant_of (abcde : list (list float64)) : complex128 :=
  fold_left cadd
    (map (fun aaa => cpolar (nth 0 aaa (float_of_int 0))
                            (nth 1 aaa (float_of_int 0))) abcde)
    (complex_of_int 0).

(** The characters the slot loop leaves: a [CharFunction] for each
    retained slot. *)
Definition callables (kvs : list (Z * list (list float64)))
  : list (Z * character) :=
  map (fun kv => (fst kv, CharFunction (snd kv))) kvs.

(** Whether [save4user] takes a k-point from an irrep: the irrep is not
    parameterized and none of its coordinates is reserved. *)
Definition eligible (irr : Irrep) : bool :=
  match irr_hasuvw irr with
  | Some false => no_reserved (irr_k irr)
  | _ => false
  end.

(** The names of a list, each at its first occurrence. *)
Definition distinct (names : list string) : list string :=
  fold_left (fun seen x =>
               if existsb (String.eqb x) seen then seen
               else (seen ++ [x])%list) names [].

(** The first irrep named [kpname] from which [save4user] takes a
    k-point. *)
Definition representative (kpname : string) (irreps : list Irrep)
  : option Irrep :=
  find (fun irr => eligible irr && (irr_kpname irr =? kpname)%string) irreps.

(** The irreps of a table at the k-point named [kpname], in table order. *)
Definition irreps_at (kpname : string) (irreps : list Irrep) : list Irrep :=
  filter (fun irr => (irr_kpname irr =? kpname)%string) irreps.

(** A k-point section as [save4user] writes it: the line of the k-point,
    then the line of every irrep of the table at a k-point of that name. *)
Definition section_of (T : IrrepTable) (kp : KPoint) (sec : list string)
  : Prop :=
  exists lines,
    mapM Irrep_str (irreps_at (kp_name kp) (tab_irreps T)) = OK lines /\
    sec = kpoint_text kp :: map (fun l => l ++ nl) lines.

(** Whether a line parses as an operation in the user encoding. *)
Definition parses_as_symop (l : string) : bool :=
  match SymopTable_init_from_user l with
  | OK _ => true
  | Raise _ => false
  end.

(** *** A machine record, as it stands in the file *)

(** A slot of a machine record: the line [ism issym] and, for a present
    operation, the entries of its matrix row by row, each entry the line of
    its flag and the line of its numbers. *)
Inductive slot_block : Type :=
| Absent (l : string)
| Present (l : string) (entries : list (list (string * string))).

(** The lines of a slot, in file order. *)
Definition block_lines (b : slot_block) : list string :=
  match b with
  | Absent l => [l]
  | Present l entries =>
      l :: flat_map (flat_map (fun e => [fst e; snd e])) entries
  end.

(** The diagonal of a matrix given by its rows, the first of them being row
    [i]. *)
Fixpoint diagonal_from {A} (i : nat) (m : list (list A)) : list A :=
  match m with
  | [] => []
  | row :: m' =>
      match nth_error row i with
      | Some x => x :: diagonal_from (S i) m'
      | None => diagonal_from (S i) m'
      end
  end.

(** The diagonal entries of a slot. *)
Definition block_diagonal (b : slot_block) : list (string * string) :=
  match b with
  | Absent _ => []
  | Present _ entries => diagonal_from 0 entries
  end.

(** Whether the flag line of some diagonal entry of the slot is [2]. *)
Definition block_flagged (b : slot_block) : bool :=
  existsb (fun e => (Str.strip (fst e) =? "2")%string) (block_diagonal b).

(** The rows of a slot: the numbers on the second line of each diagonal
    entry. *)
Definition block_rows (b : slot_block) : result (list (list float64)) :=
  mapM (fun e => float_array (Str.split (snd e))) (block_diagonal b).

(** Slot [isym] of a record of dimension [dim] is laid out in full: its
    first line holds [isym] and [0], and nothing follows; or it holds [isym]
    and [1], and [dim] rows of [dim] entries follow. *)
Definition slot_laid_out (dim isym : Z) (b : slot_block) : Prop :=
  match b with
  | Absent l => map Str.to_int (Str.split l) = [Some isym; Some 0]
  | Present l entries =>
      map Str.to_int (Str.split l) = [Some isym; Some 1] /\
      List.length entries = Z.to_nat dim /\
      Forall (fun row => List.length row = Z.to_nat dim) entries
  end.

(** Whether slot [isym] gives a character: the operation is present and in
    the first half. *)
Definition gives_character (nsym_group : Z) (ib : Z * slot_block) : bool :=
  match snd ib with
  | Present _ _ => 2 * fst ib <=? nsym_group
  | Absent _ => false
  end.

(** The slots of a record that give a character, each with its index. *)
Definition kept_blocks (nsym_group : Z) (blocks : list slot_block)
  : list (Z * slot_block) :=
  filter (gives_character nsym_group)
         (combine (range 1 (Z.to_nat nsym_group)) blocks).

(** The exponent of a row in a call with [u = v = w = 0], as the call sums
    it: [0 + a1 * 1 + a2 * 0 + a3 * 0 + a4 * 0]. *)
Definition exponent_at_zero (aaa : list float64) : float64 :=
  fold_left fadd
    (map2 fmul (tl aaa)
          [float_of_int 1; float_of_int 0; float_of_int 0; float_of_int 0])
    (float_of_int 0).

(** What the constructor takes from a diagonal entry: the flag, then the
    row. *)
Definition read_diagonal_entry (e : string * string)
  : result (list float64 * bool) :=
  flag <- (if (Str.strip (fst e) =? "1")%string then OK false
           else if (Str.strip (fst e) =? "2")%string then OK true
           else Raise RuntimeError) ;;
  row <- float_array (Str.split (snd e)) ;;
  OK (row, flag).

(** What the constructor takes from a slot. *)
Definition read_block (b : slot_block)
  : result (option (list (list float64) * list bool)) :=
  match b with
  | Absent _ => OK None
  | Present _ entries =>
      rf <- mapM read_diagonal_entry (diagonal_from 0 entries) ;;
      OK (Some (map fst rf, map snd rf))
  end.

End Model.

(* ===================================================================== *)
(** ** An executable kernel for the closed examples

    Reals are decimals with twelve places, held as the integer number of
    units of [10^-12]; a complex number is its real and imaginary part.
    Sums and differences are exact; products, roots and the trigonometric
    functions are cut to twelve places. *)

Module Ref.

Definition unit_ : Z := 10 ^ 12.

(** The digits at the head of [s], pushed onto [acc]: the value, how many
    were read, and what follows. *)
Fixpoint take_digits (s : string) (acc : Z) (n : nat) : Z * nat * string :=
  match s with
  | EmptyString => (acc, n, s)
  | String c s' =>
      match Str.digit c with
      | Some d => take_digits s' (10 * acc + d) (S n)
      | None => (acc, n, s)
      end
  end.

(** The exponent part of a decimal literal, empty or [e], a sign, digits. *)
Definition exponent (s : string) : option Z :=
  match s with
  | EmptyString => Some 0
  | String c s' =>
      if Ascii.eqb c "e" || Ascii.eqb c "E"
      then
        let (neg, s'') :=
          match s' with
          | String "-" r => (true, r)
          | String "+" r => (false, r)
          | _ => (false, s')
          end in
        let '(e, n, rest) := take_digits s'' 0 0 in
        if Nat.eqb n 0 || negb (Str.is_empty rest) then None
        else Some (if neg then - e else e)
      else None
  end.

(** [m * 10^e] in units, cut towards zero. *)
Definition units (m e : Z) : Z :=
  if 0 <=? 12 + e then m * 10 ^ (12 + e) else Z.quot m (10 ^ (- (12 + e))).

(** A decimal literal: sign, digits, point, digits, exponent. *)
Definition parse_decimal (s : string) : option Z :=
  let s := Str.strip s in
  let (neg, s) :=
    match s with
    | String "-" r => (true, r)
    | String "+" r => (false, r)
    | _ => (false, s)
    end in
  let '(ip, ni, s) := take_digits s 0 0 in
  let '(m, nf, s) :=
    match s with
    | String "." r => take_digits r ip 0
    | _ => (ip, O, s)
    end in
  if Nat.eqb (ni + nf) 0 then None
  else match exponent s with
       | None => None
       | Some e =>
           let v := units m (e - Z.of_nat nf) in
           Some (if neg then - v else v)
       end.

Definition lit (s : string) : Z :=
  match parse_decimal s with
  | Some v => v
  | None => 0
  end.

Definition mul (a b : Z) : Z := Z.quot (a * b) unit_.

(** The fraction digits of [n < 10^w], [w] wide, without trailing zeros. *)
Fixpoint frac_digits (w : nat) (n : Z) : string :=
  match w with
  | O => ""
  | S w' =>
      if n =? 0 then ""
      else let p := 10 ^ Z.of_nat w' in
           String (ascii_of_N (Z.to_N (48 + n / p))) (frac_digits w' (n mod p))
  end.

(** A decimal with at least one fraction digit, as [str] prints a float of
    moderate size. *)
Definition show (v : Z) : string :=
  let a := Z.abs v in
  let fr := frac_digits 12 (a mod unit_) in
  (if v <? 0 then "-" else "")
  ++ Str.of_int (a / unit_) ++ "."
  ++ (if Str.is_empty fr then "0" else fr).

(** [round(x, 5)], ties to even. *)
Definition round5 (v : Z) : Z :=
  let p := 10 ^ 7 in
  let q := v / p in
  let r := v mod p in
  let up := (2 * r >? p) || ((2 * r =? p) && Z.odd q) in
  (if up then q + 1 else q) * p.

(** [cos x] and [sin x] for [x] in units of [10^-24], by their series. *)
Fixpoint series (n : nat) (k : Z) (x2 term acc : Z) : Z :=
  match n with
  | O => acc
  | S n' =>
      let term' := - Z.quot (Z.quot (term * x2) (10 ^ 48)) (k * (k + 1)) in
      series n' (k + 2) x2 term' (acc + term')
  end.

Definition pi24 : Z := 3141592653589793238462643.

(** [(cos (pi p), sin (pi p))], exact at the quarter turns. *)
Definition cos_sin_pi (p : Z) : Z * Z :=
  let q := ((p + unit_) mod (2 * unit_)) - unit_ in
  if q =? 0 then (unit_, 0)
  else if q =? - unit_ then (- unit_, 0)
  else if 2 * q =? unit_ then (0, unit_)
  else if 2 * q =? - unit_ then (0, - unit_)
  else
    let x := Z.quot (pi24 * q) unit_ in
    let x2 := x * x in
    let c := series 30 1 x2 (10 ^ 24) (10 ^ 24) in
    let s := series 30 2 x2 x x in
    (Z.quot c unit_, Z.quot s unit_).

Definition polar (a p : Z) : Z * Z :=
  let (c, s) := cos_sin_pi p in (mul a c, mul a s).

Definition modulus (z : Z * Z) : Z := Z.sqrt (fst z * fst z + snd z * snd z).

(** The [p] in [[0, 1]] with [r * cos (pi p) = re], by bisection. *)
Fixpoint bisect (n : nat) (re r lo hi : Z) : Z :=
  match n with
  | O => lo
  | S n' =>
      let mid := (lo + hi) / 2 in
      if mul r (fst (cos_sin_pi mid)) >? re
      then bisect n' re r mid hi
      else bisect n' re r lo mid
  end.

(** [np.angle(z) / np.pi]. *)
Definition angle_pi (z : Z * Z) : Z :=
  let (re, im) := z in
  if im =? 0 then (if re <? 0 then unit_ else 0)
  else if re =? 0 then (if im <? 0 then - (unit_ / 2) else unit_ / 2)
  else let p := bisect 44 re (modulus z) 0 unit_ in
       if im <? 0 then - p else p.

#[export] Instance numpy : NumPy := {|
  float64 := Z;
  complex128 := Z * Z;
  parse_float := parse_decimal;
  float_lit := lit;
  float_of_int := fun n => n * unit_;
  feqb := Z.eqb;
  fgtb := Z.gtb;
  fadd := Z.add;
  fsub := Z.sub;
  fmul := mul;
  fmax := Z.max;
  fabs := Z.abs;
  fangle_pi := fun x => if x <? 0 then unit_ else 0;
  norm := fun v => Z.sqrt (fold_left (fun s x => s + x * x) v 0);
  cpolar := polar;
  complex_of_int := fun n => (n * unit_, 0);
  cadd := fun a b => (fst a + fst b, snd a + snd b);
  creal := fst;
  cimag := snd;
  cabs := modulus;
  cangle_pi := angle_pi;
  str_float := show;
|}.

(** Modelled from the spec: [irrep.__aux.str2bool] is not among the sources.
    The header field [spinor=] carries the text [save4user] writes for the
    flag, [True] or [False]; anything else is refused. *)
Definition to_bool (s : string) : result bool :=
  let v := Str.lower (Str.strip s) in
  if (v =? "true")%string then OK true
  else if (v =? "false")%string then OK false
  else Raise RuntimeError.

(** Modelled from the spec: [irrep.__aux.str2list_space] is not among the
    sources. The third field of a k-point line is the list of the indices of
    the little-group operations, separated by blanks. *)
Definition to_list_space (s : string) : result (list Z) :=
  mapM (fun t => or_raise ValueError (Str.to_int t)) (Str.split s).

(** Modelled from the spec: [irrep.__aux.str_] is not among the sources. A
    real is written in the fixed precision of the tables, five decimals. *)
Definition fmt (x : Z) : string := show (round5 x).

#[export] Instance aux : Aux := {|
  str2bool := to_bool;
  str2list_space := to_list_space;
  str_ := fmt;
  str_objects := fun _ => Raise TypeError;
|}.

End Ref.

(* ===================================================================== *)
(** ** The executable kernel with a not-a-number

    [float("nan")] is a float too. [None] stands for it: an operation with
    it as an argument returns it, and a comparison with it is false.
    Everything else is [Ref.numpy]. *)

Module RefNaN.

Definition lift2 {A B C} (f : A -> B -> C) (x : option A) (y : option B)
  : option C :=
  match x, y with
  | Some a, Some b => Some (f a b)
  | _, _ => None
  end.

Definition test2 {A B} (f : A -> B -> bool) (x : option A) (y : option B)
  : bool :=
  match x, y with
  | Some a, Some b => f a b
  | _, _ => false
  end.

(** The entries of an array, when none is a not-a-number. *)
Fixpoint all_numbers {A} (v : list (option A)) : option (list A) :=
  match v with
  | [] => Some []
  | x :: v' => lift2 cons x (all_numbers v')
  end.

Definition numpy : NumPy := {|
  float64 := option Z;
  complex128 := option (Z * Z);
  parse_float := fun s =>
    if (Str.lower (Str.strip s) =? "nan")%string then Some None
    else option_map Some (Ref.parse_decimal s);
  float_lit := fun s => Some (Ref.lit s);
  float_of_int := fun n => Some (n * Ref.unit_);
  feqb := test2 Z.eqb;
  fgtb := test2 Z.gtb;
  fadd := lift2 Z.add;
  fsub := lift2 Z.sub;
  fmul := lift2 Ref.mul;
  fmax := lift2 Z.max;
  fabs := option_map Z.abs;
  fangle_pi := option_map (fun x => if x <? 0 then Ref.unit_ else 0);
  norm := fun v =>
    option_map (fun xs => Z.sqrt (fold_left (fun s x => s + x * x) xs 0))
               (all_numbers v);
  cpolar := lift2 Ref.polar;
  complex_of_int := fun n => Some (n * Ref.unit_, 0);
  cadd := lift2 (fun a b => (fst a + fst b, snd a + snd b));
  creal := option_map fst;
  cimag := option_map snd;
  cabs := option_map Ref.modulus;
  cangle_pi := option_map Ref.angle_pi;
  str_float := fun x =>
    match x with
    | Some v => Ref.show v
    | None => "nan"
    end;
|}.

End RefNaN.

(* ===================================================================== *)
(** ** Example tables *)

Module Examples.
Import Ref.

(** The lines of a file, each given without its newline. *)
Definition lines_of (ls : list string) : file := map (fun l => l ++ nl) ls.

Definition identity_line : string :=
  "1 0 0 0 1 0 0 0 1 0.0 0.0 0.0 1.0 0.0 0.0 0.0 0.0 0.0 1.0 0.0".

(** A machine record of a one-dimensional irrep [name] at the k-point
    [kpname] of coordinates [k], over four slots, all present; [flag] is the
    flag line of the third slot. *)
Definition record (k name kpname flag : string) : list string :=
  [k ++ " 1 " ++ name ++ " 1 4 " ++ kpname ++ " 1";
   "1 1"; "1"; "1.0 0.0 0.0 0.0 0.0";
   "2 1"; "1"; "1.0 0.0 0.0 0.0 0.0";
   "3 1"; flag; "1.0 0.0 0.0 0.0 0.0";
   "4 1"; "1"; "1.0 0.0 0.0 0.0 0.0";
   ""].

(** A legacy table: four operations, one k-point, one irrep. *)
Definition legacy_GM : file :=
  lines_of (["4 Fm-3m"; identity_line; identity_line; identity_line;
             identity_line; "#"; "1"]
            ++ record "0.0 0.0 0.0" "GM1" "GM" "1")%list.

(** A legacy table with two irreps at the k-point [X], the second with a
    parameterized entry. *)
Definition legacy_X : file :=
  lines_of (["4 Fm-3m"; identity_line; identity_line; identity_line;
             identity_line; "#"; "1"]
            ++ record "0.0 0.5 0.0" "X1" "X" "1"
            ++ record "0.0 0.5 0.0" "X2" "X" "2")%list.

(** A table in the user encoding, as [save4user] lays it out. *)
Definition user_GM : file :=
  lines_of ["SG=225"; " name=Fm-3m "; " nsym= 2"; " spinor=False";
            "symmetries=";
            "1 0 0   0 1 0   0 0 1     0.0 0.0 0.0";
            "1 0 0   0 1 0   0 0 1     0.0 0.0 0.0";
            "";
            "";
            " kpoint  GM : 0.0 0.0 0.0  : 1 2";
            "GM1 1    1.0  1.0"].

(** [user_GM] cut short: two operations announced, one given. *)
Definition user_short : file :=
  lines_of ["SG=225"; " name=Fm-3m "; " nsym= 2"; " spinor=False";
            "symmetries=";
            "1 0 0   0 1 0   0 0 1     0.0 0.0 0.0"].

(** The k-point [GM] at the origin, with the operations 1 and 2. *)
Definition kp_GM : KPoint :=
  {| kp_name := "GM"; kp_k := [0; 0; 0]; kp_isym := [1; 2] |}.

(** A k-point without operations, [KPoint("GM", k, [])]. *)
Definition kp_bare : KPoint :=
  {| kp_name := "GM"; kp_k := [0; 0; 0]; kp_isym := [] |}.

(** The first record of [legacy_GM]. *)
Definition record_GM : file := skipn 7 legacy_GM.

Definition no_table : IrrepTable :=
  {| tab_number := 0; tab_name := None; tab_spinor := false; tab_nsym := 0;
     tab_symmetries := []; tab_NK := None; tab_irreps := [] |}.

(** The table of a load that succeeded. *)
Definition loaded (r : option (result IrrepTable)) : IrrepTable :=
  match r with
  | Some (OK T) => T
  | _ => no_table
  end.

Definition table_GM : IrrepTable :=
  Eval vm_compute in loaded (IrrepTable_init 225 false legacy_GM).

Definition table_X : IrrepTable :=
  Eval vm_compute in loaded (IrrepTable_init 225 false legacy_X).

(** A legacy table with two k-points, one irrep at each. *)
Definition legacy_GM_X : file :=
  lines_of (["4 Fm-3m"; identity_line; identity_line; identity_line;
             identity_line; "#"; "2"]
            ++ record "0.0 0.0 0.0" "GM1" "GM" "1"
            ++ record "0.0 0.5 0.0" "X1" "X" "1")%list.

(** A legacy table with two irreps that name the k-point [X] and disagree
    on its coordinates. *)
Definition legacy_clash : file :=
  lines_of (["4 Fm-3m"; identity_line; identity_line; identity_line;
             identity_line; "#"; "1"]
            ++ record "0.0 0.5 0.0" "X1" "X" "1"
            ++ record "0.5 0.0 0.0" "X2" "X" "1")%list.

(** A legacy table with a single-valued and a double-valued irrep at
    [GM]. *)
Definition legacy_both : file :=
  lines_of (["4 Fm-3m"; identity_line; identity_line; identity_line;
             identity_line; "#"; "1"]
            ++ record "0.0 0.0 0.0" "GM1" "GM" "1"
            ++ record "0.0 0.0 0.0" "-GM5" "GM" "1")%list.

Definition table_both : IrrepTable :=
  Eval vm_compute in loaded (IrrepTable_init 225 false legacy_both).

Definition table_GM_X : IrrepTable :=
  Eval vm_compute in loaded (IrrepTable_init 225 false legacy_GM_X).

Definition table_clash : IrrepTable :=
  Eval vm_compute in loaded (IrrepTable_init 225 false legacy_clash).

Definition table_user_GM : IrrepTable :=
  Eval vm_compute in loaded (Some (IrrepTable_init_user 225 false user_GM)).

(** The irrep of [table_GM]. *)
Definition irrep_GM : Irrep :=
  Eval vm_compute in
    nth 0 (tab_irreps table_GM)
        {| irr_k := []; irr_kpname := ""; irr_has_rkmk := None;
           irr_name := ""; irr_dim := 0; irr_nsym := 0;
           irr_reality := RealityInt 0; irr_characters := [];
           irr_hasuvw := None |}.

(** The irrep of [table_user_GM]. *)
Definition irrep_user_GM : Irrep :=
  Eval vm_compute in nth 0 (tab_irreps table_user_GM) irrep_GM.

(** A k-point whose indices repeat, [KPoint("GM", k, [1, 2, 1])], and the
    irrep that the line [A 1 1.0 2.0 3.0] gives against it. *)
Definition kp_repeat : KPoint :=
  {| kp_name := "GM"; kp_k := [0; 0; 0]; kp_isym := [1; 2; 1] |}.

Definition irrep_repeat : Irrep :=
  Eval vm_compute in
    match Irrep_init_user "A 1 1.0 2.0 3.0" kp_repeat with
    | OK irr => irr
    | Raise _ => irrep_user_GM
    end.

(** A machine record of a two-dimensional irrep over four slots, the first
    two present: the flag line of every entry off the diagonal is [2], that
    of every diagonal entry is [1]. *)
Definition slots_dim2 : list slot_block :=
  [Present ("1 1" ++ nl)
     [[("1" ++ nl, "1.0 0.0 0.0 0.0 0.0" ++ nl);
       ("2" ++ nl, "0.0 0.0 0.0 0.0 0.0" ++ nl)];
      [("2" ++ nl, "0.0 0.0 0.0 0.0 0.0" ++ nl);
       ("1" ++ nl, "1.0 0.0 0.0 0.0 0.0" ++ nl)]];
   Present ("2 1" ++ nl)
     [[("1" ++ nl, "1.0 0.5 0.0 0.0 0.0" ++ nl);
       ("2" ++ nl, "0.0 0.0 0.0 0.0 0.0" ++ nl)];
      [("2" ++ nl, "0.0 0.0 0.0 0.0 0.0" ++ nl);
       ("1" ++ nl, "1.0 -0.5 0.0 0.0 0.0" ++ nl)]];
   Absent ("3 0" ++ nl);
   Absent ("4 0" ++ nl)].

Definition record_dim2 : file :=
  (("0.0 0.0 0.0 1 GM3 2 4 GM 1" ++ nl)%string
   :: flat_map block_lines slots_dim2 ++ [nl])%list.

Definition irrep_dim2 : Irrep :=
  Eval vm_compute in
    match Irrep_init record_dim2 4 with
    | OK (irr, _) => irr
    | Raise _ => irrep_GM
    end.

(** The slots of the second record of [legacy_X]: the flag line of the
    third slot is [2]. *)
Definition slots_X2 : list slot_block :=
  [Present ("1 1" ++ nl) [[("1" ++ nl, "1.0 0.0 0.0 0.0 0.0" ++ nl)]];
   Present ("2 1" ++ nl) [[("1" ++ nl, "1.0 0.0 0.0 0.0 0.0" ++ nl)]];
   Present ("3 1" ++ nl) [[("2" ++ nl, "1.0 0.0 0.0 0.0 0.0" ++ nl)]];
   Present ("4 1" ++ nl) [[("1" ++ nl, "1.0 0.0 0.0 0.0 0.0" ++ nl)]]].

(** The second irrep of [table_X]. *)
Definition irrep_X2 : Irrep :=
  Eval vm_compute in nth 1 (tab_irreps table_X) irrep_GM.

(** A machine record of a one-dimensional irrep over two slots; a row of
    the first slot holds a not-a-number for [a2]. *)
Definition slots_nan : list slot_block :=
  [Present ("1 1" ++ nl) [[("1" ++ nl, "1.0 0.5 nan 0.0 0.0" ++ nl)]];
   Present ("2 1" ++ nl) [[("1" ++ nl, "1.0 0.0 0.0 0.0 0.0" ++ nl)]]].

Definition record_nan : file :=
  (("0.0 0.0 0.0 1 GM1 1 2 GM 1" ++ nl)%string
   :: flat_map block_lines slots_nan ++ [nl])%list.

(** The first operation of [table_GM], read from [identity_line]. *)
Definition op_identity : SymopTable :=
  Eval vm_compute in
    nth 0 (tab_symmetries table_GM)
        {| sym_R := []; sym_t := []; sym_S := [] |}.

(** The first operation of [table_user_GM]. *)
Definition op_user : SymopTable :=
  Eval vm_compute in nth 0 (tab_symmetries table_user_GM) op_identity.

End Examples.


(* ===================================================================== *)
(** ** Further views of the input and of the tables *)

Section Views.
Context {NP : NumPy} {AX : Aux}.

(** The operations among the lines: the lines that parse in the user
    encoding, parsed, in order. *)
Definition parsed_ops (lines : list string) : list SymopTable :=
  flat_map (fun l =>
              match SymopTable_init_from_user l with
              | OK s => [s]
              | Raise _ => []
              end) lines.


(** Whether the user loader takes a line as a k-point line. *)
Definition is_kpoint_line (l : string) : bool :=
  match KPoint_of_line (Str.strip l) with
  | OK _ => true
  | Raise _ => false
  end.

(** [irr] was read from a line of [lines] under the last k-point line
    above it. *)
Definition read_under (lines : file) (irr : Irrep) : Prop :=
  exists before kline mid iline after kp,
    lines = (before ++ kline :: mid ++ iline :: after)%list /\
    KPoint_of_line (Str.strip kline) = OK kp /\
    Forall (fun l => is_kpoint_line l = false) (mid ++ [iline])%list /\
    Irrep_init_user (Str.strip iline) kp = OK irr.


(** [m.shape == (rows, cols)] for an array kept as the list of its rows. *)
Definition shaped {A} (rows cols : nat) (m : list (list A)) : Prop :=
  List.length m = rows /\ Forall (fun r => List.length r = cols) m.


(** Whether every character of a string passes a test. *)
Fixpoint all_chars (p : ascii -> bool) (s : string) : bool :=
  match s with
  | EmptyString => true
  | String c s' => p c && all_chars p s'
  end.

(** A word: a string that [split()] gives back as one token. *)
Definition is_word (s : string) : bool :=
  negb (Str.is_empty s) && all_chars (fun c => negb (Str.isspace c)) s.

(** An empty string, or one that whitespace begins. *)
Definition starts_blank (s : string) : bool :=
  match s with
  | EmptyString => true
  | String c _ => Str.isspace c
  end.

(** A string without [sep]. *)
Definition free_of (sep : ascii) (s : string) : bool :=
  all_chars (fun c => negb (Ascii.eqb c sep)) s.


(** The characters of an irrep that are numbers, in the order of their
    keys. *)
Definition numbers (irr : Irrep) : list num :=
  flat_map (fun k =>
              match dict_get Z.eqb k (irr_characters irr) with
              | Some (Const n) => [n]
              | _ => []
              end) (sorted (keys (irr_characters irr))).

(** [np.abs(np.imag(ch)).max() > 1e-6] on a non-empty array. *)
Definition complex_valued (ch : list num) : bool :=
  match np_max (map (fun c => fabs (num_imag c)) ch) with
  | OK m => fgtb m (float_lit "1e-6")
  | Raise _ => false
  end.


(** [f.readlines()] on the text of a file that holds no carriage return:
    the lines, each with its newline; a last line without a newline is
    kept. *)
Fixpoint readlines_from (cur : string) (s : string) : list string :=
  match s with
  | EmptyString => if Str.is_empty cur then [] else [cur]
  | String c s' =>
      if Ascii.eqb c "010"
      then Str.snoc cur c :: readlines_from "" s'
      else readlines_from (Str.snoc cur c) s'
  end.

Definition readlines (s : string) : file := readlines_from "" s.

(** The text of a file after the writes [out], [''.join(out)]. *)
Definition file_text (out : list string) : string :=
  fold_right String.append "" out.

(** A string that ends with a word. *)
Definition ends_word (s : string) : Prop :=
  exists a w, s = (a ++ w)%string /\ is_word w = true.


(** The numbers that [Irrep.str] prints after the label and the dimension:
    the absolute values and then the phases when some character has an
    imaginary part, the real parts otherwise. *)
Definition printed_numbers (irr : Irrep) : list float64 :=
  let ch := numbers irr in
  if complex_valued ch
  then (map num_abs ch ++ map num_angle_pi ch)%list
  else map num_real ch.


(** An operation that [SymopTable.str] writes so that it can be read: of the
    shapes of an operation, every number printed as a word that parses. *)
Definition printable_op (s : SymopTable) : Prop :=
  shaped 3 3 (sym_R s) /\
  List.length (sym_t s) = 3%nat /\
  shaped 2 2 (sym_S s) /\
  Forall (fun x => is_word (str_ x) = true /\ parse_float (str_ x) <> None)
         (sym_t s ++ map num_abs (List.concat (sym_S s))
          ++ map num_angle_pi (List.concat (sym_S s)))%list.

(** An irrep that [save4user] writes so that it can be read: it gives a
    k-point, its characters are numbers under distinct keys, its label and
    the name of its k-point are words without a colon, every number printed
    for it is a word without a colon that parses, and the helper reads the
    indices of its k-point as they are printed. *)
Definition printable_irrep (irr : Irrep) : Prop :=
  eligible irr = true /\
  NoDup (keys (irr_characters irr)) /\
  Forall (fun kv => exists c, snd kv = Const c) (irr_characters irr) /\
  is_word (irr_name irr) = true /\
  free_of ":" (irr_name irr) = true /\
  Forall (fun x => is_word (str_ x) = true
                   /\ free_of ":" (str_ x) = true
                   /\ parse_float (str_ x) <> None) (printed_numbers irr) /\
  is_word (irr_kpname irr) = true /\
  free_of ":" (irr_kpname irr) = true /\
  Forall (fun x => is_word (str_float x) = true
                   /\ free_of ":" (str_float x) = true
                   /\ parse_float (str_float x) <> None) (irr_k irr) /\
  str2list_space
    (" " ++ Str.join " "
              (map Str.of_int
                   (sorted (py_set (keys (irr_characters irr))))))
  = OK (sorted (py_set (keys (irr_characters irr)))).

(** A table that [save4user] writes so that it can be read. *)
Definition printable_table (T : IrrepTable) : Prop :=
  (exists name, tab_name T = Some name /\ is_word name = true
                /\ free_of "=" name = true) /\
  str2bool (Str.of_bool (tab_spinor T)) = OK (tab_spinor T) /\
  Z.of_nat (List.length (tab_symmetries T)) = Z.max 0 (tab_nsym T) /\
  Forall printable_op (tab_symmetries T) /\
  Forall printable_irrep (tab_irreps T).

(** The irreps that [save4user] writes, in the order of their lines: for
    each name of a k-point, at its first occurrence, the irreps of that
    name. *)
Definition saved_irreps (T : IrrepTable) : list Irrep :=
  flat_map (fun name => irreps_at name (tab_irreps T))
           (distinct (map irr_kpname (filter eligible (tab_irreps T)))).

(** What the user loader keeps of an irrep that was written. *)
Definition read_back (irr irr' : Irrep) : Prop :=
  irr_name irr' = irr_name irr /\
  irr_dim irr' = irr_dim irr /\
  irr_kpname irr' = irr_kpname irr /\
  irr_nsym irr' = Z.of_nat (List.length (irr_characters irr)) /\
  irr_reality irr' = RealityBool (negb (complex_valued (numbers irr))).

(** The records of a legacy file from the lines [f] on: what
    [Irrep(f=f, nsym_group=nsym_group)] returns, one call after the other
    with one line skipped in between, up to the call that ends in an
    [IndexError]. *)
Inductive records_of (nsym_group : Z) : file -> list Irrep -> Prop :=
| records_end (f : file) :
    Irrep_init f nsym_group = Raise IndexError ->
    records_of nsym_group f []
| records_next (f f' : file) (irr : Irrep) (records : list Irrep) :
    Irrep_init f nsym_group = OK (irr, f') ->
    records_of nsym_group (snd (readline f')) records ->
    records_of nsym_group f (irr :: records).

End Views.

(* ===================================================================== *)
(** * Properties *)

Ltac inv_ok H :=
  lazymatch type of H with
  | bind ?r _ = OK _ =>
      let E := fresh "E" in
      destruct r eqn:E; cbn [bind] in H; [ | discriminate H ]
  | OK _ = OK _ => injection H as H
  | Raise _ = OK _ => discriminate H
  end.

Section Properties.
Context {NP : NumPy} {AX : Aux}.

(** ** The user loader and [save4user] *)

Lemma Irrep_init_user_hasuvw (line : string) (kp : KPoint) (irr : Irrep) :
  Irrep_init_user line kp = OK irr -> irr_hasuvw irr = None.
Proof.
  unfold Irrep_init_user. intros H.
  repeat inv_ok H. now subst irr.
Qed.

Lemma read_irreps_Forall (P : Irrep -> Prop) :
  (forall line kp irr, Irrep_init_user line kp = OK irr -> P irr) ->
  forall lines kp acc, Forall P acc -> Forall P (read_irreps kp acc lines).
Proof.
  intros HP lines. induction lines as [|line lines IH]; intros kp acc Hacc.
  - exact Hacc.
  - cbn [read_irreps].
    destruct (KPoint_of_line (Str.strip line)) as [kp'|e].
    + now apply IH.
    + destruct kp as [k_point|]; [ | now apply IH ].
      destruct (Irrep_init_user (Str.strip line) k_point) as [irr|e'] eqn:E.
      * apply IH. apply Forall_app. split; [ exact Hacc | ].
        constructor; [ now apply HP with (1 := E) | constructor ].
      * now apply IH.
Qed.

Lemma user_table_irreps (SG : Z) (spinor : bool) (lines : file) (T : IrrepTable) :
  IrrepTable_init_user SG spinor lines = OK T ->
  Forall (fun irr => irr_hasuvw irr = None) (tab_irreps T).
Proof.
  unfold IrrepTable_init_user. intros H.
  inv_ok H. destruct a as [[[name nsym] symmetries] rest].
  inv_ok H. subst T. cbn [tab_irreps].
  apply read_irreps_Forall; [ | constructor ].
  intros line kp irr. apply Irrep_init_user_hasuvw.
Qed.

(** C9. An irrep built from the user encoding has no attribute [hasuvw];
    so [save4user], on a table of the user loader that holds an irrep, ends
    in an [AttributeError], having written at most the header and the
    operations and no k-point section. *)
Theorem save4user_of_user_table_raises :
  (forall line kp irr,
      Irrep_init_user line kp = OK irr -> irr_hasuvw irr = None) /\
  (forall SG spinor lines T,
      IrrepTable_init_user SG spinor lines = OK T ->
      tab_irreps T <> [] ->
      exists out,
        save4user T = (out, Raise AttributeError) /\
        (out = [] \/
         exists h, header_text T = OK h /\ out = [h; symmetries_text T])).
Proof.
  split; [ exact Irrep_init_user_hasuvw | ].
  intros SG spinor lines T Hload Hne.
  pose proof (user_table_irreps _ _ _ _ Hload) as Hall.
  unfold save4user, header_text.
  destruct (tab_name T) as [name|]; cbn [or_raise bind].
  - destruct (tab_irreps T) as [|irr irreps]; [ congruence | ].
    inversion Hall as [|? ? Hirr _]; subst.
    cbn [foldM]. unfold add_kpoint at 1. rewrite Hirr. cbn [or_raise bind].
    eexists. split; [ reflexivity | ]. right. eexists. split; reflexivity.
  - exists []. split; [ reflexivity | now left ].
Qed.

(** ** The header of the user encoding *)

Lemma lower_char_not_S (c : ascii) : Ascii.eqb (Str.lower_char c) "S" = false.
Proof.
  destruct c as [[] [] [] [] [] [] [] []]; reflexivity.
Qed.

(** No lower-cased key is the text [SG]: the first test of the header loop
    never holds. *)
Lemma lower_not_SG (s : string) : (Str.lower s =? "SG")%string = false.
Proof.
  destruct s as [|c s]; [ reflexivity | ].
  cbn [Str.lower String.eqb]. now rewrite lower_char_not_S.
Qed.

Lemma header_line_SG (SG SG' : Z) (spinor : bool) (name : option string)
  (nsym : option Z) (line : string) :
  header_line SG spinor name nsym line = header_line SG' spinor name nsym line.
Proof.
  unfold header_line.
  destruct (index (Str.split_on "=" (Str.strip line)) 0) as [l0|e];
    cbn [bind]; [ | reflexivity ].
  now rewrite lower_not_SG.
Qed.

Lemma read_header_SG (SG SG' : Z) (spinor : bool) (lines : file) :
  forall name nsym,
    read_header SG spinor name nsym lines
    = read_header SG' spinor name nsym lines.
Proof.
  induction lines as [|line lines IH]; intros name nsym; [ reflexivity | ].
  cbn [read_header]. rewrite (header_line_SG SG SG').
  destruct (header_line SG' spinor name nsym line) as [[name' nsym'|]|e];
    cbn [bind]; [ apply IH | reflexivity | reflexivity ].
Qed.

(** The space-group number asked for plays no part in the user loader,
    apart from being stored in the table. *)
Lemma IrrepTable_init_user_SG (SG SG' : Z) (spinor : bool) (lines : file) :
  IrrepTable_init_user SG' spinor lines
  = (T <- IrrepTable_init_user SG spinor lines ;;
     OK {| tab_number := SG'; tab_name := tab_name T;
           tab_spinor := tab_spinor T; tab_nsym := tab_nsym T;
           tab_symmetries := tab_symmetries T; tab_NK := tab_NK T;
           tab_irreps := tab_irreps T |}).
Proof.
  unfold IrrepTable_init_user. rewrite (read_header_SG SG' SG).
  destruct (read_header SG spinor None None lines)
    as [[[[name nsym] symmetries] rest]|e]; reflexivity.
Qed.

(** A [spinor=] line whose flag differs from the one asked for stops the
    loader with an [AssertionError]. *)
Lemma header_line_spinor (SG : Z) (spinor b : bool) (name : option string)
  (nsym : option Z) (line l0 l1 : string) (tl : list string) :
  Str.split_on "=" (Str.strip line) = l0 :: l1 :: tl ->
  Str.lower l0 = "spinor" ->
  str2bool l1 = OK b ->
  header_line SG spinor name nsym line
  = if Bool.eqb b spinor then OK (Continue name nsym)
    else Raise AssertionError.
Proof.
  intros Hl Hk Hb. unfold header_line. rewrite Hl. cbn [index nth_error or_raise bind].
  rewrite Hk. cbn. rewrite Hb. cbn [bind].
  destruct (Bool.eqb b spinor); reflexivity.
Qed.

Lemma read_header_prefix (SG : Z) (spinor : bool) (pre lines : file) :
  forall name nsym name' nsym',
    header_prefix SG spinor name nsym pre = Some (name', nsym') ->
    read_header SG spinor name nsym (pre ++ lines)%list
    = read_header SG spinor name' nsym' lines.
Proof.
  induction pre as [|line pre IH]; intros name nsym name' nsym' H.
  - cbn in H. now injection H as -> ->.
  - cbn [header_prefix] in H. cbn [app read_header].
    destruct (header_line SG spinor name nsym line) as [[n1 n2|]|e];
      try discriminate H.
    cbn [bind]. now apply IH.
Qed.

Lemma read_symmetries_exhausted (n : Z) (lines : file) :
  forall symmetries,
    Z.of_nat (List.length symmetries
              + List.length (filter parses_as_symop lines)) < n ->
    read_symmetries n symmetries lines = Raise IndexError.
Proof.
  induction lines as [|l lines IH]; intros symmetries H.
  - cbn [read_symmetries].
    destruct (Z.ltb_spec (Z.of_nat (List.length symmetries)) n);
      [ reflexivity | cbn in H; lia ].
  - cbn [read_symmetries].
    cbn [filter] in H. unfold parses_as_symop in H at 1.
    destruct (Z.ltb_spec (Z.of_nat (List.length symmetries)) n) as [_|Hge].
    + destruct (SymopTable_init_from_user l) as [s|e].
      * apply IH. rewrite length_app. cbn [List.length] in *. lia.
      * now apply IH.
    + destruct (SymopTable_init_from_user l); cbn [List.length] in H; lia.
Qed.

(** C10. When the lines after the [symmetries] line hold fewer lines that
    parse as operations than [nsym] asks for, the user loader ends in an
    [IndexError]: the pop from the emptied list is outside the [try]. *)
Theorem user_loader_pops_empty_stack (SG : Z) (spinor : bool)
  (pre : list string) (marker : string) (rest : list string)
  (name : option string) (n : Z) :
  header_prefix SG spinor None None pre = Some (name, Some n) ->
  header_line SG spinor name (Some n) marker = OK Symmetries ->
  Z.of_nat (List.length (filter parses_as_symop rest)) < n ->
  IrrepTable_init_user SG spinor (pre ++ marker :: rest)%list
  = Raise IndexError.
Proof.
  intros Hpre Hmark Hfew. unfold IrrepTable_init_user.
  rewrite (read_header_prefix _ _ _ _ _ _ _ _ Hpre).
  cbn [read_header]. rewrite Hmark. cbn [bind or_raise].
  rewrite read_symmetries_exhausted; [ reflexivity | exact Hfew ].
Qed.

(** ** Comprehensions *)

Lemma mapM_length {A B} (f : A -> result B) (xs : list A) :
  forall ys, mapM f xs = OK ys -> List.length ys = List.length xs.
Proof.
  induction xs as [|x xs IH]; intros ys H; cbn [mapM] in H.
  - injection H as <-. reflexivity.
  - repeat inv_ok H. subst ys. cbn [List.length]. f_equal. now apply IH.
Qed.

Lemma mapM_map {A B C} (g : A -> B) (f : B -> result C) (xs : list A) :
  mapM f (map g xs) = mapM (fun x => f (g x)) xs.
Proof.
  induction xs as [|x xs IH]; [ reflexivity | ].
  cbn [map mapM]. now rewrite IH.
Qed.

Lemma mapM_ext {A B} (f g : A -> result B) (xs : list A) :
  (forall x, f x = g x) -> mapM f xs = mapM g xs.
Proof.
  intros Hfg. induction xs as [|x xs IH]; [ reflexivity | ].
  cbn [mapM]. now rewrite Hfg, IH.
Qed.

Lemma mapM_app {A B} (f : A -> result B) (xs xs' : list A) :
  mapM f (xs ++ xs')%list
  = (ys <- mapM f xs ;; ys' <- mapM f xs' ;; OK (ys ++ ys')%list).
Proof.
  induction xs as [|x xs IH]; cbn [app mapM bind].
  - destruct (mapM f xs'); reflexivity.
  - destruct (f x) as [y|e]; cbn [bind]; [ | reflexivity ].
    rewrite IH. destruct (mapM f xs) as [ys|e]; cbn [bind]; [ | reflexivity ].
    destruct (mapM f xs'); reflexivity.
Qed.

(** [{keys[i]: vals[i] for i in range(n)}], before the dict is built, is the
    list of the pairs when both lists have length [n]. *)
Lemma mapM_index_combine {K V W} (g : V -> W) (ks : list K) :
  forall vs : list V,
    List.length vs = List.length ks ->
    mapM (fun i => key <- index ks i ;; c <- index vs i ;; OK (key, g c))
         (seq 0 (List.length ks))
    = OK (combine ks (map g vs)).
Proof.
  induction ks as [|k ks IH]; intros vs Hlen.
  - reflexivity.
  - destruct vs as [|v vs]; [ discriminate Hlen | ].
    cbn [List.length seq mapM]. cbn [index nth_error or_raise bind].
    rewrite <- seq_shift, mapM_map.
    erewrite mapM_ext; [ rewrite (IH vs) | ].
    + reflexivity.
    + now injection Hlen.
    + intros i. reflexivity.
Qed.

Lemma map2_length {A B C} (f : A -> B -> C) (xs : list A) :
  forall ys, List.length ys = List.length xs ->
             List.length (map2 f xs ys) = List.length xs.
Proof.
  induction xs as [|x xs IH]; intros [|y ys] H; try discriminate H;
    [ reflexivity | ].
  cbn [map2 List.length]. f_equal. apply IH. now injection H.
Qed.

Lemma map_map2 {A B C D} (g : C -> D) (f : A -> B -> C) (xs : list A) :
  forall ys, map g (map2 f xs ys) = map2 (fun x y => g (f x y)) xs ys.
Proof.
  induction xs as [|x xs IH]; intros [|y ys]; try reflexivity.
  cbn [map2 map]. now rewrite IH.
Qed.

(** ** The user encoding of an irrep *)

(** C4, as amended. Against a k-point with [nsym] indices, a line with
    exactly [nsym] numeric fields after the dimension gives a real irrep
    whose characters are the amplitudes; a line with exactly [2 * nsym]
    fields, [nsym] not being zero, gives a non-real irrep whose character
    [i] is [amplitude_i * exp(i pi phase_i)], the amplitudes first. In both
    cases character [i] goes under the key [isym[i]], in the order of the
    k-point's indices. *)
Theorem Irrep_init_user_reality (line name dimtok : string)
  (toks : list string) (dim : Z) (k_point : KPoint) :
  Str.split line = name :: dimtok :: toks ->
  Str.to_int dimtok = Some dim ->
  (forall amps,
      List.length toks = List.length (kp_isym k_point) ->
      float_array toks = OK amps ->
      exists irr,
        Irrep_init_user line k_point = OK irr /\
        irr_reality irr = RealityBool true /\
        irr_characters irr
        = dict_of Z.eqb
            (combine (kp_isym k_point)
                     (map (fun a => Const (NFloat a)) amps))) /\
  (forall amps phases,
      List.length toks = (2 * List.length (kp_isym k_point))%nat ->
      List.length (kp_isym k_point) <> O ->
      float_array (firstn (List.length (kp_isym k_point)) toks) = OK amps ->
      float_array (skipn (List.length (kp_isym k_point)) toks) = OK phases ->
      exists irr,
        Irrep_init_user line k_point = OK irr /\
        irr_reality irr = RealityBool false /\
        irr_characters irr
        = dict_of Z.eqb
            (combine (kp_isym k_point)
                     (map2 (fun a p => Const (NComplex (cpolar a p)))
                           amps phases))).
Proof.
  intros Hsplit Hdim. set (nsym := List.length (kp_isym k_point)).
  assert (Hamps : slice 2 (2 + nsym) (name :: dimtok :: toks)
                  = firstn nsym toks).
  { unfold slice. cbn [skipn]. f_equal. lia. }
  assert (Hphases : slice (2 + nsym) (2 + 2 * nsym) (name :: dimtok :: toks)
                    = firstn nsym (skipn nsym toks)).
  { unfold slice. cbn [Nat.add skipn]. f_equal. lia. }
  split.
  - intros amps Hlen Hparse.
    unfold Irrep_init_user. rewrite Hsplit.
    cbn [index nth_error or_raise bind]. rewrite Hdim. cbn [or_raise bind].
    fold nsym. rewrite Hamps. cbn [skipn]. rewrite Hlen. fold nsym.
    rewrite Nat.eqb_refl. cbn [negb].
    rewrite (firstn_all2 toks) by lia. rewrite Hparse. cbn [bind].
    subst nsym.
    rewrite (mapM_index_combine (fun c => Const c)).
    + cbn [bind]. eexists. split; [ reflexivity | ].
      cbn [irr_reality irr_characters]. split; [ reflexivity | ].
      now rewrite map_map.
    + rewrite length_map. rewrite (mapM_length _ _ _ Hparse). exact Hlen.
  - intros amps phases Hlen Hnz Ha Hp. fold nsym in Hlen, Hnz, Ha, Hp.
    assert (Hla : List.length amps = nsym).
    { rewrite (mapM_length _ _ _ Ha), length_firstn. lia. }
    assert (Hlp : List.length phases = nsym).
    { rewrite (mapM_length _ _ _ Hp), length_skipn. lia. }
    unfold Irrep_init_user. rewrite Hsplit.
    cbn [index nth_error or_raise bind]. rewrite Hdim. cbn [or_raise bind].
    fold nsym. rewrite Hamps, Hphases. cbn [skipn]. rewrite Hlen.
    replace (Nat.eqb (2 * nsym) nsym) with false
      by (symmetry; apply Nat.eqb_neq; lia).
    cbn [negb]. rewrite Ha. cbn [bind].
    replace (firstn nsym (skipn nsym toks)) with (skipn nsym toks)
      by (symmetry; apply firstn_all2; rewrite length_skipn; lia).
    rewrite Hp. cbn [bind]. unfold polar_array, broadcast2.
    rewrite Hla, Hlp, Nat.eqb_refl. cbn [bind].
    subst nsym.
    rewrite (mapM_index_combine (fun c => Const c)).
    + cbn [bind]. eexists. split; [ reflexivity | ].
      cbn [irr_reality irr_characters]. split; [ reflexivity | ].
      now rewrite !map_map2.
    + rewrite length_map, map2_length; lia.
Qed.

(** ** Dicts *)

Section DictFacts.
Context {K V : Type} (eqb : K -> K -> bool).
Hypothesis eqb_spec : forall x y, reflect (x = y) (eqb x y).

Lemma dict_set_new (k : K) (v : V) (d : list (K * V)) :
  ~ In k (keys d) -> dict_set eqb k v d = (d ++ [(k, v)])%list.
Proof.
  induction d as [|[k' v'] d IH]; intros Hk; [ reflexivity | ].
  cbn [dict_set app]. cbn [keys map fst In] in Hk.
  destruct (eqb_spec k k') as [->|_]; [ tauto | ].
  rewrite IH; [ reflexivity | ]. unfold keys. tauto.
Qed.

Lemma dict_get_None (k : K) (d : list (K * V)) :
  dict_get eqb k d = None <-> ~ In k (keys d).
Proof.
  induction d as [|[k' v'] d IH]; [ cbn; tauto | ].
  cbn [dict_get keys map fst In].
  destruct (eqb_spec k k') as [->|Hne].
  - split; [ discriminate | tauto ].
  - unfold keys in IH. rewrite IH. split; [ | tauto ].
    intros H [Heq|Hin]; [ now apply Hne | now apply H ].
Qed.

Lemma dict_get_In (k : K) (v : V) (d : list (K * V)) :
  dict_get eqb k d = Some v -> In (k, v) d.
Proof.
  induction d as [|[k' v'] d IH]; [ discriminate | ].
  cbn [dict_get In]. destruct (eqb_spec k k') as [->|_].
  - intros H. injection H as ->. now left.
  - intros H. right. now apply IH.
Qed.

Lemma dict_get_app (k : K) (d d' : list (K * V)) :
  dict_get eqb k (d ++ d')%list
  = match dict_get eqb k d with
    | Some v => Some v
    | None => dict_get eqb k d'
    end.
Proof.
  induction d as [|[k' v'] d IH]; [ reflexivity | ].
  cbn [app dict_get]. now destruct (eqb k k').
Qed.
End DictFacts.

Lemma dict_set_fresh {V} (k : Z) (v : V) (d : list (Z * V)) :
  ~ In k (keys d) -> dict_set Z.eqb k v d = (d ++ [(k, v)])%list.
Proof. apply dict_set_new. exact Z.eqb_spec. Qed.

(** Filling a dict with pairs of distinct new keys lays them out in
    order. *)
Lemma fold_dict_set_fresh {A V} (g : A -> V) (kvs : list (Z * A)) :
  forall d : list (Z * V),
    NoDup (keys d ++ keys kvs) ->
    fold_left (fun d kv => dict_set Z.eqb (fst kv) (g (snd kv)) d) kvs d
    = (d ++ map (fun kv => (fst kv, g (snd kv))) kvs)%list.
Proof.
  induction kvs as [|[k a] kvs IH]; intros d Hnd.
  - cbn. now rewrite app_nil_r.
  - cbn [fold_left fst snd map]. cbn [keys map fst] in Hnd.
    rewrite dict_set_fresh.
    + rewrite IH.
      * now rewrite <- app_assoc.
      * unfold keys in *. rewrite map_app, <- app_assoc. exact Hnd.
    + apply NoDup_remove_2 in Hnd. intros Hin. apply Hnd.
      apply in_or_app. now left.
Qed.

Lemma dict_of_NoDup {V} (kvs : list (Z * V)) :
  NoDup (keys kvs) -> dict_of Z.eqb kvs = kvs.
Proof.
  intros Hnd. unfold dict_of.
  rewrite (fold_dict_set_fresh (fun v => v) kvs []); [ | exact Hnd ].
  cbn [app]. rewrite <- (map_id kvs) at 2.
  apply map_ext. now intros [k v].
Qed.

Lemma range_NoDup (a : Z) (n : nat) : NoDup (range a n).
Proof.
  unfold range. apply Finite.Injective_map_NoDup; [ | apply seq_NoDup ].
  intros i j H. lia.
Qed.

(** ** The machine encoding of an irrep *)

Lemma read_slots_lines_keys (dim : Z) (isyms : list Z) :
  forall f slots f',
    read_slots_lines dim isyms f = OK (slots, f') -> map fst slots = isyms.
Proof.
  induction isyms as [|isym isyms IH]; intros f slots f' H;
    cbn [read_slots_lines] in H.
  - injection H as <- _. reflexivity.
  - inv_ok H. destruct a as [slot f1]. inv_ok H. destruct a as [slots' f2].
    injection H as <- _. cbn [map fst]. f_equal. now apply IH with (1 := E0).
Qed.

(** The slot loop, seen through what it reads: the characters are set for
    the retained slots, in order, and the flag is raised when some entry is
    parameterized. *)
Lemma foldM_read_slot (dim nsym_group : Z) (isyms : list Z) :
  forall characters hasuvw f,
    foldM (read_slot dim nsym_group) isyms (characters, hasuvw, f)
    = ('(slots, f') <- read_slots_lines dim isyms f ;;
       OK (fold_left
             (fun d kv => dict_set Z.eqb (fst kv) (CharFunction (snd kv)) d)
             (retained nsym_group slots) characters,
           hasuvw || parameterized slots, f')).
Proof.
  induction isyms as [|isym isyms IH]; intros characters hasuvw f.
  - cbn. now rewrite orb_false_r.
  - cbn [foldM read_slots_lines]. unfold read_slot at 1.
    destruct (read_slot_lines dim isym f) as [[slot f1]|e]; cbn [bind];
      [ | reflexivity ].
    destruct slot as [[abcde flags]|]; cbn [bind]; rewrite IH;
      destruct (read_slots_lines dim isyms f1) as [[slots f2]|e];
      cbn [bind]; try reflexivity.
    unfold retained, parameterized. cbn [flat_map existsb fst snd].
    rewrite fold_left_app.
    destruct (2 * isym <=? nsym_group), (existsb id flags), hasuvw;
      reflexivity.
Qed.

Lemma retained_keys_incl (nsym_group : Z)
  (slots : list (Z * option (list (list float64) * list bool))) (k : Z) :
  In k (keys (retained nsym_group slots)) -> In k (map fst slots).
Proof.
  induction slots as [|[isym slot] slots IH]; [ easy | ].
  unfold retained, keys in *. cbn [flat_map fst snd map].
  rewrite map_app, in_app_iff. intros [H|H]; [ | right; now apply IH ].
  destruct slot as [[abcde flags]|]; [ | easy ].
  destruct (2 * isym <=? nsym_group); [ | easy ].
  cbn in H. left. tauto.
Qed.

Lemma retained_NoDup (nsym_group : Z)
  (slots : list (Z * option (list (list float64) * list bool))) :
  NoDup (map fst slots) -> NoDup (keys (retained nsym_group slots)).
Proof.
  induction slots as [|[isym slot] slots IH]; intros Hnd.
  - constructor.
  - cbn [map fst] in Hnd. inversion Hnd as [|? ? Hnotin Hnd']; subst.
    unfold retained, keys in *. cbn [flat_map fst snd].
    destruct slot as [[abcde flags]|]; [ | now apply IH ].
    destruct (2 * isym <=? nsym_group); [ | now apply IH ].
    cbn [app map fst]. constructor; [ | now apply IH ].
    intros Hin. apply Hnotin. now apply retained_keys_incl with (1 := Hin).
Qed.

Lemma CharFunction_call0_raises (abcde : list (list float64)) (e : exn) :
  CharFunction_call0 abcde = Raise e -> e = IndexError.
Proof.
  unfold CharFunction_call0, CharFunction_call.
  destruct (mapM _ abcde) as [terms|e'] eqn:E; cbn [bind]; [ discriminate | ].
  intros H. injection H as <-.
  revert e' E. induction abcde as [|aaa abcde IH]; intros e' E;
    cbn [mapM] in E; [ discriminate E | ].
  destruct aaa as [|a0 rest]; cbn [bind] in E; [ now injection E | ].
  destruct (mapM _ abcde) as [ts|e''] eqn:E'; cbn [bind] in E;
    [ discriminate E | ].
  injection E as <-. now apply IH.
Qed.

Lemma reduce_mapM (kvs : list (Z * list (list float64))) :
  forall zs,
    mapM (fun kv : Z * character =>
            match snd kv with
            | CharFunction abcde =>
                z <- CharFunction_call0 abcde ;;
                OK (fst kv, Const (NComplex z))
            | Const _ => Raise TypeError
            end) (callables kvs) = OK zs ->
    Forall2 (fun kv c =>
               exists z, CharFunction_call0 (snd kv) = OK z /\
                         c = (fst kv, Const (NComplex z))) kvs zs.
Proof.
  induction kvs as [|[k abcde] kvs IH]; intros zs H;
    cbn [callables map mapM fst snd] in H.
  - injection H as <-. constructor.
  - repeat inv_ok H. subst zs. constructor; [ | apply IH; exact E0 ].
    repeat inv_ok E. subst a. cbn [fst snd].
    eexists. split; [ eassumption | reflexivity ].
Qed.

(** Calling the retained [CharFunction]s keeps the keys and their order. *)
Lemma reduce_characters_callables (kvs : list (Z * list (list float64)))
  (chars : list (Z * character)) :
  NoDup (keys kvs) ->
  reduce_characters (callables kvs) = OK chars ->
  Forall2 (fun kv c =>
             exists z, CharFunction_call0 (snd kv) = OK z /\
                       c = (fst kv, Const (NComplex z))) kvs chars.
Proof.
  intros Hnd. unfold reduce_characters. intros H. inv_ok H.
  injection H as <-. pose proof (reduce_mapM _ _ E) as HF.
  rewrite dict_of_NoDup; [ exact HF | ].
  replace (keys a) with (keys kvs); [ exact Hnd | ].
  clear -HF. unfold keys.
  induction HF as [|kv c kvs zs (z & _ & ->) _ IH]; [ reflexivity | ].
  cbn [map fst]. now rewrite IH.
Qed.

Lemma reduce_characters_raises (kvs : list (Z * list (list float64)))
  (e : exn) :
  reduce_characters (callables kvs) = Raise e -> e = IndexError.
Proof.
  unfold reduce_characters.
  destruct (mapM _ (callables kvs)) as [zs|e'] eqn:E; cbn [bind];
    [ discriminate | ].
  intros H. injection H as <-.
  revert e' E. induction kvs as [|[k abcde] kvs IH]; intros e' E;
    cbn [callables map mapM fst snd] in E; [ discriminate E | ].
  destruct (CharFunction_call0 abcde) as [z|e''] eqn:Ez; cbn [bind] in E.
  - destruct (mapM _ (map _ kvs)) as [zs|e''] eqn:E'; cbn [bind] in E;
      [ discriminate E | ].
    injection E as <-. now apply IH.
  - injection E as <-. now apply CharFunction_call0_raises with (1 := Ez).
Qed.

(** The constructor, once the first line and the slots are read. *)
Lemma Irrep_init_unfold (f : file) (nsym_group : Z) (h : irrep_head)
  (f1 : file) (slots : list (Z * option (list (list float64) * list bool)))
  (f2 : file) :
  read_irrep_head f = OK (h, f1) ->
  read_slots_lines (hd_dim h) (range 1 (Z.to_nat nsym_group)) f1
  = OK (slots, f2) ->
  NoDup (keys (retained nsym_group slots)) /\
  Irrep_init f nsym_group
  = (characters <- (if negb (parameterized slots)
                    then reduce_characters
                           (callables (retained nsym_group slots))
                    else OK (callables (retained nsym_group slots))) ;;
     _ <- py_assert (Z.of_nat (List.length characters)
                     =? Z.quot (hd_count h) 2) ;;
     OK ({| irr_k := hd_k h; irr_kpname := hd_kpname h;
            irr_has_rkmk := hd_has_rkmk h; irr_name := hd_name h;
            irr_dim := hd_dim h; irr_nsym := Z.quot (hd_count h) 2;
            irr_reality := RealityInt (hd_reality h);
            irr_characters := characters;
            irr_hasuvw := Some (parameterized slots) |}, f2)).
Proof.
  intros Hh Hs.
  assert (Hnd : NoDup (keys (retained nsym_group slots))).
  { apply retained_NoDup. rewrite (read_slots_lines_keys _ _ _ _ _ Hs).
    apply range_NoDup. }
  split; [ exact Hnd | ].
  unfold Irrep_init. rewrite Hh. cbn [bind].
  rewrite foldM_read_slot, Hs. cbn [bind orb].
  rewrite (fold_dict_set_fresh CharFunction); [ | exact Hnd ].
  reflexivity.
Qed.

(** A record that the constructor accepts has a first line and slots that
    read without an exception. *)
Lemma Irrep_init_reads (f : file) (nsym_group : Z) (irr : Irrep) (f' : file) :
  Irrep_init f nsym_group = OK (irr, f') ->
  exists h f1 slots,
    read_irrep_head f = OK (h, f1) /\
    read_slots_lines (hd_dim h) (range 1 (Z.to_nat nsym_group)) f1
    = OK (slots, f').
Proof.
  intros H. pose proof H as H0. unfold Irrep_init in H.
  inv_ok H. destruct a as [h f1].
  rewrite foldM_read_slot in H.
  destruct (read_slots_lines (hd_dim h) (range 1 (Z.to_nat nsym_group)) f1)
    as [[slots f2]|e] eqn:Es; [ | discriminate H ].
  exists h, f1, slots. split; [ reflexivity | ].
  destruct (Irrep_init_unfold _ _ _ _ _ _ E Es) as [_ Hu].
  rewrite Hu in H0. repeat inv_ok H0. now subst f'.
Qed.

Lemma py_assert_ok (b : bool) (u : unit) : py_assert b = OK u -> b = true.
Proof. now destruct b. Qed.

Lemma reduced_keys (kvs : list (Z * list (list float64)))
  (chars : list (Z * character)) :
  Forall2 (fun kv c =>
             exists z, CharFunction_call0 (snd kv) = OK z /\
                       c = (fst kv, Const (NComplex z))) kvs chars ->
  keys chars = keys kvs /\ List.length chars = List.length kvs.
Proof.
  intros HF. unfold keys.
  induction HF as [|kv c kvs zs (z & _ & ->) _ [IH1 IH2]];
    [ split; reflexivity | ].
  cbn [map fst List.length]. now rewrite IH1, IH2.
Qed.

Lemma callables_keys (kvs : list (Z * list (list float64))) :
  keys (callables kvs) = keys kvs /\
  List.length (callables kvs) = List.length kvs.
Proof.
  unfold keys, callables. rewrite map_map, length_map. split; reflexivity.
Qed.

(** C6. An irrep that the machine constructor accepts holds as many
    characters as its [nsym], the half of the count its first line declares,
    one for each retained slot; and when the first line and the slots read
    without an exception and the retained slots are as many as that half,
    the assertion that ends the constructor does not fail. *)
Theorem Irrep_init_slot_count (f : file) (nsym_group : Z) :
  (forall irr f',
      Irrep_init f nsym_group = OK (irr, f') ->
      Z.of_nat (List.length (irr_characters irr)) = irr_nsym irr /\
      exists h f1 slots,
        read_irrep_head f = OK (h, f1) /\
        read_slots_lines (hd_dim h) (range 1 (Z.to_nat nsym_group)) f1
        = OK (slots, f') /\
        irr_nsym irr = Z.quot (hd_count h) 2 /\
        keys (irr_characters irr) = keys (retained nsym_group slots)) /\
  (forall h f1 slots f2,
      read_irrep_head f = OK (h, f1) ->
      read_slots_lines (hd_dim h) (range 1 (Z.to_nat nsym_group)) f1
      = OK (slots, f2) ->
      Z.of_nat (List.length (retained nsym_group slots))
      = Z.quot (hd_count h) 2 ->
      Irrep_init f nsym_group <> Raise AssertionError).
Proof.
  split.
  - intros irr f' H.
    destruct (Irrep_init_reads _ _ _ _ H) as (h & f1 & slots & Hh & Hs).
    destruct (Irrep_init_unfold _ _ _ _ _ _ Hh Hs) as [Hnd Hu].
    rewrite Hu in H. clear Hu.
    inv_ok H. inv_ok H. injection H as <-.
    cbn [irr_characters irr_nsym].
    apply py_assert_ok, Z.eqb_eq in E0. split; [ exact E0 | ].
    exists h, f1, slots. repeat split; try assumption.
    destruct (parameterized slots); cbn [negb] in E.
    + injection E as <-. apply callables_keys.
    + now apply reduced_keys, reduce_characters_callables.
  - intros h f1 slots f2 Hh Hs Hcount.
    destruct (Irrep_init_unfold _ _ _ _ _ _ Hh Hs) as [Hnd Hu].
    rewrite Hu. clear Hu.
    destruct (parameterized slots); cbn [negb bind].
    + destruct (callables_keys (retained nsym_group slots)) as [_ ->].
      rewrite Hcount, Z.eqb_refl. discriminate.
    + destruct (reduce_characters (callables (retained nsym_group slots)))
        as [chars|e] eqn:E; cbn [bind].
      * apply reduce_characters_callables in E; [ | exact Hnd ].
        destruct (reduced_keys _ _ E) as [_ ->].
        rewrite Hcount, Z.eqb_refl. discriminate.
      * apply reduce_characters_raises in E. subst e. discriminate.
Qed.

(** *** The record, read from its lines *)

Lemma int_array_tokens (toks : list string) :
  forall zs, map Str.to_int toks = map Some zs -> int_array toks = OK zs.
Proof.
  unfold int_array.
  induction toks as [|t toks IH]; intros [|z zs] H; try discriminate H;
    [ reflexivity | ].
  cbn [map] in H. injection H as Hz Hrest.
  cbn [mapM]. rewrite Hz. cbn [or_raise bind]. now rewrite (IH _ Hrest).
Qed.

(** One row of the matrix of a slot: of its entries, that of column [i] is
    looked at. *)
Lemma read_row_entries (i : nat) (row : list (string * string)) :
  forall j0 acc flags rest,
    foldM (read_entry i) (seq j0 (List.length row))
          (acc, flags,
           (flat_map (fun e => [fst e; snd e]) row ++ rest)%list : file)
    = match (if Nat.leb j0 i then nth_error row (i - j0) else None) with
      | Some e =>
          rf <- read_diagonal_entry e ;;
          OK ((acc ++ [fst rf])%list, (flags ++ [snd rf])%list, rest)
      | None => OK (acc, flags, rest)
      end.
Proof.
  induction row as [|e row IH]; intros j0 acc flags rest.
  - cbn [List.length seq foldM flat_map app].
    destruct (Nat.leb j0 i); [ | reflexivity ].
    now destruct (i - j0)%nat.
  - cbn [List.length seq foldM flat_map app]. unfold read_entry at 1.
    cbn [readline].
    destruct (Nat.eqb_spec i j0) as [->|Hne]; cbn [negb].
    + rewrite Nat.leb_refl, Nat.sub_diag. cbn [nth_error].
      unfold read_diagonal_entry.
      destruct (Str.strip (fst e) =? "1")%string; cbn [bind].
      * destruct (float_array (Str.split (snd e))) as [r|x]; cbn [bind fst snd];
          [ | reflexivity ].
        rewrite IH.
        replace (Nat.leb (S j0) j0) with false
          by (symmetry; apply Nat.leb_gt; lia).
        reflexivity.
      * destruct (Str.strip (fst e) =? "2")%string; cbn [bind];
          [ | reflexivity ].
        destruct (float_array (Str.split (snd e))) as [r|x]; cbn [bind fst snd];
          [ | reflexivity ].
        rewrite IH.
        replace (Nat.leb (S j0) j0) with false
          by (symmetry; apply Nat.leb_gt; lia).
        reflexivity.
    + cbn [bind]. rewrite IH.
      destruct (Nat.leb_spec j0 i) as [Hle|Hgt].
      * replace (Nat.leb (S j0) i) with true
          by (symmetry; apply Nat.leb_le; lia).
        replace (i - j0)%nat with (S (i - S j0)) by lia.
        reflexivity.
      * replace (Nat.leb (S j0) i) with false
          by (symmetry; apply Nat.leb_gt; lia).
        reflexivity.
Qed.

(** The matrix of a slot: the rows and the flags of its diagonal are added
    to those read so far. *)
Lemma read_matrix_entries (d : nat) (m : list (list (string * string))) :
  Forall (fun r => List.length r = d) m ->
  forall i0 acc flags rest,
    foldM (fun i => foldM (read_entry i) (seq 0 d)) (seq i0 (List.length m))
          (acc, flags,
           (flat_map (flat_map (fun e => [fst e; snd e])) m ++ rest)%list
           : file)
    = (rf <- mapM read_diagonal_entry (diagonal_from i0 m) ;;
       OK ((acc ++ map fst rf)%list, (flags ++ map snd rf)%list, rest)).
Proof.
  induction 1 as [|row m Hrow _ IH]; intros i0 acc flags rest.
  - cbn. now rewrite !app_nil_r.
  - cbn [List.length seq foldM flat_map diagonal_from].
    rewrite <- app_assoc. rewrite <- Hrow at 1.
    rewrite read_row_entries. cbn [Nat.leb]. rewrite Nat.sub_0_r.
    destruct (nth_error row i0) as [e|]; cbn [bind].
    + cbn [mapM].
      destruct (read_diagonal_entry e) as [[r fl]|x]; cbn [bind fst snd];
        [ | reflexivity ].
      rewrite IH.
      destruct (mapM read_diagonal_entry (diagonal_from (S i0) m))
        as [rf|x]; cbn [bind map fst snd]; [ | reflexivity ].
      now rewrite <- !app_assoc.
    + apply IH.
Qed.

(** A slot that is laid out in full, read by the constructor. *)
Lemma read_slot_lines_block (dim isym : Z) (b : slot_block) (rest : file) :
  slot_laid_out dim isym b ->
  read_slot_lines dim isym (block_lines b ++ rest)%list
  = (slot <- read_block b ;; OK (slot, rest)).
Proof.
  destruct b as [l|l entries]; cbn [slot_laid_out block_lines read_block].
  - intros Hl. unfold read_slot_lines. cbn [app readline].
    rewrite (int_array_tokens _ [isym; 0] Hl). cbn [bind].
    now rewrite Z.eqb_refl.
  - intros [Hl [Hlen Hrows]]. unfold read_slot_lines. cbn [app readline].
    rewrite (int_array_tokens _ [isym; 1] Hl). cbn [bind].
    rewrite Z.eqb_refl. cbn [py_assert bind Z.eqb Pos.eqb negb].
    pose proof (read_matrix_entries _ _ Hrows 0%nat [] [] rest) as Hm.
    rewrite Hlen in Hm. rewrite Hm. cbn [app].
    destruct (mapM read_diagonal_entry (diagonal_from 0 entries)) as [rf|x];
      reflexivity.
Qed.

(** The rows and the flags taken from the diagonal. *)
Lemma read_diagonal_entries_spec (es : list (string * string)) :
  forall rf,
    mapM read_diagonal_entry es = OK rf ->
    mapM (fun e => float_array (Str.split (snd e))) es = OK (map fst rf) /\
    existsb id (map snd rf)
    = existsb (fun e => (Str.strip (fst e) =? "2")%string) es.
Proof.
  induction es as [|e es IH]; intros rf H; cbn [mapM] in H.
  - injection H as <-. split; reflexivity.
  - inv_ok H. inv_ok H. injection H as <-.
    destruct (IH _ eq_refl) as [IH1 IH2].
    unfold read_diagonal_entry in E. inv_ok E. inv_ok E. injection E as <-.
    cbn [mapM map fst snd existsb]. rewrite E2, IH1, IH2. cbn [bind].
    split; [ reflexivity | ]. f_equal.
    destruct (String.eqb_spec (Str.strip (fst e)) "1") as [H1|_].
    + injection E1 as <-. now rewrite H1.
    + destruct (Str.strip (fst e) =? "2")%string; [ | discriminate E1 ].
      now injection E1 as <-.
Qed.

(** The slots of a record that is laid out in full: what follows them is
    left, some entry is parameterized exactly when some flag line of a
    diagonal is [2], and the retained slots are those that give a character,
    with the rows of their diagonals. *)
Lemma read_slots_lines_blocks (dim nsym_group : Z) (isyms : list Z)
  (blocks : list slot_block) :
  Forall2 (slot_laid_out dim) isyms blocks ->
  forall rest slots f',
    read_slots_lines dim isyms (flat_map block_lines blocks ++ rest)%list
    = OK (slots, f') ->
    f' = rest /\
    parameterized slots = existsb block_flagged blocks /\
    Forall2 (fun ib kv => fst kv = fst ib /\ block_rows (snd ib) = OK (snd kv))
            (filter (gives_character nsym_group) (combine isyms blocks))
            (retained nsym_group slots).
Proof.
  induction 1 as [|isym b isyms blocks Hb _ IH]; intros rest slots f' H.
  - cbn in H. injection H as <- <-. repeat split. constructor.
  - cbn [flat_map read_slots_lines] in H. rewrite <- app_assoc in H.
    rewrite (read_slot_lines_block _ _ _ _ Hb) in H.
    destruct (read_block b) as [slot|x] eqn:Eb; cbn [bind] in H;
      [ | discriminate H ].
    inv_ok H. destruct a as [slots' f2]. injection H as <- <-.
    destruct (IH _ _ _ E) as (-> & Hpar & Hrows).
    split; [ reflexivity | ].
    unfold parameterized, retained in *.
    cbn [existsb flat_map combine filter fst snd].
    rewrite Hpar.
    destruct b as [l|l entries]; cbn [read_block] in Eb.
    + injection Eb as <-. cbn [gives_character snd block_flagged
                               block_diagonal existsb app orb].
      split; [ reflexivity | exact Hrows ].
    + inv_ok Eb. injection Eb as <-.
      destruct (read_diagonal_entries_spec _ _ E0) as [Hr Hf].
      unfold block_flagged at 1. cbn [block_diagonal]. rewrite Hf.
      split; [ reflexivity | ].
      cbn [gives_character snd fst].
      destruct (2 * isym <=? nsym_group); [ | exact Hrows ].
      cbn [app]. constructor; [ | exact Hrows ].
      cbn [fst snd]. split; [ reflexivity | exact Hr ].
Qed.

(** The first line of a record gives its dimension: the sixth token. *)
Lemma read_irrep_head_dim (l : string) (f : file) (h : irrep_head)
  (f1 : file) (dimtok : string) (dim : Z) :
  nth_error (Str.split l) 5 = Some dimtok ->
  Str.to_int dimtok = Some dim ->
  read_irrep_head (l :: f) = OK (h, f1) ->
  f1 = f /\ hd_dim h = dim.
Proof.
  intros Htok Hdim H. unfold read_irrep_head in H. cbn [readline] in H.
  unfold index in H. rewrite Htok in H. cbn [or_raise bind] in H.
  rewrite Hdim in H. cbn [or_raise bind] in H.
  repeat inv_ok H. subst h f1. split; reflexivity.
Qed.

(** The value of a call with [u = v = w = 0], when the exponent of each row
    comes to its [a1]. *)
Lemma CharFunction_call0_rows (abcde : list (list float64)) (z : complex128) :
  CharFunction_call0 abcde = OK z ->
  Forall (fun aaa => exponent_at_zero aaa = nth 1 aaa (float_of_int 0))
         abcde ->
  z = constant_of abcde.
Proof.
  unfold CharFunction_call0, CharFunction_call, constant_of.
  intros H Hrows. inv_ok H. injection H as <-. f_equal.
  revert a E. induction Hrows as [|aaa abcde Haaa _ IH]; intros terms E;
    cbn [mapM] in E.
  - injection E as <-. reflexivity.
  - destruct aaa as [|a0 rest]; [ discriminate E | ].
    cbn [bind] in E. inv_ok E. injection E as <-.
    cbn [map nth]. f_equal; [ | now apply IH ].
    f_equal. exact Haaa.
Qed.

(** C7, as amended. A machine record that lies in the file in full, slot
    after slot, and that the constructor accepts. [hasuvw] tells whether the
    flag line of some diagonal entry of some present slot is [2]. The
    characters are those of the present slots of the first half, each under
    the index of its slot, made from the rows on the diagonal of the slot.
    When no flag line is [2], each is the complex constant that the call of
    its [CharFunction] with [u = v = w = 0] returns; that constant is the
    sum over the rows of [coefficient * exp(i pi a1)] when, in each row, the
    exponent [0 + a1 * 1 + a2 * 0 + a3 * 0 + a4 * 0] comes to [a1]. When
    some flag line is [2], each is still the [CharFunction] of its rows. *)
Theorem Irrep_init_reduction (hl dimtok : string) (dim nsym_group : Z)
  (blocks : list slot_block) (rest f' : file) (irr : Irrep) :
  nth_error (Str.split hl) 5 = Some dimtok ->
  Str.to_int dimtok = Some dim ->
  Forall2 (slot_laid_out dim) (range 1 (Z.to_nat nsym_group)) blocks ->
  Irrep_init (hl :: flat_map block_lines blocks ++ rest)%list nsym_group
  = OK (irr, f') ->
  f' = rest /\
  irr_hasuvw irr = Some (existsb block_flagged blocks) /\
  exists rows : list (Z * list (list float64)),
    Forall2 (fun ib kv => fst kv = fst ib /\ block_rows (snd ib) = OK (snd kv))
            (kept_blocks nsym_group blocks) rows /\
    if existsb block_flagged blocks
    then irr_characters irr
         = map (fun kv => (fst kv, CharFunction (snd kv))) rows
    else Forall2 (fun kv c =>
                    exists z,
                      CharFunction_call0 (snd kv) = OK z /\
                      c = (fst kv, Const (NComplex z)) /\
                      (Forall (fun aaa => exponent_at_zero aaa
                                          = nth 1 aaa (float_of_int 0))
                              (snd kv) ->
                       z = constant_of (snd kv)))
                 rows (irr_characters irr).
Proof.
  intros Htok Hdim Hlay H.
  destruct (Irrep_init_reads _ _ _ _ H) as (h & f1 & slots & Hh & Hs).
  destruct (read_irrep_head_dim _ _ _ _ _ _ Htok Hdim Hh) as [-> Hd].
  rewrite Hd in Hs.
  destruct (read_slots_lines_blocks dim nsym_group _ _ Hlay _ _ _ Hs)
    as (-> & Hpar & Hrows).
  split; [ reflexivity | ].
  pose proof Hs as Hs'. rewrite <- Hd in Hs'.
  destruct (Irrep_init_unfold _ _ _ _ _ _ Hh Hs') as [Hnd Hu].
  rewrite Hu in H. clear Hu.
  inv_ok H. inv_ok H. injection H as <-.
  cbn [irr_characters irr_hasuvw]. rewrite <- Hpar.
  split; [ reflexivity | ].
  exists (retained nsym_group slots). split; [ exact Hrows | ].
  destruct (parameterized slots); cbn [negb] in E.
  - now injection E as <-.
  - apply reduce_characters_callables in E; [ | exact Hnd ].
    clear -E.
    induction E as [|kv c kvs zs (z & Hz & ->) _ IH]; constructor;
      [ | exact IH ].
    exists z. split; [ exact Hz | ]. split; [ reflexivity | ].
    now apply CharFunction_call0_rows.
Qed.

(** ** The legacy loader *)

Lemma readline_length (f : file) :
  (List.length (snd (readline f)) <= List.length f)%nat.
Proof. destruct f; cbn; lia. Qed.

Lemma foldM_length {A S} (body : A -> S -> result S) (len : S -> nat)
  (xs : list A) :
  (forall x s s', body x s = OK s' -> (len s' <= len s)%nat) ->
  forall s s', foldM body xs s = OK s' -> (len s' <= len s)%nat.
Proof.
  intros Hbody. induction xs as [|x xs IH]; intros s s' H; cbn [foldM] in H.
  - injection H as <-. lia.
  - inv_ok H. apply Hbody in E. apply IH in H. lia.
Qed.

Lemma read_entry_length (i j : nat)
  (st st' : list (list float64) * list bool * file) :
  read_entry i j st = OK st' ->
  (List.length (snd st') <= List.length (snd st))%nat.
Proof.
  destruct st as [[abcde hasuvw] f]. unfold read_entry.
  pose proof (readline_length f) as H1.
  destruct (readline f) as [l1 f1].
  pose proof (readline_length f1) as H2.
  destruct (readline f1) as [l2 f2]. cbn [snd] in *.
  destruct (negb (Nat.eqb i j)).
  - intros H. injection H as <-. cbn [snd]. lia.
  - intros H. repeat inv_ok H. subst st'. cbn [snd]. lia.
Qed.

Lemma read_slot_lines_length (dim isym : Z) (f : file)
  (slot : option (list (list float64) * list bool)) (f' : file) :
  read_slot_lines dim isym f = OK (slot, f') ->
  (List.length f' <= List.length f)%nat.
Proof.
  unfold read_slot_lines. pose proof (readline_length f) as H1.
  destruct (readline f) as [l f1]. cbn [snd] in H1.
  intros H. inv_ok H.
  destruct a as [|ism [|issym [|? ?]]]; try discriminate H.
  inv_ok H. destruct (issym =? 0); [ injection H as _ <-; lia | ].
  destruct (negb (issym =? 1)); [ discriminate H | ].
  inv_ok H. destruct a0 as [[abcde hasuvw] f2]. injection H as _ <-.
  apply (foldM_length _ (fun st => List.length (snd st))) in E1;
    [ cbn [snd] in E1; lia | ].
  intros i s s'.
  apply (foldM_length _ (fun st => List.length (snd st))).
  intros j. apply read_entry_length.
Qed.

Lemma read_slots_lines_length (dim : Z) (isyms : list Z) :
  forall f slots f',
    read_slots_lines dim isyms f = OK (slots, f') ->
    (List.length f' <= List.length f)%nat.
Proof.
  induction isyms as [|isym isyms IH]; intros f slots f' H;
    cbn [read_slots_lines] in H.
  - injection H as _ <-. lia.
  - inv_ok H. destruct a as [slot f1]. inv_ok H. destruct a as [slots' f2].
    injection H as _ <-.
    apply read_slot_lines_length in E. apply IH in E0. lia.
Qed.

Lemma read_irrep_head_length (f : file) (h : irrep_head) (f1 : file) :
  read_irrep_head f = OK (h, f1) -> (List.length f1 < List.length f)%nat.
Proof.
  destruct f as [|l f]; [ discriminate | ].
  unfold read_irrep_head. cbn [readline]. intros H.
  repeat inv_ok H. subst f1. cbn [List.length]. lia.
Qed.

(** Every record that is read shortens the file. *)
Lemma Irrep_init_length (f : file) (nsym_group : Z) (irr : Irrep) (f' : file) :
  Irrep_init f nsym_group = OK (irr, f') ->
  (List.length f' < List.length f)%nat.
Proof.
  intros H.
  destruct (Irrep_init_reads _ _ _ _ H) as (h & f1 & slots & Hh & Hs).
  apply read_irrep_head_length in Hh. apply read_slots_lines_length in Hs.
  lia.
Qed.

(** The scan of the records does not run out of fuel when there is more fuel
    than lines. *)
Lemma scan_irreps_total (nsym_group : Z) (fuel : nat) :
  forall irreps f,
    (List.length f < fuel)%nat ->
    scan_irreps fuel nsym_group irreps f <> None.
Proof.
  induction fuel as [|fuel IH]; intros irreps f Hlen; [ lia | ].
  cbn [scan_irreps].
  destruct (Irrep_init f nsym_group) as [[irr f']|e] eqn:E.
  - apply IH. apply Irrep_init_length in E.
    pose proof (readline_length f'). lia.
  - destruct e; discriminate.
Qed.

(** The legacy loader always comes to an end. *)
Lemma IrrepTable_init_total (SGnumber : Z) (spinor : bool) (f : file) :
  IrrepTable_init SGnumber spinor f <> None.
Proof.
  unfold IrrepTable_init, IrrepTable_init_fuel.
  pose proof (readline_length f) as H1.
  destruct (readline f) as [l f1]. cbn [snd] in H1.
  destruct (Str.split l) as [|tn [|name [|? ?]]]; try discriminate.
  match goal with
  | |- context [match ?r with OK _ => _ | Raise _ => _ end] =>
      destruct r as [[[[nsym symmetries] NK] f2]|e] eqn:E
  end; [ | discriminate ].
  enough (Hlen : (List.length f2 <= List.length f1)%nat).
  { pose proof (scan_irreps_total nsym (S (List.length f)) [] f2) as Hs.
    destruct (scan_irreps (S (List.length f)) nsym [] f2) as [[irreps|e]|];
      [ discriminate | discriminate | exfalso; apply Hs; [ lia | reflexivity ] ]. }
  repeat inv_ok E. destruct a0 as [syms f3].
  pose proof (readline_length f3) as H3.
  destruct (readline f3) as [l3 f4]. cbn [snd] in H3.
  inv_ok E.
  pose proof (readline_length f4) as H4.
  destruct (readline f4) as [l4 f5]. cbn [snd] in H4.
  inv_ok E. injection E as _ _ _ <-.
  apply (foldM_length _ (fun st => List.length (snd st))) in E1;
    [ cbn [snd] in E1; lia | ].
  intros i [syms0 g] s' Hb. unfold read_operation in Hb.
  pose proof (readline_length g) as Hg.
  destruct (readline g) as [lg g1]. cbn [snd] in Hg.
  inv_ok Hb. injection Hb as <-. cbn [snd]. lia.
Qed.

Lemma SymopTable_init_empty : SymopTable_init "" = Raise ValueError.
Proof. reflexivity. Qed.

(** The list of the operations is the parse of as many lines as there are
    rounds. *)
Lemma foldM_read_operation (rounds : list Z) :
  forall acc f symmetries f',
    foldM read_operation rounds (acc, f) = OK (symmetries, f') ->
    exists ops,
      symmetries = (acc ++ ops)%list /\
      List.length ops = List.length rounds /\
      mapM SymopTable_init (firstn (List.length rounds) f) = OK ops.
Proof.
  induction rounds as [|i rounds IH]; intros acc f symmetries f' H; cbn [foldM] in H.
  - injection H as <- _. exists []. now rewrite app_nil_r.
  - inv_ok H. destruct a as [acc1 f1]. unfold read_operation in E.
    destruct f as [|l f]; cbn [readline] in E.
    + rewrite SymopTable_init_empty in E. discriminate E.
    + inv_ok E. injection E as <- <-.
      destruct (IH _ _ _ _ H) as (ops & -> & Hlen & Hops).
      exists (a :: ops). rewrite <- app_assoc. split; [ reflexivity | ].
      cbn [List.length firstn mapM]. rewrite E0, Hops. cbn [bind].
      split; [ now rewrite Hlen | reflexivity ].
Qed.

Lemma range_length (a : Z) (n : nat) : List.length (range a n) = n.
Proof. unfold range. now rewrite length_map, length_seq. Qed.

(** C5. A legacy table whose first line declares [nsym_group = 2 k] loads,
    when it loads, into a table with [nsym = k] whose operations are the
    first [k] of the [2 k] operations parsed from the lines that follow. *)
Theorem legacy_loader_halves (SGnumber : Z) (spinor : bool)
  (line tn name : string) (rest : file) (k : nat) (T : IrrepTable) :
  Str.split line = [tn; name] ->
  Str.to_int tn = Some (2 * Z.of_nat k) ->
  IrrepTable_init SGnumber spinor (line :: rest) = Some (OK T) ->
  tab_nsym T = Z.of_nat k /\
  List.length (tab_symmetries T) = k /\
  exists ops,
    mapM SymopTable_init (firstn (2 * k) rest) = OK ops /\
    List.length ops = (2 * k)%nat /\
    tab_symmetries T = firstn k ops.
Proof.
  intros Hsplit Hint. remember (2 * Z.of_nat k) as n eqn:Hn.
  unfold IrrepTable_init, IrrepTable_init_fuel.
  cbn [readline]. rewrite Hsplit, Hint. cbn [or_raise bind].
  replace (Z.to_nat n) with (2 * k)%nat by lia.
  destruct (foldM read_operation (range 0 (2 * k)) ([], rest))
    as [[symmetries f1]|e] eqn:E; cbn [bind]; [ | discriminate ].
  destruct (foldM_read_operation _ _ _ _ _ E) as (ops & -> & Hlen & Hops).
  rewrite range_length in Hlen, Hops. cbn [app].
  destruct (readline f1) as [l1 f2].
  destruct (py_assert (Str.strip l1 =? "#")%string); cbn [bind];
    [ | discriminate ].
  destruct (readline f2) as [l2 f3].
  destruct (or_raise ValueError (Str.to_int l2)) as [NK|e]; cbn [bind];
    [ | discriminate ].
  destruct (scan_irreps _ _ _ f3) as [[irreps|e]|]; try discriminate.
  intros H. injection H as <-. cbn [tab_nsym tab_symmetries].
  replace (Z.quot n 2) with (Z.of_nat k)
    by (subst n; rewrite Z.mul_comm, Z.quot_mul; lia).
  assert (Hslice : slice_to (Z.of_nat k) ops = firstn k ops).
  { unfold slice_to. destruct (Z.ltb_spec (Z.of_nat k) 0); [ lia | ].
    now rewrite Nat2Z.id. }
  rewrite Hslice. split; [ reflexivity | ].
  split; [ rewrite length_firstn; lia | ].
  exists ops. repeat split; assumption.
Qed.

(** ** The k-points of [save4user] *)

Lemma foldM_app {A S} (body : A -> S -> result S) (xs ys : list A) (s : S) :
  foldM body (xs ++ ys)%list s = (s' <- foldM body xs s ;; foldM body ys s').
Proof.
  revert s. induction xs as [|x xs IH]; intros s; [ reflexivity | ].
  cbn [app foldM]. destruct (body x s) as [s1|e]; cbn [bind];
    [ apply IH | reflexivity ].
Qed.

Lemma find_app {A} (p : A -> bool) (xs ys : list A) :
  find p (xs ++ ys)%list
  = match find p xs with
    | Some x => Some x
    | None => find p ys
    end.
Proof.
  induction xs as [|x xs IH]; [ reflexivity | ].
  cbn [app find]. now destruct (p x).
Qed.

Lemma existsb_eqb_In (x : string) (l : list string) :
  existsb (String.eqb x) l = true <-> In x l.
Proof.
  rewrite existsb_exists. split.
  - intros (y & Hin & Heq). apply String.eqb_eq in Heq. now subst.
  - intros Hin. exists x. split; [ exact Hin | apply String.eqb_refl ].
Qed.

Lemma distinct_snoc (names : list string) (x : string) :
  distinct (names ++ [x])%list
  = if existsb (String.eqb x) (distinct names) then distinct names
    else (distinct names ++ [x])%list.
Proof. unfold distinct. now rewrite fold_left_app. Qed.

(** The three ways the body of the first loop goes through. *)
Lemma add_kpoint_cases (irr : Irrep) (d d' : list (string * KPoint)) :
  add_kpoint irr d = OK d' ->
  (eligible irr = false /\ d' = d) \/
  (eligible irr = true /\
   exists kp0, dict_get String.eqb (irr_kpname irr) d = Some kp0 /\
               KPoint_eq kp0 (KPoint_of_irrep irr) = OK true /\ d' = d) \/
  (eligible irr = true /\
   dict_get String.eqb (irr_kpname irr) d = None /\
   d' = (d ++ [(irr_kpname irr, KPoint_of_irrep irr)])%list).
Proof.
  unfold add_kpoint, eligible. intros H.
  destruct (irr_hasuvw irr) as [[|]|]; cbn [or_raise bind negb] in H;
    [ injection H as <-; now left | | discriminate H ].
  cbn [KPoint_of_irrep kp_k kp_name] in H.
  destruct (no_reserved (irr_k irr)); [ | injection H as <-; now left ].
  right. destruct (dict_get String.eqb (irr_kpname irr) d) as [kp0|] eqn:Eg.
  - left. split; [ reflexivity | ]. exists kp0.
    repeat inv_ok H. apply py_assert_ok in E0. subst a. now subst d'.
  - right. split; [ reflexivity | ]. split; [ reflexivity | ].
    injection H as <-. apply (dict_set_new _ String.eqb_spec).
    now apply (dict_get_None _ String.eqb_spec).
Qed.

(** What the first loop of [save4user] collects: one k-point for each
    distinct name among the irreps it takes k-points from, in the order of
    first occurrence, built from the first such irrep of that name; every
    later one compares equal to it. *)
Lemma collected_kpoints (irreps : list Irrep) :
  forall kpoints,
    foldM add_kpoint irreps [] = OK kpoints ->
    keys kpoints = distinct (map irr_kpname (filter eligible irreps)) /\
    Forall (fun nkp =>
              exists irr, representative (fst nkp) irreps = Some irr /\
                          snd nkp = KPoint_of_irrep irr) kpoints /\
    Forall (fun irr =>
              eligible irr = true ->
              exists kp,
                dict_get String.eqb (irr_kpname irr) kpoints = Some kp /\
                (kp = KPoint_of_irrep irr \/
                 KPoint_eq kp (KPoint_of_irrep irr) = OK true)) irreps.
Proof.
  induction irreps as [|irr pre IH] using rev_ind; intros kpoints H.
  - injection H as <-. repeat split; constructor.
  - rewrite foldM_app in H. inv_ok H. rename a into d.
    destruct (IH d eq_refl) as (Hkeys & Hrep & Hcons). clear IH.
    cbn [foldM] in H. inv_ok H. injection H as <-. rename a into d'.
    rewrite filter_app, map_app. cbn [filter].
    assert (Hrep' : Forall (fun nkp =>
                exists irr0, representative (fst nkp) (pre ++ [irr])
                             = Some irr0 /\
                             snd nkp = KPoint_of_irrep irr0) d).
    { eapply Forall_impl; [ | exact Hrep ].
      intros nkp (irr0 & Hf & Hk). exists irr0. split; [ | exact Hk ].
      unfold representative in *. now rewrite find_app, Hf. }
    destruct (add_kpoint_cases _ _ _ E0)
      as [[Hel ->]|[(Hel & kp0 & Hget & Heq & ->)|(Hel & Hget & ->)]];
      rewrite Hel.
    + cbn [map]. rewrite app_nil_r. split; [ exact Hkeys | ].
      split; [ exact Hrep' | ].
      apply Forall_app. split; [ exact Hcons | ].
      constructor; [ | constructor ]. congruence.
    + cbn [map]. rewrite distinct_snoc, <- Hkeys.
      replace (existsb (String.eqb (irr_kpname irr)) (keys d)) with true.
      2:{ symmetry. apply existsb_eqb_In.
          apply dict_get_In with (1 := String.eqb_spec) in Hget.
          unfold keys. now apply (in_map fst) in Hget. }
      split; [ reflexivity | ]. split; [ exact Hrep' | ].
      apply Forall_app. split; [ exact Hcons | ].
      constructor; [ | constructor ]. intros _. exists kp0. tauto.
    + cbn [map]. rewrite distinct_snoc, <- Hkeys.
      assert (Hnotin : ~ In (irr_kpname irr) (keys d))
        by now apply (dict_get_None _ String.eqb_spec).
      replace (existsb (String.eqb (irr_kpname irr)) (keys d)) with false.
      2:{ symmetry. apply not_true_is_false. now rewrite existsb_eqb_In. }
      split; [ unfold keys; now rewrite map_app | ].
      split.
      * apply Forall_app. split; [ exact Hrep' | ].
        constructor; [ | constructor ]. cbn [fst snd].
        exists irr. split; [ | reflexivity ].
        unfold representative. rewrite find_app.
        destruct (find _ pre) as [irr0|] eqn:Ef.
        -- exfalso. apply find_some in Ef. destruct Ef as [Hin Hp].
           apply andb_prop in Hp. destruct Hp as [He Hn].
           apply String.eqb_eq in Hn.
           rewrite Forall_forall in Hcons.
           destruct (Hcons _ Hin He) as (kp & Hg & _).
           rewrite Hn, Hget in Hg. discriminate Hg.
        -- cbn [find]. now rewrite Hel, String.eqb_refl.
      * apply Forall_app. split.
        -- eapply Forall_impl; [ | exact Hcons ].
           intros irr0 Hc He. destruct (Hc He) as (kp & Hg & Hor).
           exists kp. split; [ | exact Hor ].
           now rewrite dict_get_app, Hg.
        -- constructor; [ | constructor ]. intros _.
           exists (KPoint_of_irrep irr). split; [ | now left ].
           rewrite dict_get_app, Hget. cbn [dict_get].
           now rewrite String.eqb_refl.
Qed.

Lemma write_irreps_done (kpname : string) (irreps : list Irrep) :
  forall out out' u,
    write_irreps kpname irreps out = (out', OK u) ->
    exists lines,
      mapM Irrep_str (irreps_at kpname irreps) = OK lines /\
      out' = (out ++ map (fun l => (l ++ nl)%string) lines)%list.
Proof.
  induction irreps as [|irr irreps IH]; intros out out' u H;
    cbn [write_irreps] in H.
  - injection H as <-. exists []. now rewrite app_nil_r.
  - unfold irreps_at in *. cbn [filter].
    destruct (irr_kpname irr =? kpname)%string.
    + destruct (Irrep_str irr) as [line|e] eqn:El; [ | discriminate H ].
      destruct (IH _ _ _ H) as (lines & Hl & ->).
      exists (line :: lines). cbn [mapM]. rewrite El, Hl. cbn [bind map].
      now rewrite <- app_assoc.
    + now apply IH with (1 := H).
Qed.

Lemma write_kpoints_done (T : IrrepTable) (kps : list KPoint) :
  forall out out' u,
    write_kpoints T kps out = (out', OK u) ->
    exists sections,
      Forall2 (section_of T) kps sections /\
      out' = (out ++ List.concat sections)%list.
Proof.
  induction kps as [|kp kps IH]; intros out out' u H;
    cbn [write_kpoints] in H.
  - injection H as <-. exists []. split; [ constructor | ].
    now rewrite app_nil_r.
  - destruct (write_irreps (kp_name kp) (tab_irreps T)
                           (out ++ [kpoint_text kp])%list)
      as [out1 [u1|e]] eqn:Ew; [ | discriminate H ].
    destruct (write_irreps_done _ _ _ _ _ Ew) as (lines & Hl & ->).
    destruct (IH _ _ _ H) as (sections & HF & ->).
    exists ((kpoint_text kp :: map (fun l => l ++ nl) lines) :: sections).
    split.
    + constructor; [ | exact HF ]. exists lines. now split.
    + cbn [List.concat app]. now rewrite <- !app_assoc.
Qed.

Lemma add_kpoint_inconsistent (irr : Irrep) (d : list (string * KPoint))
  (kp0 : KPoint) :
  eligible irr = true ->
  dict_get String.eqb (irr_kpname irr) d = Some kp0 ->
  KPoint_eq kp0 (KPoint_of_irrep irr) = OK false ->
  add_kpoint irr d = Raise AssertionError.
Proof.
  unfold add_kpoint, eligible. intros He Hget Heq.
  destruct (irr_hasuvw irr) as [[|]|]; try discriminate He.
  cbn [or_raise bind negb]. cbn [KPoint_of_irrep kp_k kp_name].
  now rewrite He, Hget, Heq.
Qed.

(** The k-point collected under a name is the one of the representative of
    that name. *)
Lemma collected_representative (irreps : list Irrep)
  (kpoints : list (string * KPoint)) (kpname : string) (irr0 : Irrep) :
  foldM add_kpoint irreps [] = OK kpoints ->
  representative kpname irreps = Some irr0 ->
  dict_get String.eqb kpname kpoints = Some (KPoint_of_irrep irr0).
Proof.
  intros Hk Hr. destruct (collected_kpoints _ _ Hk) as (_ & Hrep & Hcons).
  pose proof Hr as Hr'. unfold representative in Hr'.
  apply find_some in Hr'. destruct Hr' as [Hin Hp].
  apply andb_prop in Hp. destruct Hp as [He Hn]. apply String.eqb_eq in Hn.
  rewrite Forall_forall in Hcons.
  destruct (Hcons _ Hin He) as (kp & Hg & _). rewrite Hn in Hg.
  rewrite Hg. f_equal.
  apply dict_get_In with (1 := String.eqb_spec) in Hg.
  rewrite Forall_forall in Hrep.
  destruct (Hrep _ Hg) as (irr1 & Hr1 & Hkp). cbn [fst snd] in Hr1, Hkp.
  congruence.
Qed.

(** [save4user], when it completes, has written the header, the
    operations, and one section for each distinct k-point name among the
    irreps that are not parameterized and have no reserved coordinate, in
    the order of first occurrence. The k-point of a section is built from
    the first such irrep of its name, and every later such irrep of that name
    gives a k-point that compares equal to it. A section is the line of the
    k-point followed by the line of every irrep of the table with that
    k-point name, in table order. And when such an irrep gives a k-point that
    compares unequal to the one of the first such irrep of its name,
    [save4user] ends in an [AssertionError], the header and the operations
    written. *)
Theorem save4user_sections (T : IrrepTable) :
  (forall out,
      save4user T = (out, OK tt) ->
      exists h kpoints sections,
        header_text T = OK h /\
        keys kpoints
        = distinct (map irr_kpname (filter eligible (tab_irreps T))) /\
        Forall (fun nkp =>
                  exists irr,
                    representative (fst nkp) (tab_irreps T) = Some irr /\
                    snd nkp = KPoint_of_irrep irr) kpoints /\
        Forall (fun irr =>
                  eligible irr = true ->
                  exists kp,
                    dict_get String.eqb (irr_kpname irr) kpoints = Some kp /\
                    (kp = KPoint_of_irrep irr \/
                     KPoint_eq kp (KPoint_of_irrep irr) = OK true))
               (tab_irreps T) /\
        Forall2 (section_of T) (values kpoints) sections /\
        out = h :: symmetries_text T :: List.concat sections) /\
  (forall pre irr post irr0 h kpoints,
      tab_irreps T = (pre ++ irr :: post)%list ->
      header_text T = OK h ->
      foldM add_kpoint pre [] = OK kpoints ->
      eligible irr = true ->
      representative (irr_kpname irr) pre = Some irr0 ->
      KPoint_eq (KPoint_of_irrep irr0) (KPoint_of_irrep irr) = OK false ->
      save4user T = ([h; symmetries_text T], Raise AssertionError)).
Proof.
  split.
  - unfold save4user. intros out H.
    destruct (header_text T) as [h|e]; [ | discriminate H ].
    destruct (foldM add_kpoint (tab_irreps T) []) as [kpoints|e] eqn:Ek;
      [ | discriminate H ].
    destruct (collected_kpoints _ _ Ek) as (Hkeys & Hrep & Hcons).
    destruct (write_kpoints_done _ _ _ _ _ H) as (sections & HF & ->).
    exists h, kpoints, sections. repeat split; assumption.
  - intros pre irr post irr0 h kpoints Hirreps Hh Hpre He Hr Hneq.
    unfold save4user. rewrite Hh, Hirreps, foldM_app, Hpre. cbn [bind foldM].
    rewrite (add_kpoint_inconsistent irr kpoints (KPoint_of_irrep irr0));
      try assumption; [ reflexivity | ].
    now apply (collected_representative pre).
Qed.

End Properties.

(* ===================================================================== *)
(** * Further properties of the loaders, the constructors and the writers *)

Section Coverage.
Context {NP : NumPy} {AX : Aux}.

(** ** The legacy loader, whatever the flag and the count *)

(** The operations read, the file stands after as many lines as there were
    rounds. *)
Lemma foldM_read_operation_rest (rounds : list Z) :
  forall acc f symmetries f',
    foldM read_operation rounds (acc, f) = OK (symmetries, f') ->
    f' = skipn (List.length rounds) f.
Proof.
  induction rounds as [|i rounds IH]; intros acc f symmetries f' H;
    cbn [foldM] in H.
  - now injection H as _ <-.
  - inv_ok H. destruct a as [acc1 f1]. unfold read_operation in E.
    destruct f as [|l f]; cbn [readline] in E.
    + rewrite SymopTable_init_empty in E. discriminate E.
    + inv_ok E. injection E as <- <-. cbn [List.length skipn].
      exact (IH _ _ _ _ H).
Qed.

(** What the scan of the records returns are the records of the file. *)
Lemma scan_irreps_records (nsym_group : Z) (fuel : nat) :
  forall acc f irreps,
    scan_irreps fuel nsym_group acc f = Some (OK irreps) ->
    exists records,
      irreps = (acc ++ records)%list /\ records_of nsym_group f records.
Proof.
  induction fuel as [|fuel IH]; intros acc f irreps H; cbn [scan_irreps] in H;
    [ discriminate H | ].
  destruct (Irrep_init f nsym_group) as [[irr f']|e] eqn:E.
  - destruct (IH _ _ _ H) as (records & -> & Hr).
    exists (irr :: records). rewrite <- app_assoc. split; [ reflexivity | ].
    now apply records_next with (f' := f').
  - destruct e; try discriminate H. injection H as <-.
    exists []. rewrite app_nil_r. split; [ reflexivity | ].
    now apply records_end.
Qed.

(** The legacy loader reads the same records whatever the spinor flag. The
    records are those of the file below the first line, the [n] lines of
    the operations that the first line announces, the [#] line and the [NK]
    line, read with the count [n]. When the file loads for one flag it loads
    for the other, and the irreps of the two tables are the records whose
    label starts with [-] and the others, in the order of the file; name,
    [nsym] and operations agree. *)
Theorem legacy_loader_spinor_partition (SGnumber : Z) (spinor : bool)
  (f : file) (T : IrrepTable) :
  IrrepTable_init SGnumber spinor f = Some (OK T) ->
  exists T' tn name n records,
    IrrepTable_init SGnumber (negb spinor) f = Some (OK T') /\
    Str.split (fst (readline f)) = [tn; name] /\
    Str.to_int tn = Some n /\
    records_of n (skipn (Z.to_nat n + 3) f) records /\
    tab_irreps (if spinor then T else T')
    = filter (fun s => Str.startswith "-" (irr_name s)) records /\
    tab_irreps (if spinor then T' else T)
    = filter (fun s => negb (Str.startswith "-" (irr_name s))) records /\
    tab_name T' = tab_name T /\
    tab_nsym T' = tab_nsym T /\
    tab_symmetries T' = tab_symmetries T.
Proof.
  unfold IrrepTable_init, IrrepTable_init_fuel.
  destruct f as [|l f1]; [ discriminate | ]. cbn [readline fst].
  generalize (S (List.length (l :: f1))). intros fuel.
  destruct (Str.split l) as [|tn [|name [|? ?]]]; try discriminate.
  destruct (Str.to_int tn) as [n|] eqn:Hint; [ | discriminate ].
  cbn [or_raise bind].
  destruct (foldM read_operation _ _)
    as [[symmetries f2]|e] eqn:E; cbn [bind]; [ | discriminate ].
  apply foldM_read_operation_rest in E. rewrite range_length in E.
  destruct f2 as [|l2 f3]; [ discriminate | ]. cbn [readline].
  destruct (py_assert (Str.strip l2 =? "#")%string); cbn [bind];
    [ | discriminate ].
  destruct f3 as [|l3 f4]; [ discriminate | ]. cbn [readline].
  destruct (or_raise ValueError (Str.to_int l3)) as [NK|e]; cbn [bind];
    [ | discriminate ].
  destruct (scan_irreps fuel n [] f4) as [[irreps|e]|] eqn:Es;
    try discriminate.
  intros H. injection H as <-.
  destruct (scan_irreps_records _ _ _ _ _ Es) as (records & -> & Hr).
  cbn [app] in *.
  eexists. exists tn, name, n, records.
  split; [ reflexivity | ]. split; [ reflexivity | ].
  split; [ exact Hint | ]. split.
  - replace (skipn (Z.to_nat n + 3) (l :: f1)) with f4; [ exact Hr | ].
    replace (Z.to_nat n + 3)%nat with (S (2 + Z.to_nat n)) by lia.
    cbn [skipn]. rewrite <- skipn_skipn, <- E. reflexivity.
  - destruct spinor; cbn [negb tab_irreps tab_name tab_nsym tab_symmetries];
      repeat split; reflexivity.
Qed.


(** ** The user loader, taken apart *)

Lemma read_symmetries_used (n : Z) (lines : file) :
  forall symmetries out rest,
    read_symmetries n symmetries lines = OK (out, rest) ->
    exists used,
      lines = (used ++ rest)%list /\
      out = (symmetries ++ parsed_ops used)%list /\
      Z.of_nat (List.length out) = Z.max (Z.of_nat (List.length symmetries)) n.
Proof.
  induction lines as [|l lines IH]; intros symmetries out rest H;
    cbn [read_symmetries] in H.
  - destruct (Z.ltb_spec (Z.of_nat (List.length symmetries)) n) as [Hlt|Hge];
      [ discriminate H | ].
    injection H as <- <-. exists []. cbn. rewrite app_nil_r.
    repeat split. lia.
  - destruct (Z.ltb_spec (Z.of_nat (List.length symmetries)) n) as [Hlt|Hge].
    + destruct (SymopTable_init_from_user l) as [s|e] eqn:Es;
        destruct (IH _ _ _ H) as (used & -> & -> & Hlen);
        exists (l :: used); unfold parsed_ops in *; cbn [flat_map];
        rewrite Es; cbn [app]; rewrite <- ?app_assoc in *; cbn [app] in *;
        repeat split; rewrite Hlen, ?length_app; cbn [List.length]; lia.
    + injection H as <- <-. exists []. cbn. rewrite app_nil_r.
      repeat split. lia.
Qed.

Lemma read_header_spec (SG : Z) (spinor : bool) (lines : file) :
  forall name nsym name' n symmetries rest,
    read_header SG spinor name nsym lines = OK (name', n, symmetries, rest) ->
    exists pre marker after,
      lines = (pre ++ marker :: after)%list /\
      header_prefix SG spinor name nsym pre = Some (name', Some n) /\
      header_line SG spinor name' (Some n) marker = OK Symmetries /\
      read_symmetries n [] after = OK (symmetries, rest).
Proof.
  induction lines as [|line lines IH];
    intros name nsym name' n symmetries rest H; cbn [read_header] in H;
    [ discriminate H | ].
  destruct (header_line SG spinor name nsym line) as [[n1 n2|]|e] eqn:El;
    cbn [bind] in H; [ | | discriminate H ].
  - destruct (IH _ _ _ _ _ _ H) as (pre & marker & after & -> & Hp & Hm & Hs).
    exists (line :: pre), marker, after. cbn [app header_prefix].
    rewrite El. now repeat split.
  - destruct nsym as [n0|]; cbn [or_raise bind] in H; [ | discriminate H ].
    destruct (read_symmetries n0 [] lines) as [[syms r]|e] eqn:Es;
      cbn [bind] in H; [ | discriminate H ].
    injection H as <- <- <- <-.
    exists [], line, lines. cbn [app header_prefix]. repeat split;
      try assumption.
Qed.

(** A table loaded from a user file: the file is a head that sets the name
    and [nsym], the [symmetries] line, the lines read for the operations and
    the rest. The operations of the table are those of the lines read for
    them that parse, in file order; they are [nsym] in number, none when
    [nsym] is negative. The number and the spinor flag are those asked for
    and [NK] is not set. *)
Theorem user_loader_structure (SG : Z) (spinor : bool) (lines : file)
  (T : IrrepTable) :
  IrrepTable_init_user SG spinor lines = OK T ->
  exists pre marker ops rest,
    lines = (pre ++ marker :: ops ++ rest)%list /\
    header_prefix SG spinor None None pre
    = Some (tab_name T, Some (tab_nsym T)) /\
    header_line SG spinor (tab_name T) (Some (tab_nsym T)) marker
    = OK Symmetries /\
    tab_symmetries T = parsed_ops ops /\
    Z.of_nat (List.length (tab_symmetries T)) = Z.max 0 (tab_nsym T) /\
    tab_number T = SG /\ tab_spinor T = spinor /\ tab_NK T = None.
Proof.
  unfold IrrepTable_init_user. intros H. inv_ok H.
  destruct a as [[[name n] symmetries] rest]. injection H as <-.
  cbn [tab_name tab_nsym tab_symmetries tab_number tab_spinor tab_NK].
  destruct (read_header_spec _ _ _ _ _ _ _ _ _ E)
    as (pre & marker & after & -> & Hp & Hm & Hs).
  destruct (read_symmetries_used _ _ _ _ _ Hs) as (ops & -> & -> & Hlen).
  exists pre, marker, ops, rest. cbn [app List.length] in *.
  now repeat split.
Qed.

(** ** More on dicts *)

Section DictKeys.
Context {K V : Type} (eqb : K -> K -> bool).
Hypothesis eqb_spec : forall x y, reflect (x = y) (eqb x y).

Lemma dict_set_old (k : K) (v : V) (d : list (K * V)) :
  In k (keys d) -> keys (dict_set eqb k v d) = keys d.
Proof.
  induction d as [|[k' v'] d IH]; [ easy | ].
  cbn [dict_set keys map fst In]. intros Hin.
  destruct (eqb_spec k k') as [->|Hne]; [ reflexivity | ].
  cbn [map fst]. f_equal. apply IH. destruct Hin; [ congruence | assumption ].
Qed.

(** A dict built from pairs: its keys are distinct and are the keys of the
    pairs. *)
Lemma fold_dict_set_keys (kvs : list (K * V)) :
  forall d,
    NoDup (keys d) ->
    NoDup (keys (fold_left (fun d kv => dict_set eqb (fst kv) (snd kv) d)
                           kvs d)) /\
    (forall x,
        In x (keys (fold_left (fun d kv => dict_set eqb (fst kv) (snd kv) d)
                              kvs d))
        <-> In x (keys d) \/ In x (map fst kvs)).
Proof.
  induction kvs as [|[k v] kvs IH]; intros d Hnd.
  - cbn. split; [ exact Hnd | tauto ].
  - cbn [fold_left fst snd map].
    assert (Hset : NoDup (keys (dict_set eqb k v d)) /\
                   forall x, In x (keys (dict_set eqb k v d))
                             <-> In x (keys d) \/ x = k).
    { destruct (in_dec (fun a b => reflect_dec _ _ (eqb_spec a b)) k (keys d))
        as [Hin|Hout].
      - rewrite (dict_set_old _ _ _ Hin). split; [ exact Hnd | ].
        intros x. split; [ tauto | ]. intros [H| ->]; assumption.
      - rewrite (dict_set_new _ eqb_spec _ _ _ Hout). unfold keys.
        rewrite map_app. cbn [map fst]. split.
        + apply NoDup_app; [ exact Hnd | repeat constructor; easy | ].
          intros x Hx [<-|[]]. now apply Hout.
        + intros x. rewrite in_app_iff. cbn. intuition congruence. }
    destruct Hset as [Hnd' Hin']. destruct (IH _ Hnd') as [H1 H2].
    split; [ exact H1 | ]. intros x. rewrite H2, Hin'. cbn. intuition.
Qed.

(** A dict built from pairs is read like the list of the pairs from its
    end: of two pairs with the same key the later one counts. *)
Lemma fold_dict_set_get (k : K) (kvs : list (K * V)) :
  forall d,
    dict_get eqb k
      (fold_left (fun d kv => dict_set eqb (fst kv) (snd kv) d) kvs d)
    = match dict_get eqb k (rev kvs) with
      | Some v => Some v
      | None => dict_get eqb k d
      end.
Proof.
  assert (Hset : forall k' v (d : list (K * V)),
             dict_get eqb k (dict_set eqb k' v d)
             = if eqb k k' then Some v else dict_get eqb k d).
  { intros k' v d. induction d as [|[k1 v1] d IH].
    - reflexivity.
    - cbn [dict_set]. destruct (eqb_spec k' k1) as [->|Hne].
      + cbn [dict_get]. now destruct (eqb k k1).
      + cbn [dict_get]. rewrite IH.
        destruct (eqb_spec k k1) as [->|_]; [ | reflexivity ].
        destruct (eqb_spec k1 k'); [ congruence | reflexivity ]. }
  induction kvs as [|[k' v] kvs IH]; intros d; [ reflexivity | ].
  cbn [fold_left rev fst snd]. rewrite IH, dict_get_app, Hset.
  cbn [dict_get]. destruct (dict_get eqb k (rev kvs)); [ reflexivity | ].
  now destruct (eqb k k').
Qed.
(** Read from its end, a list of pairs gives for a key the value at the
    last place of the key. *)
Lemma dict_get_rev_last (ks : list K) :
  forall (vs : list V) i k v,
    nth_error ks i = Some k ->
    nth_error vs i = Some v ->
    ~ In k (skipn (S i) ks) ->
    dict_get eqb k (rev (combine ks vs)) = Some v.
Proof.
  induction ks as [|k0 ks IH]; intros vs i k v Hk Hv Hlast.
  - destruct i; discriminate Hk.
  - destruct vs as [|v0 vs]; [ destruct i; discriminate Hv | ].
    cbn [combine rev]. rewrite dict_get_app.
    destruct i as [|i].
    + injection Hk as ->. injection Hv as ->. cbn [skipn] in Hlast.
      replace (dict_get eqb k (rev (combine ks vs))) with (@None V).
      * cbn [dict_get]. now destruct (eqb_spec k k).
      * symmetry. apply (dict_get_None eqb eqb_spec). intros Hin.
        apply Hlast. unfold keys in Hin. rewrite map_rev in Hin.
        apply in_rev in Hin. apply in_map_iff in Hin.
        destruct Hin as ([a b] & <- & Hab).
        now apply in_combine_l in Hab.
    + cbn [nth_error] in Hk, Hv. cbn [skipn] in Hlast.
      now rewrite (IH vs i k v Hk Hv Hlast).
Qed.
End DictKeys.

(** ** The user encoding: keys and provenance *)

Lemma mapM_index_keys {V W} (g : V -> W) (ks : list Z) :
  forall (vs : list V) kvs,
    mapM (fun i => key <- index ks i ;; c <- index vs i ;; OK (key, g c))
         (seq 0 (List.length ks)) = OK kvs ->
    map fst kvs = ks /\
    kvs = combine ks (map g (firstn (List.length ks) vs)).
Proof.
  induction ks as [|k ks IH]; intros vs kvs H.
  - injection H as <-. split; reflexivity.
  - cbn [List.length seq mapM] in H.
    cbn [index nth_error or_raise bind] in H.
    destruct vs as [|v vs]; [ discriminate H | ].
    cbn [index nth_error or_raise bind] in H.
    rewrite <- seq_shift, mapM_map in H.
    destruct (mapM _ (seq 0 (List.length ks))) as [kvs'|e] eqn:E;
      cbn [bind] in H; [ | discriminate H ].
    injection H as <-.
    destruct (IH vs kvs') as [H1 H2].
    + rewrite <- E. apply mapM_ext. intros i. reflexivity.
    + cbn [map fst firstn combine List.length]. now rewrite H1, <- H2.
Qed.

(** An irrep built from the user encoding takes its k-point name, its
    coordinates and its [nsym] from the k-point. Its characters are numbers,
    under distinct keys that are exactly the indices of the k-point. The
    numbers are those of the line, [ch]: the amplitudes when the fields
    after the dimension are [nsym] in number, amplitudes times phases
    otherwise; the character under a key is [ch[i]] for the last place [i]
    of the key among the indices, so a repeated index keeps the character of
    its last place. The characters are [nsym] in number exactly when the
    indices of the k-point are pairwise distinct, and fewer otherwise. *)
Theorem Irrep_init_user_keys (line : string) (kp : KPoint) (irr : Irrep) :
  Irrep_init_user line kp = OK irr ->
  irr_kpname irr = kp_name kp /\
  irr_k irr = kp_k kp /\
  irr_nsym irr = Z.of_nat (List.length (kp_isym kp)) /\
  NoDup (keys (irr_characters irr)) /\
  (forall key, In key (keys (irr_characters irr)) <-> In key (kp_isym kp)) /\
  Forall (fun kv => exists c, snd kv = Const c) (irr_characters irr) /\
  (List.length (irr_characters irr) <= List.length (kp_isym kp))%nat /\
  (List.length (irr_characters irr) = List.length (kp_isym kp)
   <-> NoDup (kp_isym kp)) /\
  exists amps ch,
    float_array (slice 2 (2 + List.length (kp_isym kp)) (Str.split line))
    = OK amps /\
    (if Nat.eqb (List.length (skipn 2 (Str.split line)))
                (List.length (kp_isym kp))
     then ch = map NFloat amps
     else exists phases,
            float_array (slice (2 + List.length (kp_isym kp))
                               (2 + 2 * List.length (kp_isym kp))
                               (Str.split line))
            = OK phases /\
            polar_array amps phases = OK ch) /\
    (List.length (kp_isym kp) <= List.length ch)%nat /\
    (forall key,
        dict_get Z.eqb key (irr_characters irr)
        = dict_get Z.eqb key (rev (combine (kp_isym kp) (map Const ch)))) /\
    (forall i key c,
        nth_error (kp_isym kp) i = Some key ->
        nth_error ch i = Some c ->
        ~ In key (skipn (S i) (kp_isym kp)) ->
        dict_get Z.eqb key (irr_characters irr) = Some (Const c)).
Proof.
  unfold Irrep_init_user. intros H.
  do 7 inv_ok H. subst irr.
  cbn [irr_kpname irr_k irr_nsym irr_characters].
  rename a3 into ch. rename a4 into kvs.
  destruct (mapM_index_keys Const _ _ _ E4) as [Hkeys Hkvs].
  pose proof (fold_dict_set_keys Z.eqb Z.eqb_spec kvs [] (NoDup_nil _))
    as [Hnd Hin].
  fold (dict_of Z.eqb kvs) in Hnd, Hin. rewrite Hkeys in Hin.
  assert (Hiff : forall key, In key (keys (dict_of Z.eqb kvs))
                             <-> In key (kp_isym kp)).
  { intros key. rewrite Hin. cbn. tauto. }
  assert (Hle : (List.length (dict_of Z.eqb kvs)
                 <= List.length (kp_isym kp))%nat).
  { replace (List.length (dict_of Z.eqb kvs))
      with (List.length (keys (dict_of Z.eqb kvs)))
      by (unfold keys; apply length_map).
    apply NoDup_incl_length; [ exact Hnd | ].
    intros x Hx. now apply Hiff. }
  assert (Hlen : (List.length (kp_isym kp) <= List.length ch)%nat).
  { apply (f_equal (@List.length _)) in Hkvs.
    rewrite length_combine, length_map, length_firstn in Hkvs.
    apply (f_equal (@List.length _)) in Hkeys. rewrite length_map in Hkeys.
    lia. }
  repeat split; try assumption; try apply Hiff.
  - assert (HF : Forall (fun kv : Z * character => exists c, snd kv = Const c)
                        kvs).
    { rewrite Hkvs. clear. generalize (firstn (List.length (kp_isym kp)) ch).
      induction (kp_isym kp) as [|k ks IH]; intros [|c cs]; cbn;
        constructor; [ now eexists | apply IH ]. }
    rewrite Forall_forall in *. intros [k c] Hkc.
    assert (Hg : dict_get Z.eqb k (dict_of Z.eqb kvs) = Some c).
    { clear -Hkc Hnd. induction (dict_of Z.eqb kvs) as [|[k1 c1] d IH];
        [ easy | ].
      cbn [keys map fst] in Hnd. inversion Hnd as [|? ? Hout Hnd']; subst.
      cbn [dict_get]. destruct Hkc as [Heq|Hin].
      - injection Heq as -> ->. now rewrite Z.eqb_refl.
      - destruct (Z.eqb_spec k k1) as [->|_]; [ | now apply IH ].
        exfalso. apply Hout. unfold keys.
        now apply (in_map fst) in Hin. }
    unfold dict_of in Hg. rewrite (fold_dict_set_get Z.eqb Z.eqb_spec) in Hg.
    cbn [dict_get] in Hg.
    destruct (dict_get Z.eqb k (rev kvs)) as [c'|] eqn:Eg; [ | discriminate ].
    injection Hg as ->.
    apply dict_get_In with (1 := Z.eqb_spec) in Eg.
    apply in_rev in Eg. exact (HF _ Eg).
  - intros Heq. 
    apply NoDup_incl_NoDup with (l := keys (dict_of Z.eqb kvs));
      [ exact Hnd | | intros x Hx; now apply Hiff ].
    unfold keys. rewrite length_map. lia.
  - intros Hd. rewrite dict_of_NoDup by (unfold keys; now rewrite Hkeys).
    apply (f_equal (@List.length _)) in Hkeys.
    now rewrite length_map in Hkeys.
  - assert (Hget : forall key,
               dict_get Z.eqb key (dict_of Z.eqb kvs)
               = dict_get Z.eqb key
                   (rev (combine (kp_isym kp) (map Const ch)))).
    { intros key.
      unfold dict_of. rewrite (fold_dict_set_get Z.eqb Z.eqb_spec).
      cbn [dict_get]. rewrite Hkvs.
      replace (combine (kp_isym kp)
                 (map Const (firstn (List.length (kp_isym kp)) ch)))
        with (combine (kp_isym kp) (map Const ch)).
      + now destruct (dict_get Z.eqb key _).
      + rewrite <- firstn_map. clear.
        generalize (map Const ch). induction (kp_isym kp) as [|k ks IH];
          intros [|c cs]; cbn; try reflexivity. now rewrite <- IH. }
    exists a2, ch. split; [ reflexivity | ]. split.
    { destruct (Nat.eqb (List.length (skipn 2 (Str.split line)))
                        (List.length (kp_isym kp))); cbn [negb] in E3.
      - now injection E3 as <-.
      - inv_ok E3. now exists a3. }
    split; [ exact Hlen | ]. split; [ exact Hget | ].
    intros i key c Hi Hc Hlast. rewrite Hget.
    apply (dict_get_rev_last Z.eqb Z.eqb_spec _ _ i); try assumption.
    now rewrite nth_error_map, Hc.
Qed.


Lemma read_irreps_provenance (all : file) (lines : file) :
  forall done kp acc,
    all = (done ++ lines)%list ->
    (forall k, kp = Some k ->
               exists before kline mid,
                 done = (before ++ kline :: mid)%list /\
                 KPoint_of_line (Str.strip kline) = OK k /\
                 Forall (fun l => is_kpoint_line l = false) mid) ->
    Forall (read_under all) acc ->
    Forall (read_under all) (read_irreps kp acc lines).
Proof.
  induction lines as [|line lines IH]; intros done kp acc Hall Hkp Hacc;
    cbn [read_irreps]; [ exact Hacc | ].
  assert (Hall' : all = ((done ++ [line]) ++ lines)%list)
    by now rewrite <- app_assoc.
  destruct (KPoint_of_line (Str.strip line)) as [kp'|e] eqn:Ek.
  - apply (IH _ _ _ Hall'); [ | exact Hacc ].
    intros k [= <-]. exists done, line, []. now repeat split.
  - assert (Hline : is_kpoint_line line = false)
      by (unfold is_kpoint_line; now rewrite Ek).
    destruct kp as [k|].
    + destruct (Hkp k eq_refl) as (before & kline & mid & Hdone & Hk & Hmid).
      assert (Hkp' : forall k0, Some k = Some k0 ->
                 exists before kline mid,
                   (done ++ [line])%list = (before ++ kline :: mid)%list /\
                   KPoint_of_line (Str.strip kline) = OK k0 /\
                   Forall (fun l => is_kpoint_line l = false) mid).
      { intros k0 [= <-]. exists before, kline, (mid ++ [line])%list.
        split; [ rewrite Hdone; now rewrite <- app_assoc | ].
        split; [ exact Hk | ].
        apply Forall_app. split; [ exact Hmid | now constructor ]. }
      destruct (Irrep_init_user (Str.strip line) k) as [irr|e'] eqn:Ei.
      * apply (IH _ _ _ Hall' Hkp').
        apply Forall_app. split; [ exact Hacc | ].
        constructor; [ | constructor ].
        exists before, kline, mid, line, lines, k.
        split; [ rewrite Hall, Hdone; now rewrite <- app_assoc | ].
        split; [ exact Hk | ]. split; [ | exact Ei ].
        apply Forall_app. split; [ exact Hmid | now constructor ].
      * apply (IH _ _ _ Hall' Hkp' Hacc).
    + apply (IH _ _ _ Hall'); [ | exact Hacc ]. intros k [=].
Qed.

(** The irreps of a table loaded from a user file: every one was read from
    a line below the operations that is no k-point line, with the k-point of
    the last k-point line above it and below the operations. *)
Theorem user_loader_irreps (SG : Z) (spinor : bool) (lines : file)
  (T : IrrepTable) :
  IrrepTable_init_user SG spinor lines = OK T ->
  exists pre marker ops rest,
    lines = (pre ++ marker :: ops ++ rest)%list /\
    header_line SG spinor (tab_name T) (Some (tab_nsym T)) marker
    = OK Symmetries /\
    tab_symmetries T = parsed_ops ops /\
    Forall (read_under rest) (tab_irreps T).
Proof.
  unfold IrrepTable_init_user. intros H. inv_ok H.
  destruct a as [[[name n] symmetries] rest]. injection H as <-.
  cbn [tab_name tab_nsym tab_symmetries tab_irreps].
  destruct (read_header_spec _ _ _ _ _ _ _ _ _ E)
    as (pre & marker & after & -> & Hp & Hm & Hs).
  destruct (read_symmetries_used _ _ _ _ _ Hs) as (ops & -> & -> & Hlen).
  exists pre, marker, ops, rest. cbn [app] in *.
  split; [ reflexivity | ]. split; [ exact Hm | ]. split; [ reflexivity | ].
  apply (read_irreps_provenance rest rest [] None []);
    [ reflexivity | intros k [=] | constructor ].
Qed.

(** ** The machine encoding: the keys of the characters *)

Lemma range_cons (a : Z) (n : nat) : range a (S n) = a :: range (a + 1) n.
Proof.
  unfold range. cbn [seq map]. rewrite <- seq_shift, map_map.
  f_equal; [ lia | ]. apply map_ext. intros i. lia.
Qed.

Lemma range_In (k : Z) (n : nat) :
  forall a, In k (range a n) <-> a <= k < a + Z.of_nat n.
Proof.
  induction n as [|n IH]; intros a.
  - cbn. lia.
  - rewrite range_cons. cbn [In]. rewrite IH. lia.
Qed.

Lemma range_increasing (n : nat) :
  forall a, Sorted.StronglySorted Z.lt (range a n).
Proof.
  induction n as [|n IH]; intros a; [ constructor | ].
  rewrite range_cons. constructor; [ apply IH | ].
  apply Forall_forall. intros k Hk. apply range_In in Hk. lia.
Qed.

Lemma retained_increasing (nsym_group : Z)
  (slots : list (Z * option (list (list float64) * list bool))) :
  Sorted.StronglySorted Z.lt (map fst slots) ->
  Sorted.StronglySorted Z.lt (keys (retained nsym_group slots)).
Proof.
  induction slots as [|[k s] slots IH]; cbn [map fst]; intros H;
    [ constructor | ].
  inversion H as [|? ? Hs Hk]; subst.
  unfold retained. cbn [flat_map fst snd]. fold (retained nsym_group slots).
  assert (Hcons : Sorted.StronglySorted Z.lt
                    (k :: keys (retained nsym_group slots))).
  { constructor; [ now apply IH | ].
    rewrite Forall_forall in *. intros x Hx.
    apply Hk. now apply retained_keys_incl in Hx. }
  destruct s as [[abcde flags]|]; [ | now apply IH ].
  destruct (2 * k <=? nsym_group); [ exact Hcons | now apply IH ].
Qed.

Lemma retained_keys_bound (nsym_group : Z)
  (slots : list (Z * option (list (list float64) * list bool))) :
  Forall (fun k => 2 * k <= nsym_group) (keys (retained nsym_group slots)).
Proof.
  induction slots as [|[k s] slots IH]; [ constructor | ].
  unfold retained. cbn [flat_map fst snd]. fold (retained nsym_group slots).
  destruct s as [[abcde flags]|]; [ | exact IH ].
  destruct (Z.leb_spec (2 * k) nsym_group); [ | exact IH ].
  now constructor.
Qed.

(** The set of an increasing list of integers is listed as the list. *)
Lemma py_set_increasing (xs : list Z) :
  Sorted.StronglySorted Z.lt xs -> py_set xs = xs.
Proof.
  unfold py_set. intros H.
  assert (Hd : dedup xs = xs).
  { induction H as [|x xs Hs IH Hx]; [ reflexivity | ].
    cbn [dedup]. rewrite IH.
    replace (existsb (Z.eqb x) xs) with false; [ reflexivity | ].
    symmetry. apply not_true_is_false. intros Hex.
    apply existsb_exists in Hex. destruct Hex as (y & Hy & Heq).
    rewrite Forall_forall in Hx. apply Hx in Hy. lia. }
  rewrite Hd. clear Hd. induction H as [|x xs Hs IH Hx]; [ reflexivity | ].
  cbn [sorted fold_right]. fold (sorted xs). rewrite IH.
  destruct xs as [|y ys]; [ reflexivity | ].
  cbn [insert_sorted]. inversion Hx; subst.
  destruct (Z.leb_spec x y); [ reflexivity | lia ].
Qed.

Lemma read_irrep_head_k (f : file) (h : irrep_head) (f1 : file) :
  read_irrep_head f = OK (h, f1) -> List.length (hd_k h) = 3%nat.
Proof.
  unfold read_irrep_head. destruct (readline f) as [l f0]. intros H.
  do 10 inv_ok H. injection H as <- _. cbn [hd_k].
  apply mapM_length in E. rewrite E, length_firstn.
  unfold index in E7. destruct (nth_error (Str.split l) 8) eqn:Hnth;
    [ | discriminate E7 ].
  assert (8 < List.length (Str.split l))%nat
    by (apply nth_error_Some; congruence).
  lia.
Qed.

(** An irrep that the machine constructor accepts: the keys of its
    characters increase strictly, every key [k] has [1 <= k] and
    [2 k <= nsym_group], and the characters are [nsym] in number, so that
    [nsym] is at least zero and at most the half of [nsym_group]; the set of
    the keys is listed as the keys are; [hasuvw] is set and the k-point has
    three coordinates. *)
Lemma Irrep_init_invariant (f : file) (nsym_group : Z) (irr : Irrep)
  (f' : file) :
  Irrep_init f nsym_group = OK (irr, f') ->
  Sorted.StronglySorted Z.lt (keys (irr_characters irr)) /\
  Forall (fun k => 1 <= k /\ 2 * k <= nsym_group)
         (keys (irr_characters irr)) /\
  py_set (keys (irr_characters irr)) = keys (irr_characters irr) /\
  Z.of_nat (List.length (irr_characters irr)) = irr_nsym irr /\
  0 <= irr_nsym irr /\
  2 * irr_nsym irr <= Z.max 0 nsym_group /\
  irr_hasuvw irr <> None /\
  List.length (irr_k irr) = 3%nat.
Proof.
  intros H.
  destruct (Irrep_init_reads _ _ _ _ H) as (h & f1 & slots & Hh & Hs).
  destruct (Irrep_init_unfold _ _ _ _ _ _ Hh Hs) as [Hnd Hu].
  rewrite Hu in H. clear Hu.
  inv_ok H. inv_ok H. injection H as <-.
  cbn [irr_characters irr_nsym irr_hasuvw irr_k].
  apply py_assert_ok, Z.eqb_eq in E0.
  assert (Hkeys : keys a = keys (retained nsym_group slots)).
  { destruct (parameterized slots); cbn [negb] in E.
    - injection E as <-. apply callables_keys.
    - now apply reduced_keys, reduce_characters_callables. }
  assert (Hinc : Sorted.StronglySorted Z.lt (keys a)).
  { rewrite Hkeys. apply retained_increasing.
    rewrite (read_slots_lines_keys _ _ _ _ _ Hs). apply range_increasing. }
  assert (Hb : Forall (fun k => 1 <= k /\ 2 * k <= nsym_group) (keys a)).
  { rewrite Hkeys. apply Forall_forall. intros k Hk. split.
    - apply retained_keys_incl in Hk.
      rewrite (read_slots_lines_keys _ _ _ _ _ Hs) in Hk.
      apply range_In in Hk. lia.
    - pose proof (retained_keys_bound nsym_group slots) as Hall.
      rewrite Forall_forall in Hall. now apply Hall. }
  assert (Hlen : (List.length (keys a)
                  <= Z.to_nat (Z.quot nsym_group 2))%nat).
  { rewrite <- (range_length 1 (Z.to_nat (Z.quot nsym_group 2))).
    apply NoDup_incl_length; [ now rewrite Hkeys | ].
    intros k Hk. rewrite Forall_forall in Hb. apply Hb in Hk.
    apply range_In.
    assert (0 <= nsym_group) by lia.
    assert (k <= Z.quot nsym_group 2)
      by (apply Z.quot_le_lower_bound; lia).
    lia. }
  unfold keys in Hlen at 1. rewrite length_map in Hlen.
  split; [ exact Hinc | ]. split; [ exact Hb | ].
  split; [ now apply py_set_increasing | ].
  split; [ exact E0 | ]. split; [ lia | ]. split; [ | split; [ discriminate | ] ].
  - destruct (Z.le_gt_cases 0 nsym_group) as [Hn|Hn].
    + pose proof (Z.quot_rem' nsym_group 2).
      pose proof (Z.rem_bound_pos nsym_group 2 Hn). lia.
    + assert (Z.quot nsym_group 2 <= 0).
      { pose proof (Z.quot_rem' nsym_group 2).
        pose proof (Z.rem_bound_abs nsym_group 2). lia. }
      lia.
  - exact (read_irrep_head_k _ _ _ Hh).
Qed.

(** ** The tables of the legacy loader *)

Lemma scan_irreps_Forall (P : Irrep -> Prop) (nsym_group : Z) (fuel : nat) :
  (forall f irr f', Irrep_init f nsym_group = OK (irr, f') -> P irr) ->
  forall acc f irreps,
    scan_irreps fuel nsym_group acc f = Some (OK irreps) ->
    Forall P acc -> Forall P irreps.
Proof.
  intros HP. induction fuel as [|fuel IH]; intros acc f irreps H Hacc;
    cbn [scan_irreps] in H; [ discriminate H | ].
  destruct (Irrep_init f nsym_group) as [[irr f']|e] eqn:E.
  - apply (IH _ _ _ H). apply Forall_app. split; [ exact Hacc | ].
    constructor; [ exact (HP _ _ _ E) | constructor ].
  - destruct e; try discriminate H. now injection H as <-.
Qed.

(** A table of the legacy loader: the count [n] of its first line and the
    records read with it, of which the table keeps those of its flag. *)
Lemma legacy_loader_records (SGnumber : Z) (spinor : bool) (f : file)
  (T : IrrepTable) :
  IrrepTable_init SGnumber spinor f = Some (OK T) ->
  exists n name records,
    tab_nsym T = Z.quot n 2 /\
    tab_name T = Some name /\
    tab_irreps T
    = filter (fun s => Bool.eqb (Str.startswith "-" (irr_name s)) spinor)
             records /\
    Forall (fun irr => exists f0 f', Irrep_init f0 n = OK (irr, f')) records.
Proof.
  unfold IrrepTable_init, IrrepTable_init_fuel.
  destruct (readline f) as [l f1].
  destruct (Str.split l) as [|tn [|name [|? ?]]]; try discriminate.
  match goal with
  | |- context [match ?r with OK _ => _ | Raise _ => _ end] =>
      destruct r as [[[[nsym symmetries] NK] f2]|e]
  end; [ | discriminate ].
  destruct (scan_irreps _ nsym [] f2) as [[records|e]|] eqn:Es;
    try discriminate.
  intros H. injection H as <-.
  exists nsym, name, records.
  cbn [tab_nsym tab_name tab_irreps].
  split; [ reflexivity | ]. split; [ reflexivity | ]. split.
  - destruct spinor; apply filter_ext; intros s;
      now destruct (Str.startswith "-" (irr_name s)).
  - apply (scan_irreps_Forall _ nsym _) with (2 := Es); [ | constructor ].
    intros f0 irr f' E. now exists f0, f'.
Qed.

(** Every irrep of a table that the legacy loader returns: its label starts
    with [-] exactly when the table was asked for with the spinor flag; the
    keys of its characters increase and lie between [1] and the [nsym] of the
    table; the characters are [nsym] of the irrep in number, which is at most
    the [nsym] of the table; [hasuvw] is set and the k-point has three
    coordinates. *)
Theorem legacy_loader_irreps (SGnumber : Z) (spinor : bool) (f : file)
  (T : IrrepTable) :
  IrrepTable_init SGnumber spinor f = Some (OK T) ->
  Forall (fun irr =>
            Str.startswith "-" (irr_name irr) = spinor /\
            Sorted.StronglySorted Z.lt (keys (irr_characters irr)) /\
            Forall (fun k => 1 <= k <= tab_nsym T)
                   (keys (irr_characters irr)) /\
            Z.of_nat (List.length (irr_characters irr)) = irr_nsym irr /\
            irr_nsym irr <= Z.max 0 (tab_nsym T) /\
            irr_hasuvw irr <> None /\
            List.length (irr_k irr) = 3%nat)
         (tab_irreps T).
Proof.
  intros H.
  destruct (legacy_loader_records _ _ _ _ H)
    as (n & name & records & Hn & _ & Hirr & Hrec).
  rewrite Hirr, Hn. clear H Hirr Hn.
  rewrite Forall_forall in *. intros irr Hin.
  apply filter_In in Hin. destruct Hin as [Hin Hflag].
  destruct (Hrec _ Hin) as (f0 & f' & E).
  destruct (Irrep_init_invariant _ _ _ _ E)
    as (Hinc & Hb & _ & Hcount & H0 & Hhalf & Hu & Hk).
  split; [ now apply Bool.eqb_prop | ].
  split; [ exact Hinc | ].
  assert (Hq : forall k, 0 <= k -> 2 * k <= n -> k <= Z.quot n 2).
  { intros k Hk0 Hk2. apply Z.quot_le_lower_bound; lia. }
  split; [ | split; [ exact Hcount | split; [ | now split ] ] ].
  - apply Forall_forall. intros k Hkin. rewrite Forall_forall in Hb.
    apply Hb in Hkin. split; [ lia | ]. apply Hq; lia.
  - destruct (Z.le_gt_cases 0 n); [ | lia ].
    assert (irr_nsym irr <= Z.quot n 2) by (apply Hq; lia). lia.
Qed.

(** ** [save4user] on the tables of the legacy loader *)

Lemma KPoint_eq_same_shape (kp kp' : KPoint) :
  List.length (kp_k kp) = List.length (kp_k kp') ->
  exists b, KPoint_eq kp kp' = OK b.
Proof.
  intros Hlen. unfold KPoint_eq, broadcast2.
  destruct (negb _); [ now eexists | ].
  rewrite Hlen, Nat.eqb_refl. cbn [bind].
  destruct (fgtb _ _); [ now eexists | ].
  destruct (negb _); now eexists.
Qed.

Lemma add_kpoint_same_shape (n : nat) (irr : Irrep)
  (d : list (string * KPoint)) :
  irr_hasuvw irr <> None ->
  List.length (irr_k irr) = n ->
  Forall (fun nkp => List.length (kp_k (snd nkp)) = n) d ->
  (exists d', add_kpoint irr d = OK d' /\
              Forall (fun nkp => List.length (kp_k (snd nkp)) = n) d') \/
  add_kpoint irr d = Raise AssertionError.
Proof.
  intros Hu Hk Hd. unfold add_kpoint.
  destruct (irr_hasuvw irr) as [b|]; [ | contradiction ].
  cbn [or_raise bind].
  destruct b; cbn [negb]; [ left; now exists d | ].
  destruct (no_reserved _); [ | left; now exists d ].
  destruct (dict_get String.eqb (kp_name (KPoint_of_irrep irr)) d)
    as [kp0|] eqn:Eg.
  - apply dict_get_In with (1 := String.eqb_spec) in Eg.
    rewrite Forall_forall in Hd. pose proof (Hd _ Eg) as H0.
    cbn [snd] in H0.
    destruct (KPoint_eq_same_shape kp0 (KPoint_of_irrep irr)) as [b Hb];
      [ cbn [KPoint_of_irrep kp_k]; congruence | ].
    rewrite Hb. cbn [bind]. destruct b; cbn [py_assert bind].
    + left. exists d. split; [ reflexivity | now apply Forall_forall ].
    + now right.
  - left. eexists. split; [ reflexivity | ].
    apply dict_get_None with (1 := String.eqb_spec) in Eg.
    rewrite (dict_set_new _ String.eqb_spec _ _ _ Eg).
    apply Forall_app. split; [ exact Hd | ].
    constructor; [ exact Hk | constructor ].
Qed.

Lemma collect_same_shape (n : nat) (irreps : list Irrep) :
  Forall (fun irr => irr_hasuvw irr <> None /\ List.length (irr_k irr) = n)
         irreps ->
  forall d,
    Forall (fun nkp => List.length (kp_k (snd nkp)) = n) d ->
    (exists d', foldM add_kpoint irreps d = OK d') \/
    foldM add_kpoint irreps d = Raise AssertionError.
Proof.
  induction 1 as [|irr irreps [Hu Hk] _ IH]; intros d Hd; cbn [foldM].
  - left. now exists d.
  - destruct (add_kpoint_same_shape n irr d Hu Hk Hd) as [(d' & -> & Hd')| ->];
      cbn [bind]; [ now apply IH | now right ].
Qed.

Lemma write_irreps_extends (kpname : string) (irreps : list Irrep) :
  forall out, exists more,
    fst (write_irreps kpname irreps out) = (out ++ more)%list.
Proof.
  induction irreps as [|irr irreps IH]; intros out; cbn [write_irreps].
  - exists []. cbn. now rewrite app_nil_r.
  - destruct (irr_kpname irr =? kpname)%string; [ | apply IH ].
    destruct (Irrep_str irr) as [line|e].
    + destruct (IH (out ++ [(line ++ nl)%string])%list) as [more ->].
      rewrite <- app_assoc. now eexists.
    + exists []. cbn. now rewrite app_nil_r.
Qed.

Lemma write_kpoints_extends (T : IrrepTable) (kps : list KPoint) :
  forall out, exists more,
    fst (write_kpoints T kps out) = (out ++ more)%list.
Proof.
  induction kps as [|kp kps IH]; intros out; cbn [write_kpoints].
  - exists []. cbn. now rewrite app_nil_r.
  - destruct (write_irreps_extends (kp_name kp) (tab_irreps T)
                (out ++ [kpoint_text kp])%list) as [more Hm].
    destruct (write_irreps _ _ _) as [out' [u|e]]; cbn [fst] in Hm; subst out'.
    + destruct (IH ((out ++ [kpoint_text kp]) ++ more)%list) as [more' ->].
      rewrite <- !app_assoc. now eexists.
    + cbn [fst]. rewrite <- app_assoc. now eexists.
Qed.

(** [save4user] on a table that the legacy loader returns: the header and
    the operations are always written first, and the loop that collects the
    k-points either completes or stops on the assertion that two irreps of a
    name give equal k-points: it raises neither the [AttributeError] of a
    missing [hasuvw] nor the [ValueError] of coordinates that do not
    broadcast. *)
Theorem save4user_of_legacy_table (SGnumber : Z) (spinor : bool) (f : file)
  (T : IrrepTable) :
  IrrepTable_init SGnumber spinor f = Some (OK T) ->
  exists h rest,
    header_text T = OK h /\
    fst (save4user T) = h :: symmetries_text T :: rest /\
    ((exists kpoints, foldM add_kpoint (tab_irreps T) [] = OK kpoints) \/
     save4user T = ([h; symmetries_text T], Raise AssertionError)).
Proof.
  intros H.
  destruct (legacy_loader_records _ _ _ _ H)
    as (n & name & records & Hn & Hname & Hirr & Hrec).
  assert (Hshape : Forall (fun irr => irr_hasuvw irr <> None /\
                                      List.length (irr_k irr) = 3%nat)
                          (tab_irreps T)).
  { rewrite Hirr. rewrite Forall_forall in *. intros irr Hin.
    apply filter_In in Hin. destruct Hin as [Hin _].
    destruct (Hrec _ Hin) as (f0 & f' & E).
    destruct (Irrep_init_invariant _ _ _ _ E)
      as (_ & _ & _ & _ & _ & _ & Hu & Hk). now split. }
  unfold save4user, header_text. rewrite Hname. cbn [or_raise bind].
  eexists. 
  destruct (collect_same_shape 3 _ Hshape [] (Forall_nil _))
    as [[kpoints Hc]|Hc]; rewrite Hc.
  - destruct (write_kpoints_extends T (values kpoints)
                [("SG=" ++ Str.of_int (tab_number T) ++ nl
                  ++ " name=" ++ name ++ " " ++ nl
                  ++ " nsym= " ++ Str.of_int (tab_nsym T) ++ nl
                  ++ " spinor=" ++ Str.of_bool (tab_spinor T) ++ nl)%string;
                 symmetries_text T]) as [more Hm].
    exists more. split; [ reflexivity | ]. split; [ exact Hm | ].
    left. now exists kpoints.
  - exists []. split; [ reflexivity | ]. split; [ reflexivity | ].
    now right.
Qed.

(** ** [CharFunction]: rows and their entries *)

(** A [CharFunction] is defined at every point exactly when none of its rows
    is empty; with an empty row the call raises [IndexError], whatever the
    other rows. *)
Theorem CharFunction_call_rows (abcde : list (list float64))
  (u v w : float64) :
  (In [] abcde -> CharFunction_call abcde u v w = Raise IndexError) /\
  (~ In [] abcde -> exists z, CharFunction_call abcde u v w = OK z).
Proof.
  unfold CharFunction_call.
  induction abcde as [|aaa abcde [IHe IHd]]; cbn [mapM In].
  - split; [ intros [] | intros _; now eexists ].
  - destruct aaa as [|a0 rest]; cbn [bind].
    + split; [ reflexivity | intros H; exfalso; apply H; now left ].
    + split.
      * intros [Heq|Hin]; [ discriminate Heq | ].
        specialize (IHe Hin).
        destruct (mapM _ abcde); cbn [bind] in *;
          [ discriminate IHe | exact IHe ].
      * intros Hnot. destruct IHd as [z Hz]; [ tauto | ].
        destruct (mapM _ abcde); cbn [bind] in *;
          [ now eexists | discriminate Hz ].
Qed.

(** Only the first five entries of a row count: the coefficient and the
    factors of [1], [u], [v] and [w]. Anything that follows in a row is
    ignored. *)
Theorem CharFunction_call_firstn (abcde : list (list float64))
  (u v w : float64) :
  CharFunction_call (map (firstn 5) abcde) u v w
  = CharFunction_call abcde u v w.
Proof.
  unfold CharFunction_call. f_equal.
  induction abcde as [|aaa abcde IH]; [ reflexivity | ].
  cbn [map mapM]. rewrite IH. f_equal.
  destruct aaa as [|a0 [|a1 [|a2 [|a3 [|a4 [|a5 rest]]]]]]; reflexivity.
Qed.

(** ** [SymopTable]: how many numbers a line must hold *)

Lemma chunks_shaped {A} (rows cols : nat) :
  forall xs : list A,
    List.length xs = (rows * cols)%nat -> shaped rows cols (chunks rows cols xs).
Proof.
  unfold shaped. induction rows as [|rows IH]; intros xs Hlen; cbn [chunks].
  - split; [ reflexivity | constructor ].
  - destruct (IH (skipn cols xs)) as [H1 H2];
      [ rewrite length_skipn; lia | ].
    cbn [List.length]. split; [ now rewrite H1 | ].
    constructor; [ rewrite length_firstn; lia | exact H2 ].
Qed.

Lemma reshape_shaped {A} (rows cols : nat) (xs : list A)
  (m : list (list A)) :
  reshape rows cols xs = OK m ->
  List.length xs = (rows * cols)%nat /\ shaped rows cols m.
Proof.
  unfold reshape.
  destruct (Nat.eqb_spec (List.length xs) (rows * cols)) as [Hlen|_];
    [ | discriminate ].
  intros H. injection H as <-. split; [ exact Hlen | ].
  now apply chunks_shaped.
Qed.

Lemma evens_length {A} (xs : list A) :
  (2 * List.length (evens xs) = List.length xs
   \/ 2 * List.length (evens xs) = S (List.length xs))%nat.
Proof.
  assert (H : forall xs : list A,
             ((2 * List.length (evens xs) = List.length xs
               \/ 2 * List.length (evens xs) = S (List.length xs))
              /\ forall x,
                  (2 * List.length (evens (x :: xs)) = List.length (x :: xs)
                   \/ 2 * List.length (evens (x :: xs))
                      = S (List.length (x :: xs))))%nat).
  { clear xs. induction xs as [|y xs [IH1 IH2]].
    - split; [ now left | intros x; now right ].
    - split; [ apply IH2 | ].
      intros x. cbn [evens List.length]. lia. }
  apply H.
Qed.

Lemma map2_length_min {A B C} (f : A -> B -> C) (xs : list A) :
  forall ys, List.length (map2 f xs ys)
             = Nat.min (List.length xs) (List.length ys).
Proof.
  induction xs as [|x xs IH]; intros [|y ys]; cbn [map2 List.length];
    try reflexivity.
  now rewrite IH.
Qed.

Lemma broadcast2_length {A B C} (f : A -> B -> C) (xs : list A)
  (ys : list B) (zs : list C) :
  broadcast2 f xs ys = OK zs ->
  (List.length xs = List.length ys /\ List.length zs = List.length xs)
  \/ (List.length xs = 1%nat /\ List.length zs = List.length ys)
  \/ (List.length ys = 1%nat /\ List.length zs = List.length xs).
Proof.
  unfold broadcast2.
  destruct (Nat.eqb_spec (List.length xs) (List.length ys)) as [Hlen|_].
  - intros H. injection H as <-. left. split; [ exact Hlen | ].
    rewrite map2_length_min. lia.
  - destruct xs as [|x [|x' xs]].
    + destruct ys as [|y [|y' ys]]; intros H; try discriminate H.
      injection H as <-. right. right. now split.
    + intros H. injection H as <-. right. left.
      split; [ reflexivity | apply length_map ].
    + destruct ys as [|y [|y' ys]]; intros H; try discriminate H.
      injection H as <-. right. right.
      split; [ reflexivity | cbn [List.length]; now rewrite length_map ].
Qed.

Lemma polar_array_length (mags phases : list float64) (zs : list num) :
  polar_array mags phases = OK zs ->
  (List.length mags = List.length phases
   /\ List.length zs = List.length mags)
  \/ (List.length mags = 1%nat /\ List.length zs = List.length phases)
  \/ (List.length phases = 1%nat /\ List.length zs = List.length mags).
Proof.
  unfold polar_array. intros H. inv_ok H. injection H as <-.
  rewrite length_map. exact (broadcast2_length _ _ _ _ E).
Qed.

(** An operation in the machine encoding is read from a line of exactly
    twenty numbers, no more and no fewer; it has a 3 x 3 rotation, three
    translation components and a 2 x 2 spinor matrix. *)
Theorem SymopTable_init_shape (line : string) (s : SymopTable) :
  SymopTable_init line = OK s ->
  List.length (Str.split line) = 20%nat /\
  shaped 3 3 (sym_R s) /\
  List.length (sym_t s) = 3%nat /\
  shaped 2 2 (sym_S s).
Proof.
  unfold SymopTable_init. intros H. do 8 inv_ok H. subst s.
  cbn [sym_R sym_t sym_S].
  apply mapM_length in E, E1, E2, E3.
  apply reshape_shaped in E0, E5. destruct E0 as [Hr HR], E5 as [Hs HS].
  apply polar_array_length in E4.
  unfold slice in E1.
  rewrite length_firstn in E. rewrite length_firstn, length_skipn in E1.
  pose proof (evens_length (skipn 12 (Str.split line))) as Hm.
  pose proof (evens_length (skipn 13 (Str.split line))) as Hp.
  rewrite length_skipn in Hm, Hp.
  assert (Hn : List.length (Str.split line) = 20%nat) by lia.
  split; [ exact Hn | ]. split; [ exact HR | ].
  split; [ lia | exact HS ].
Qed.

(** An operation in the user encoding is read from a line of nine to twelve
    numbers, of seventeen, or of twenty and more. It has a 3 x 3 rotation
    and a 2 x 2 spinor matrix, the identity when the line has at most twelve
    numbers; the translation has as many components as the line has numbers
    after the ninth, three at most. *)
Theorem SymopTable_init_from_user_shape (line : string) (s : SymopTable) :
  SymopTable_init_from_user line = OK s ->
  let n := List.length (Str.split line) in
  (9 <= n)%nat /\
  (n <= 12 \/ n = 17 \/ 20 <= n)%nat /\
  shaped 3 3 (sym_R s) /\
  List.length (sym_t s) = Nat.min 3 (n - 9) /\
  shaped 2 2 (sym_S s) /\
  ((n <= 12)%nat -> sym_S s = eye2).
Proof.
  unfold SymopTable_init_from_user. intros H. do 3 inv_ok H.
  apply mapM_length in E, E1.
  apply reshape_shaped in E0. destruct E0 as [Hr HR].
  unfold slice in E1.
  rewrite length_firstn in E. rewrite length_firstn, length_skipn in E1.
  cbn zeta.
  destruct (Nat.ltb_spec 12 (List.length (Str.split line))) as [Hgt|Hle].
  - do 5 inv_ok H. subst s. cbn [sym_R sym_t sym_S].
    apply mapM_length in E0, E2.
    apply reshape_shaped in E4. destruct E4 as [Hs HS].
    apply polar_array_length in E3.
    unfold slice in E0, E2.
    rewrite length_firstn, length_skipn in E0, E2.
    split; [ lia | ]. split; [ lia | ]. split; [ exact HR | ].
    split; [ lia | ]. split; [ exact HS | lia ].
  - injection H as <-. cbn [sym_R sym_t sym_S].
    split; [ lia | ]. split; [ lia | ]. split; [ exact HR | ].
    split; [ lia | ]. split; [ | reflexivity ].
    split; [ reflexivity | repeat constructor ].
Qed.

(** ** Strings: [split] after [join] *)

Lemma append_assoc (a b c : string) : ((a ++ b) ++ c)%string = (a ++ b ++ c)%string.
Proof. induction a as [|x a IH]; cbn; [ reflexivity | now rewrite IH ]. Qed.

Lemma append_nil_r (a : string) : (a ++ "")%string = a.
Proof. induction a as [|x a IH]; cbn; [ reflexivity | now rewrite IH ]. Qed.

Lemma all_chars_app (p : ascii -> bool) (a b : string) :
  all_chars p (a ++ b) = all_chars p a && all_chars p b.
Proof.
  induction a as [|x a IH]; cbn; [ reflexivity | ].
  now rewrite IH, andb_assoc.
Qed.

Lemma all_chars_join (p : ascii -> bool) (sep : string) (toks : list string) :
  all_chars p sep = true ->
  Forall (fun t => all_chars p t = true) toks ->
  all_chars p (Str.join sep toks) = true.
Proof.
  intros Hsep. unfold Str.join.
  induction 1 as [|t toks Ht _ IH]; [ reflexivity | ].
  destruct toks as [|t' toks]; [ exact Ht | ].
  change (String.concat sep (t :: t' :: toks))
    with (t ++ sep ++ String.concat sep (t' :: toks))%string.
  now rewrite !all_chars_app, Ht, Hsep, IH.
Qed.

Lemma split_from_word (t : string) :
  all_chars (fun c => negb (Str.isspace c)) t = true ->
  forall tok s,
    Str.split_from tok (t ++ s) = Str.split_from (tok ++ t) s.
Proof.
  induction t as [|c t IH]; intros Ht tok s.
  - cbn [append]. now rewrite append_nil_r.
  - cbn [all_chars] in Ht. apply andb_prop in Ht. destruct Ht as [Hc Ht].
    apply negb_true_iff in Hc.
    cbn [append Str.split_from]. rewrite Hc, (IH Ht).
    unfold Str.snoc. now rewrite append_assoc.
Qed.

Lemma split_word_then (t s : string) :
  is_word t = true -> starts_blank s = true ->
  Str.split (t ++ s) = t :: Str.split s.
Proof.
  unfold is_word, Str.split. intros Ht Hs.
  apply andb_prop in Ht. destruct Ht as [Hne Ht].
  apply negb_true_iff in Hne.
  rewrite (split_from_word t Ht). cbn [append].
  destruct s as [|c s]; cbn [Str.split_from starts_blank] in *.
  - now rewrite Hne.
  - now rewrite Hs, Hne.
Qed.

Lemma split_blank (sep s : string) :
  all_chars Str.isspace sep = true -> Str.split (sep ++ s) = Str.split s.
Proof.
  unfold Str.split. induction sep as [|c sep IH]; intros H; [ reflexivity | ].
  cbn [all_chars] in H. apply andb_prop in H. destruct H as [Hc H].
  cbn [append Str.split_from]. rewrite Hc. cbn [Str.is_empty]. now apply IH.
Qed.

(** Words joined by whitespace split into the words. *)
Lemma split_join (sep : string) (toks : list string) (rest : string) :
  all_chars Str.isspace sep = true ->
  Str.is_empty sep = false ->
  Forall (fun t => is_word t = true) toks ->
  starts_blank rest = true ->
  Str.split (Str.join sep toks ++ rest) = (toks ++ Str.split rest)%list.
Proof.
  intros Hsep Hne Htoks Hrest. unfold Str.join.
  induction Htoks as [|t toks Ht _ IH]; [ reflexivity | ].
  destruct toks as [|t' toks].
  - cbn [String.concat app]. now apply split_word_then.
  - change (String.concat sep (t :: t' :: toks))
      with (t ++ sep ++ String.concat sep (t' :: toks))%string.
    rewrite !append_assoc. rewrite split_word_then; [ | exact Ht | ].
    + rewrite split_blank by exact Hsep. now rewrite IH.
    + destruct sep as [|c sep]; [ discriminate Hne | ].
      cbn [all_chars] in Hsep. apply andb_prop in Hsep.
      now destruct Hsep.
Qed.

Lemma split_on_from_field (sep : ascii) (a : string) :
  free_of sep a = true ->
  forall tok s,
    Str.split_on_from sep tok (a ++ String sep s)
    = (tok ++ a)%string :: Str.split_on_from sep "" s.
Proof.
  unfold free_of. induction a as [|c a IH]; intros Ha tok s.
  - cbn [append Str.split_on_from]. now rewrite Ascii.eqb_refl, append_nil_r.
  - cbn [all_chars] in Ha. apply andb_prop in Ha. destruct Ha as [Hc Ha].
    apply negb_true_iff in Hc.
    cbn [append Str.split_on_from]. rewrite Hc, (IH Ha).
    unfold Str.snoc. now rewrite append_assoc.
Qed.

Lemma split_on_from_last (sep : ascii) (a : string) :
  free_of sep a = true ->
  forall tok, Str.split_on_from sep tok a = [(tok ++ a)%string].
Proof.
  unfold free_of. induction a as [|c a IH]; intros Ha tok.
  - cbn [Str.split_on_from]. now rewrite append_nil_r.
  - cbn [all_chars] in Ha. apply andb_prop in Ha. destruct Ha as [Hc Ha].
    apply negb_true_iff in Hc.
    cbn [Str.split_on_from]. rewrite Hc, (IH Ha).
    unfold Str.snoc. now rewrite append_assoc.
Qed.

(** ** Strings: the digits of an integer *)

Lemma digit_char (d : Z) :
  0 <= d < 10 ->
  In (ascii_of_N (Z.to_N (48 + d)))
     ["0"; "1"; "2"; "3"; "4"; "5"; "6"; "7"; "8"; "9"]%char /\
  Str.digit (ascii_of_N (Z.to_N (48 + d))) = Some d.
Proof.
  intros Hd.
  assert (H : d = 0 \/ d = 1 \/ d = 2 \/ d = 3 \/ d = 4 \/ d = 5 \/ d = 6
              \/ d = 7 \/ d = 8 \/ d = 9) by lia.
  repeat (destruct H as [->|H]; [ split; [ cbn; tauto | reflexivity ] | ]).
  subst d. split; [ cbn; tauto | reflexivity ].
Qed.

Lemma digits_of_pos_chars (p : ascii -> bool) (fuel : nat) :
  forallb p ["0"; "1"; "2"; "3"; "4"; "5"; "6"; "7"; "8"; "9"]%char = true ->
  forall n acc,
    all_chars p acc = true ->
    all_chars p (Str.digits_of_pos fuel n acc) = true.
Proof.
  intros Hp. induction fuel as [|fuel IH]; intros n acc Hacc;
    cbn [Str.digits_of_pos]; [ exact Hacc | ].
  assert (Hc : all_chars p
                 (String (ascii_of_N (Z.to_N (48 + n mod 10))) acc) = true).
  { cbn [all_chars]. rewrite Hacc, andb_true_r.
    rewrite forallb_forall in Hp. apply Hp.
    apply digit_char. apply Z.mod_pos_bound. lia. }
  destruct (n <? 10); [ exact Hc | now apply IH ].
Qed.

Lemma of_int_chars (p : ascii -> bool) (n : Z) :
  forallb p ["-"; "0"; "1"; "2"; "3"; "4"; "5"; "6"; "7"; "8"; "9"]%char
  = true ->
  all_chars p (Str.of_int n) = true.
Proof.
  intros Hp. cbn [forallb] in Hp. apply andb_prop in Hp.
  destruct Hp as [Hm Hp]. unfold Str.of_int.
  destruct (n <? 0); [ cbn [all_chars]; rewrite Hm; cbn [andb] | ];
    now apply digits_of_pos_chars.
Qed.

(** ** The line of a k-point, read back *)

(** The text of a k-point with the marker [kpoint] in front, read by the
    constructor from a line. *)
Lemma KPoint_str_parses (kp : KPoint) (k' : list float64)
  (isym' : list Z) :
  is_word (kp_name kp) = true ->
  free_of ":" (kp_name kp) = true ->
  Forall (fun x => is_word (str_float x) = true
                   /\ free_of ":" (str_float x) = true) (kp_k kp) ->
  float_array (map str_float (kp_k kp)) = OK k' ->
  str2list_space
    (" " ++ Str.join " " (map Str.of_int (sorted (kp_isym kp)))) = OK isym' ->
  KPoint_of_line ("kpoint  " ++ KPoint_str kp)
  = OK {| kp_name := kp_name kp; kp_k := k'; kp_isym := isym' |}.
Proof.
  intros Hname Hcolon Hk Hparse Hisym.
  set (K := Str.join " " (map str_float (kp_k kp))).
  set (I := Str.join " " (map Str.of_int (sorted (kp_isym kp)))) in *.
  assert (Hline : ("kpoint  " ++ KPoint_str kp)%string
                  = (("kpoint  " ++ kp_name kp ++ " ")
                     ++ String ":" ((" " ++ K ++ "  ")
                                    ++ String ":" (" " ++ I)))%string).
  { unfold KPoint_str. fold K. fold I.
    cbn [append]. rewrite !append_assoc. cbn [append]. reflexivity. }
  assert (HK : free_of ":" K = true).
  { apply all_chars_join; [ reflexivity | ].
    apply Forall_map. eapply Forall_impl; [ | exact Hk ].
    now intros x [_ Hx]. }
  assert (HI : free_of ":" I = true).
  { apply all_chars_join; [ reflexivity | ].
    apply Forall_map. apply Forall_forall. intros n _.
    now apply of_int_chars. }
  unfold KPoint_of_line. rewrite Hline. unfold Str.split_on.
  rewrite split_on_from_field.
  2:{ unfold free_of in *. cbn [append all_chars]. 
      rewrite all_chars_app, Hcolon. reflexivity. }
  rewrite split_on_from_field.
  2:{ unfold free_of in *. cbn [append all_chars].
      rewrite all_chars_app, HK. reflexivity. }
  rewrite split_on_from_last.
  2:{ unfold free_of in *. cbn [append all_chars]. now rewrite HI. }
  cbn [append index nth_error or_raise bind].
  assert (Hsplit0 : Str.split
                      (String "k" (String "p" (String "o" (String "i"
                         (String "n" (String "t" (String " " (String " "
                            (kp_name kp ++ " ")))))))))
                    = ["kpoint"; kp_name kp]).
  { change (Str.split ("kpoint" ++ "  " ++ kp_name kp ++ " ")
            = ["kpoint"; kp_name kp]).
    rewrite split_word_then by reflexivity.
    rewrite split_blank by reflexivity.
    rewrite split_word_then by (assumption || reflexivity).
    reflexivity. }
  rewrite Hsplit0. cbn [index nth_error or_raise bind String.eqb Ascii.eqb
                         Bool.eqb negb].
  assert (Hsplit1 : Str.split (String " " (K ++ "  "))
                    = map str_float (kp_k kp)).
  { change (Str.split (" " ++ K ++ "  ") = map str_float (kp_k kp)).
    rewrite split_blank by reflexivity. unfold K.
    rewrite split_join; try reflexivity.
    - change (Str.split "  ") with (@nil string). now rewrite app_nil_r.
    - apply Forall_map. eapply Forall_impl; [ | exact Hk ].
      now intros x [Hx _]. }
  rewrite Hsplit1, Hparse. cbn [bind].
  change (String " " I) with (" " ++ I)%string. rewrite Hisym. reflexivity.
Qed.

(** ** Strings: [int(str(n))] *)

Lemma digits_of_pos_S (fuel : nat) (n : Z) (acc : string) :
  Str.digits_of_pos (S fuel) n acc
  = if n <? 10
    then String (ascii_of_N (Z.to_N (48 + n mod 10))) acc
    else Str.digits_of_pos fuel (n / 10)
           (String (ascii_of_N (Z.to_N (48 + n mod 10))) acc).
Proof. reflexivity. Qed.

Lemma digits_digit (prev : bool) (a d : Z) (s : string) :
  0 <= d < 10 ->
  Str.digits prev a (String (ascii_of_N (Z.to_N (48 + d))) s)
  = Str.digits true (10 * a + d) s.
Proof.
  intros Hd. cbn [Str.digits]. now rewrite (proj2 (digit_char d Hd)).
Qed.

Lemma digits_of_pos_parse (fuel : nat) :
  forall n acc,
    0 <= n < 2 ^ Z.of_nat (S fuel) ->
    exists k,
      0 <= k /\
      forall prev a,
        Str.digits prev a (Str.digits_of_pos (S fuel) n acc)
        = Str.digits true (a * 10 ^ k + n) acc.
Proof.
  induction fuel as [|fuel IH]; intros n acc Hn; rewrite digits_of_pos_S.
  - change (2 ^ Z.of_nat 1) with 2 in Hn.
    destruct (Z.ltb_spec n 10); [ | lia ].
    exists 1. split; [ lia | ]. intros prev a.
    rewrite digits_digit by (apply Z.mod_pos_bound; lia).
    rewrite Z.mod_small by lia. f_equal. lia.
  - destruct (Z.ltb_spec n 10) as [Hlt|Hge].
    + exists 1. split; [ lia | ]. intros prev a.
      rewrite digits_digit by (apply Z.mod_pos_bound; lia).
      rewrite Z.mod_small by lia. f_equal. lia.
    + destruct (IH (n / 10)
                   (String (ascii_of_N (Z.to_N (48 + n mod 10))) acc))
        as (k & Hk & Hparse).
      { split; [ apply Z.div_pos; lia | ].
        apply Z.div_lt_upper_bound; [ lia | ].
        rewrite (Nat2Z.inj_succ (S fuel)), Z.pow_succ_r in Hn by lia.
        assert (0 < 2 ^ Z.of_nat (S fuel)) by (apply Z.pow_pos_nonneg; lia).
        lia. }
      exists (Z.succ k). split; [ lia | ]. intros prev a.
      rewrite Hparse.
      rewrite digits_digit by (apply Z.mod_pos_bound; lia).
      f_equal. rewrite Z.pow_succ_r by exact Hk.
      pose proof (Z.div_mod n 10). lia.
Qed.

Lemma digits_of_pos_head (fuel : nat) :
  forall n acc,
    exists c rest,
      Str.digits_of_pos (S fuel) n acc = String c rest /\
      In c ["0"; "1"; "2"; "3"; "4"; "5"; "6"; "7"; "8"; "9"]%char.
Proof.
  induction fuel as [|fuel IH]; intros n acc; rewrite digits_of_pos_S.
  - destruct (n <? 10); cbn [Str.digits_of_pos]; do 2 eexists;
      (split; [ reflexivity | apply digit_char, Z.mod_pos_bound; lia ]).
  - destruct (n <? 10); [ | apply IH ].
    do 2 eexists.
    split; [ reflexivity | apply digit_char, Z.mod_pos_bound; lia ].
Qed.

Lemma strip_word (s : string) :
  all_chars (fun c => negb (Str.isspace c)) s = true -> Str.strip s = s.
Proof.
  intros H. unfold Str.strip.
  assert (Hl : Str.lstrip s = s).
  { destruct s as [|c s]; [ reflexivity | ].
    cbn [all_chars] in H. apply andb_prop in H. destruct H as [Hc _].
    apply negb_true_iff in Hc. cbn [Str.lstrip]. now rewrite Hc. }
  rewrite Hl. induction s as [|c s IH]; [ reflexivity | ].
  cbn [all_chars] in H. apply andb_prop in H. destruct H as [Hc H].
  apply negb_true_iff in Hc. cbn [Str.rstrip].
  rewrite IH; [ now rewrite Hc, andb_false_r | exact H | ].
  destruct s as [|c' s]; [ reflexivity | ].
  cbn [all_chars] in H. apply andb_prop in H. destruct H as [Hc' _].
  apply negb_true_iff in Hc'. cbn [Str.lstrip]. now rewrite Hc'.
Qed.

Lemma of_int_word (n : Z) : is_word (Str.of_int n) = true.
Proof.
  unfold is_word. rewrite (of_int_chars _ n) by reflexivity.
  rewrite andb_true_r. unfold Str.of_int.
  destruct (n <? 0); [ reflexivity | ].
  destruct (digits_of_pos_head (Z.to_nat (Z.log2 n)) n "")
    as (c & rest & -> & _).
  reflexivity.
Qed.

Lemma log2_fuel (n : Z) : 0 <= n -> n < 2 ^ Z.of_nat (S (Z.to_nat (Z.log2 n))).
Proof.
  intros Hn. rewrite Nat2Z.inj_succ, Z2Nat.id by apply Z.log2_nonneg.
  destruct (Z.eq_dec n 0) as [->|Hne]; [ reflexivity | ].
  apply Z.log2_spec. lia.
Qed.

(** [int(str(n)) == n]. *)
Lemma to_int_of_int (n : Z) : Str.to_int (Str.of_int n) = Some n.
Proof.
  unfold Str.to_int.
  rewrite strip_word by (apply of_int_chars; reflexivity).
  unfold Str.of_int. destruct (Z.ltb_spec n 0) as [Hneg|Hpos].
  - destruct (digits_of_pos_parse (Z.to_nat (Z.log2 (- n))) (- n) "")
      as (k & _ & Hparse); [ split; [ lia | apply log2_fuel; lia ] | ].
    rewrite Hparse. cbn [Str.digits option_map]. f_equal; lia.
  - destruct (digits_of_pos_parse (Z.to_nat (Z.log2 n)) n "")
      as (k & _ & Hparse); [ split; [ lia | now apply log2_fuel ] | ].
    destruct (digits_of_pos_head (Z.to_nat (Z.log2 n)) n "")
      as (c & rest & Hhead & Hc).
    assert (Hgo : match Str.digits_of_pos (S (Z.to_nat (Z.log2 n))) n "" with
                  | String "-" s' => option_map Z.opp (Str.digits false 0 s')
                  | String "+" s' => Str.digits false 0 s'
                  | s' => Str.digits false 0 s'
                  end
                  = Str.digits false 0
                      (Str.digits_of_pos (S (Z.to_nat (Z.log2 n))) n "")).
    { rewrite Hhead. cbn [In] in Hc.
      repeat (destruct Hc as [<-|Hc]; [ reflexivity | ]). destruct Hc. }
    rewrite Hgo, Hparse. cbn [Str.digits]. f_equal; lia.
Qed.

(** ** The line of an operation, read back *)

(** Rows of words, the words of a row joined by whitespace and the rows
    joined by whitespace, split into the words of all the rows. *)
Lemma split_rows (sep sep' : string) (rows : list (list string))
  (rest : string) :
  all_chars Str.isspace sep = true -> Str.is_empty sep = false ->
  all_chars Str.isspace sep' = true -> Str.is_empty sep' = false ->
  Forall (Forall (fun t => is_word t = true)) rows ->
  starts_blank rest = true ->
  Str.split (Str.join sep (map (Str.join sep') rows) ++ rest)
  = (List.concat rows ++ Str.split rest)%list.
Proof.
  intros Hsep Hne Hsep' Hne' Hrows Hrest. unfold Str.join at 1.
  induction Hrows as [|row rows Hrow _ IH]; [ reflexivity | ].
  destruct rows as [|row' rows].
  - cbn [map String.concat List.concat]. rewrite app_nil_r.
    now apply split_join.
  - change (String.concat sep (map (Str.join sep') (row :: row' :: rows)))
      with (Str.join sep' row ++ sep
            ++ String.concat sep (map (Str.join sep') (row' :: rows)))%string.
    rewrite !append_assoc. rewrite split_join; try assumption.
    + rewrite split_blank by exact Hsep. rewrite IH.
      cbn [List.concat]. now rewrite app_assoc.
    + destruct sep as [|c sep]; [ discriminate Hne | ].
      cbn [all_chars] in Hsep. apply andb_prop in Hsep.
      now destruct Hsep.
Qed.

Lemma int_array_of_int (xs : list Z) : int_array (map Str.of_int xs) = OK xs.
Proof.
  unfold int_array. induction xs as [|x xs IH]; [ reflexivity | ].
  cbn [map mapM]. rewrite to_int_of_int. cbn [or_raise bind].
  now rewrite IH.
Qed.

Lemma reshape_concat {A} (rows cols : nat) :
  forall m : list (list A),
    shaped rows cols m -> reshape rows cols (List.concat m) = OK m.
Proof.
  unfold shaped, reshape. intros m [Hlen Hrows].
  assert (H : List.length (List.concat m) = (rows * cols)%nat
              /\ chunks rows cols (List.concat m) = m).
  { subst rows. induction Hrows as [|row m Hrow _ IH].
    - split; reflexivity.
    - destruct IH as [IH1 IH2].
      cbn [List.concat List.length chunks]. rewrite length_app.
      split; [ lia | ].
      rewrite firstn_app, skipn_app, Hrow, Nat.sub_diag.
      rewrite firstn_all2, skipn_all2 by lia.
      cbn [firstn skipn app]. rewrite app_nil_r. now rewrite IH2. }
  destruct H as [-> ->]. now rewrite Nat.eqb_refl.
Qed.

(** The tokens of the line of an operation: the entries of the rotation,
    the components of the translation and, with the spinor part, the
    magnitudes and then the phases of the spinor matrix. *)
Lemma SymopTable_str_tokens (s : SymopTable) (spinor : bool) :
  Forall (fun x => is_word (str_ x) = true)
         (sym_t s ++ map num_abs (List.concat (sym_S s))
          ++ map num_angle_pi (List.concat (sym_S s)))%list ->
  Str.split (SymopTable_str s spinor)
  = (map Str.of_int (List.concat (sym_R s))
     ++ map str_ (sym_t s)
     ++ if spinor
        then map str_ (map num_abs (List.concat (sym_S s)))
             ++ map str_ (map num_angle_pi (List.concat (sym_S s)))
        else [])%list.
Proof.
  intros Hwords.
  apply Forall_app in Hwords. destruct Hwords as [Hwt Hwords].
  apply Forall_app in Hwords. destruct Hwords as [Hwm Hwp].
  set (flat := List.concat (sym_S s)) in *.
  unfold SymopTable_str. fold flat.
  change (map (fun r => Str.join " " (map Str.of_int r)) (sym_R s))
    with (map (fun r => Str.join " " ((map Str.of_int) r)) (sym_R s)).
  rewrite <- (map_map (map Str.of_int) (Str.join " ")).
  rewrite split_rows; try reflexivity.
  2:{ apply Forall_map, Forall_forall. intros r _.
      apply Forall_map, Forall_forall. intros n _. apply of_int_word. }
  f_equal; [ symmetry; apply concat_map | ].
  rewrite split_blank by reflexivity.
  rewrite split_join; try reflexivity.
  2:{ now apply Forall_map. }
  2:{ now destruct spinor. }
  f_equal. destruct spinor; [ | reflexivity ].
  rewrite split_blank by reflexivity.
  change (map (fun X => Str.join "  " (map str_ X))
              [map num_abs flat; map num_angle_pi flat])
    with (map (Str.join "  ")
              [map str_ (map num_abs flat);
               map str_ (map num_angle_pi flat)]).
  rewrite <- (append_nil_r (Str.join _ _)).
  rewrite split_rows; try reflexivity.
  - cbn [List.concat]. now rewrite !app_nil_r.
  - repeat constructor; now apply Forall_map.
Qed.

(** A line with the tokens of the line of an operation, read in the user
    encoding. *)
Lemma SymopTable_tokens_parse (l : string) (s : SymopTable) (spinor : bool)
  (t' mags phases : list float64) :
  Str.split l
  = (map Str.of_int (List.concat (sym_R s))
     ++ map str_ (sym_t s)
     ++ if spinor
        then map str_ (map num_abs (List.concat (sym_S s)))
             ++ map str_ (map num_angle_pi (List.concat (sym_S s)))
        else [])%list ->
  shaped 3 3 (sym_R s) ->
  List.length (sym_t s) = 3%nat ->
  shaped 2 2 (sym_S s) ->
  float_array (map str_ (sym_t s)) = OK t' ->
  float_array (map str_ (map num_abs (List.concat (sym_S s)))) = OK mags ->
  float_array (map str_ (map num_angle_pi (List.concat (sym_S s))))
  = OK phases ->
  SymopTable_init_from_user l
  = OK {| sym_R := sym_R s; sym_t := t';
          sym_S := if spinor
                   then chunks 2 2 (map NComplex (map2 cpolar mags phases))
                   else eye2 |}.
Proof.
  intros Hsplit HR Ht HS Hpt Hpm Hpp.
  set (flat := List.concat (sym_S s)) in *.
  assert (Hflat : List.length flat = 4%nat).
  { destruct (reshape_shaped 2 2 flat (sym_S s)) as [H _];
      [ now apply reshape_concat | exact H ]. }
  assert (HlenR : List.length (map Str.of_int (List.concat (sym_R s)))
                  = 9%nat).
  { rewrite length_map.
    destruct (reshape_shaped 3 3 (List.concat (sym_R s)) (sym_R s)) as [H _];
      [ now apply reshape_concat | exact H ]. }
  assert (Hlent : List.length (map str_ (sym_t s)) = 3%nat)
    by now rewrite length_map.
  assert (Hlenm : List.length (map str_ (map num_abs flat)) = 4%nat)
    by now rewrite !length_map.
  assert (Hlenp : List.length (map str_ (map num_angle_pi flat)) = 4%nat)
    by now rewrite !length_map.
  assert (Hpiece : forall (a b c : list string) n m,
             List.length a = n -> List.length b = m ->
             firstn m (skipn n (a ++ b ++ c)) = b).
  { intros a b c n m <- <-.
    rewrite skipn_app, skipn_all, Nat.sub_diag. cbn [skipn app].
    rewrite firstn_app, firstn_all, Nat.sub_diag. cbn [firstn].
    apply app_nil_r. }
  unfold SymopTable_init_from_user. rewrite Hsplit. unfold slice.
  set (A := map Str.of_int (List.concat (sym_R s))) in *.
  set (T := map str_ (sym_t s)) in *.
  rewrite firstn_app, HlenR, Nat.sub_diag, firstn_all2 by lia.
  cbn [firstn]. rewrite app_nil_r. unfold A at 1.
  rewrite int_array_of_int. cbn [bind].
  rewrite (reshape_concat 3 3 _ HR). cbn [bind].
  destruct spinor.
  - set (M := map str_ (map num_abs flat)) in *.
    set (P := map str_ (map num_angle_pi flat)) in *.
    rewrite (Hpiece A T (M ++ P)%list 9%nat (12 - 9)%nat HlenR Hlent).
    rewrite Hpt. cbn [bind].
    rewrite !length_app, HlenR, Hlent, Hlenm, Hlenp.
    cbn [Nat.add Nat.ltb Nat.leb].
    replace (A ++ T ++ M ++ P)%list with ((A ++ T) ++ M ++ P)%list
      by now rewrite <- app_assoc.
    rewrite (Hpiece (A ++ T)%list M P 12%nat (16 - 12)%nat)
      by (rewrite ?length_app, ?HlenR, ?Hlent;
          first [ exact Hlenm | reflexivity ]).
    rewrite Hpm. cbn [bind].
    replace ((A ++ T) ++ M ++ P)%list with ((A ++ T ++ M) ++ P ++ [])%list
      by now rewrite app_nil_r, <- !app_assoc.
    rewrite (Hpiece (A ++ T ++ M)%list P [] 16%nat (20 - 16)%nat)
      by (rewrite ?length_app, ?HlenR, ?Hlent, ?Hlenm;
          first [ exact Hlenp | reflexivity ]).
    rewrite Hpp. cbn [bind].
    apply mapM_length in Hpm, Hpp. rewrite Hlenm in Hpm.
    rewrite Hlenp in Hpp.
    unfold polar_array, broadcast2. rewrite Hpm, Hpp. cbn [Nat.eqb bind].
    unfold reshape. rewrite length_map, map2_length_min, Hpm, Hpp.
    reflexivity.
  - rewrite (Hpiece A T [] 9%nat (12 - 9)%nat HlenR Hlent).
    rewrite Hpt. cbn [bind].
    rewrite !length_app, HlenR, Hlent. reflexivity.
Qed.

(** ** The line of an irrep *)

Lemma insert_sorted_In (x y : Z) (xs : list Z) :
  In y (insert_sorted x xs) <-> y = x \/ In y xs.
Proof.
  induction xs as [|z xs IH]; cbn [insert_sorted In].
  - intuition.
  - destruct (x <=? z); cbn [In]; [ intuition | ]. rewrite IH. intuition.
Qed.

Lemma insert_sorted_length (x : Z) (xs : list Z) :
  List.length (insert_sorted x xs) = S (List.length xs).
Proof.
  induction xs as [|z xs IH]; [ reflexivity | ].
  cbn [insert_sorted]. destruct (x <=? z); cbn [List.length]; [ | rewrite IH ];
    reflexivity.
Qed.

Lemma sorted_In (y : Z) (xs : list Z) : In y (sorted xs) <-> In y xs.
Proof.
  unfold sorted. induction xs as [|x xs IH]; [ reflexivity | ].
  cbn [fold_right In]. rewrite insert_sorted_In, IH. intuition.
Qed.

Lemma sorted_length (xs : list Z) : List.length (sorted xs) = List.length xs.
Proof.
  unfold sorted. induction xs as [|x xs IH]; [ reflexivity | ].
  cbn [fold_right List.length]. now rewrite insert_sorted_length, IH.
Qed.

(** The characters looked up under the keys of an irrep, when all of them
    are numbers. *)
Lemma lookup_numbers (d : list (Z * character)) (ks : list Z) :
  Forall (fun kv => exists c, snd kv = Const c) d ->
  incl ks (keys d) ->
  exists ch,
    mapM (fun isym => or_raise KeyError (dict_get Z.eqb isym d)) ks
    = OK (map Const ch) /\
    all_nums (map Const ch) = Some ch /\
    flat_map (fun k =>
                match dict_get Z.eqb k d with
                | Some (Const n) => [n]
                | _ => []
                end) ks = ch /\
    List.length ch = List.length ks.
Proof.
  intros Hd. induction ks as [|k ks IH]; intros Hks.
  - exists []. repeat split.
  - destruct IH as (ch & Hm & Ha & Hf & Hl).
    { intros x Hx. apply Hks. now right. }
    destruct (dict_get Z.eqb k d) as [c|] eqn:Eg.
    + pose proof (dict_get_In _ Z.eqb_spec _ _ _ Eg) as Hin.
      rewrite Forall_forall in Hd. destruct (Hd _ Hin) as [n Hn].
      cbn [snd] in Hn. subst c.
      exists (n :: ch). cbn [mapM flat_map map all_nums as_num List.length].
      rewrite Eg, Hm, Ha, Hf, Hl. cbn [or_raise bind app]. repeat split.
    + apply dict_get_None with (1 := Z.eqb_spec) in Eg.
      exfalso. apply Eg, Hks. now left.
Qed.

(** [Irrep.str] on an irrep without characters raises the [ValueError] of
    the maximum of an empty array; on an irrep whose characters are numbers,
    one at least, it returns a line. *)
Theorem Irrep_str_defined (irr : Irrep) :
  (irr_characters irr = [] -> Irrep_str irr = Raise ValueError) /\
  (irr_characters irr <> [] ->
   Forall (fun kv => exists c, snd kv = Const c) (irr_characters irr) ->
   exists line, Irrep_str irr = OK line).
Proof.
  split.
  - intros E. unfold Irrep_str. rewrite E. reflexivity.
  - intros Hne Hd. unfold Irrep_str.
    destruct (lookup_numbers (irr_characters irr)
                (sorted (keys (irr_characters irr))) Hd)
      as (ch & Hm & Ha & _ & Hl).
    { intros x Hx. now apply sorted_In. }
    rewrite Hm. cbn [bind]. rewrite Ha.
    destruct ch as [|c ch].
    { rewrite sorted_length in Hl. unfold keys in Hl.
      rewrite length_map in Hl.
      destruct (irr_characters irr); [ now elim Hne | discriminate Hl ]. }
    cbn [map np_max bind]. destruct (fgtb _ _); cbn [bind]; now eexists.
Qed.

Lemma defined_not_None {A} (o : option A) (x : A) : o = Some x -> o <> None.
Proof. intros -> H. discriminate H. Qed.

Lemma float_array_defined (toks : list string) :
  Forall (fun t => parse_float t <> None) toks ->
  exists xs, float_array toks = OK xs /\ List.length xs = List.length toks.
Proof.
  unfold float_array. induction 1 as [|t toks Ht _ (xs & IH & Hl)].
  - now exists [].
  - destruct (parse_float t) as [x|] eqn:E; [ | now elim Ht ].
    exists (x :: xs). cbn [mapM]. rewrite E, IH. cbn [or_raise bind].
    split; [ reflexivity | cbn [List.length]; now rewrite Hl ].
Qed.

(** The constructor of the user encoding on a line of known tokens. *)
Lemma Irrep_init_user_real (line name dimtok : string) (toks : list string)
  (dim : Z) (kp : KPoint) (amps : list float64) :
  Str.split line = name :: dimtok :: toks ->
  Str.to_int dimtok = Some dim ->
  List.length toks = List.length (kp_isym kp) ->
  float_array toks = OK amps ->
  Irrep_init_user line kp
  = OK {| irr_k := kp_k kp; irr_kpname := kp_name kp; irr_has_rkmk := None;
          irr_name := name; irr_dim := dim;
          irr_nsym := Z.of_nat (List.length (kp_isym kp));
          irr_reality := RealityBool true;
          irr_characters :=
            dict_of Z.eqb (combine (kp_isym kp) (map Const (map NFloat amps)));
          irr_hasuvw := None |}.
Proof.
  intros Hsplit Hdim Hlen Hparse.
  set (nsym := List.length (kp_isym kp)) in *.
  assert (Hamps : slice 2 (2 + nsym) (name :: dimtok :: toks)
                  = firstn nsym toks).
  { unfold slice. cbn [skipn]. f_equal. lia. }
  unfold Irrep_init_user. rewrite Hsplit.
  cbn [index nth_error or_raise bind]. rewrite Hdim. cbn [or_raise bind].
  fold nsym. rewrite Hamps. cbn [skipn]. rewrite Hlen.
  rewrite Nat.eqb_refl. cbn [negb].
  rewrite (firstn_all2 toks) by lia. rewrite Hparse. cbn [bind].
  subst nsym.
  rewrite (mapM_index_combine (fun c => Const c)); [ reflexivity | ].
  rewrite length_map. rewrite (mapM_length _ _ _ Hparse). exact Hlen.
Qed.

Lemma Irrep_init_user_polar (line name dimtok : string)
  (atoks ptoks : list string) (dim : Z) (kp : KPoint)
  (amps phases : list float64) :
  Str.split line = name :: dimtok :: (atoks ++ ptoks)%list ->
  Str.to_int dimtok = Some dim ->
  List.length atoks = List.length (kp_isym kp) ->
  List.length ptoks = List.length (kp_isym kp) ->
  List.length (kp_isym kp) <> O ->
  float_array atoks = OK amps ->
  float_array ptoks = OK phases ->
  Irrep_init_user line kp
  = OK {| irr_k := kp_k kp; irr_kpname := kp_name kp; irr_has_rkmk := None;
          irr_name := name; irr_dim := dim;
          irr_nsym := Z.of_nat (List.length (kp_isym kp));
          irr_reality := RealityBool false;
          irr_characters :=
            dict_of Z.eqb
              (combine (kp_isym kp)
                       (map Const (map NComplex (map2 cpolar amps phases))));
          irr_hasuvw := None |}.
Proof.
  intros Hsplit Hdim Hla Hlp Hnz Ha Hp.
  set (nsym := List.length (kp_isym kp)) in *.
  assert (Hamps : slice 2 (2 + nsym) (name :: dimtok :: atoks ++ ptoks)
                  = atoks).
  { unfold slice. cbn [skipn].
    replace (2 + nsym - 2)%nat with nsym by lia.
    rewrite firstn_app, Hla, Nat.sub_diag, firstn_all2 by lia.
    cbn [firstn]. apply app_nil_r. }
  assert (Hphases : slice (2 + nsym) (2 + 2 * nsym)
                          (name :: dimtok :: atoks ++ ptoks) = ptoks).
  { unfold slice. cbn [Nat.add skipn].
    replace (S (S (nsym + (nsym + 0))) - S (S nsym))%nat with nsym by lia.
    rewrite skipn_app, Hla, Nat.sub_diag, skipn_all2 by lia.
    cbn [skipn app]. apply firstn_all2. lia. }
  assert (Hlena : List.length amps = nsym)
    by now rewrite (mapM_length _ _ _ Ha).
  assert (Hlenp : List.length phases = nsym)
    by now rewrite (mapM_length _ _ _ Hp).
  unfold Irrep_init_user. rewrite Hsplit.
  cbn [index nth_error or_raise bind]. rewrite Hdim. cbn [or_raise bind].
  fold nsym. rewrite Hamps, Hphases. cbn [skipn].
  rewrite length_app, Hla, Hlp.
  replace (Nat.eqb (nsym + nsym) nsym) with false
    by (symmetry; apply Nat.eqb_neq; lia).
  cbn [negb]. rewrite Ha. cbn [bind]. rewrite Hp. cbn [bind].
  unfold polar_array, broadcast2.
  rewrite Hlena, Hlenp, Nat.eqb_refl. cbn [bind].
  subst nsym.
  rewrite (mapM_index_combine (fun c => Const c)); [ reflexivity | ].
  rewrite length_map, map2_length_min. lia.
Qed.

(** ** The legacy loader and the line of [NK] *)

Lemma foldM_read_operation_app (ops : list string) :
  forall (rounds : list Z) acc rest,
    List.length ops = List.length rounds ->
    foldM read_operation rounds (acc, (ops ++ rest)%list)
    = (syms <- mapM SymopTable_init ops ;; OK ((acc ++ syms)%list, rest)).
Proof.
  induction ops as [|l ops IH]; intros [|i rounds] acc rest Hlen;
    try discriminate Hlen.
  - cbn [foldM mapM bind app]. now rewrite app_nil_r.
  - cbn [foldM app read_operation readline mapM].
    destruct (SymopTable_init l) as [s|e]; cbn [bind]; [ | reflexivity ].
    rewrite IH by (injection Hlen as Hlen; exact Hlen).
    destruct (mapM SymopTable_init ops) as [syms|e]; cbn [bind];
      [ | reflexivity ].
    now rewrite <- app_assoc.
Qed.

(** The legacy loader keeps the number of the [NK] line and does nothing
    else with it: with another number on that line the file loads to the
    same table, [NK] apart, however many records follow. *)
Theorem legacy_loader_ignores_NK (SGnumber : Z) (spinor : bool)
  (first tn name : string) (n : Z) (ops : list string)
  (hash nk nk' : string) (m' : Z) (recs : file) (T : IrrepTable) :
  Str.split first = [tn; name] ->
  Str.to_int tn = Some n ->
  List.length ops = Z.to_nat n ->
  Str.to_int nk' = Some m' ->
  IrrepTable_init SGnumber spinor (first :: ops ++ hash :: nk :: recs)
  = Some (OK T) ->
  IrrepTable_init SGnumber spinor (first :: ops ++ hash :: nk' :: recs)
  = Some (OK {| tab_number := tab_number T; tab_name := tab_name T;
                tab_spinor := tab_spinor T; tab_nsym := tab_nsym T;
                tab_symmetries := tab_symmetries T; tab_NK := Some m';
                tab_irreps := tab_irreps T |}).
Proof.
  intros Hsplit Hint Hlen Hint' H. unfold IrrepTable_init in *.
  replace (List.length (first :: ops ++ hash :: nk' :: recs))
    with (List.length (first :: ops ++ hash :: nk :: recs))
    by (cbn [List.length]; now rewrite !length_app).
  unfold IrrepTable_init_fuel in *. cbn [readline] in *.
  rewrite Hsplit, Hint in *. cbn [or_raise bind] in *.
  rewrite foldM_read_operation_app in * by (now rewrite range_length).
  destruct (mapM SymopTable_init ops) as [syms|e]; cbn [bind] in *;
    [ | discriminate H ].
  cbn [readline] in *.
  destruct (py_assert (Str.strip hash =? "#")%string) as [u|e];
    cbn [bind] in *; [ | discriminate H ].
  rewrite Hint'. destruct (Str.to_int nk) as [m|];
    cbn [or_raise bind] in *; [ | discriminate H ].
  destruct (scan_irreps _ n [] recs) as [[irreps|e]|]; try discriminate H.
  injection H as <-. reflexivity.
Qed.

(** ** Strings: [strip] and the lines of a text *)

Lemma lstrip_blank (b s : string) :
  all_chars Str.isspace b = true -> Str.lstrip (b ++ s) = Str.lstrip s.
Proof.
  induction b as [|c b IH]; intros H; [ reflexivity | ].
  cbn [all_chars] in H. apply andb_prop in H. destruct H as [Hc H].
  cbn [append Str.lstrip]. rewrite Hc. now apply IH.
Qed.

Lemma rstrip_blank (b : string) :
  all_chars Str.isspace b = true -> Str.rstrip b = "".
Proof.
  induction b as [|c b IH]; intros H; [ reflexivity | ].
  cbn [all_chars] in H. apply andb_prop in H. destruct H as [Hc H].
  cbn [Str.rstrip]. now rewrite (IH H), Hc.
Qed.

Lemma rstrip_word_blank (w b : string) :
  all_chars (fun c => negb (Str.isspace c)) w = true ->
  all_chars Str.isspace b = true ->
  Str.rstrip (w ++ b) = w.
Proof.
  intros Hw Hb. induction w as [|c w IH]; [ now apply rstrip_blank | ].
  cbn [all_chars] in Hw. apply andb_prop in Hw. destruct Hw as [Hc Hw].
  apply negb_true_iff in Hc.
  cbn [append Str.rstrip]. now rewrite (IH Hw), Hc, andb_false_r.
Qed.

Lemma rstrip_app (a b : string) :
  Str.is_empty (Str.rstrip b) = false ->
  Str.rstrip (a ++ b) = (a ++ Str.rstrip b)%string.
Proof.
  intros Hb. induction a as [|c a IH]; [ reflexivity | ].
  cbn [append Str.rstrip]. rewrite IH.
  destruct (a ++ Str.rstrip b)%string eqn:E; [ | reflexivity ].
  destruct a; cbn [append] in E; [ | discriminate E ].
  rewrite E in Hb. discriminate Hb.
Qed.

Lemma ends_word_word (w : string) : is_word w = true -> ends_word w.
Proof. intros H. now exists "", w. Qed.

Lemma ends_word_app (a s : string) : ends_word s -> ends_word (a ++ s).
Proof.
  intros (b & w & -> & H). exists (a ++ b)%string, w.
  now rewrite append_assoc.
Qed.

Lemma ends_word_join (sep : string) (toks : list string) :
  toks <> [] ->
  Forall (fun t => is_word t = true) toks ->
  ends_word (Str.join sep toks).
Proof.
  unfold Str.join. intros Hne H.
  induction H as [|t toks Ht _ IH]; [ now elim Hne | ].
  destruct toks as [|t' toks]; [ now apply ends_word_word | ].
  change (String.concat sep (t :: t' :: toks))
    with (t ++ sep ++ String.concat sep (t' :: toks))%string.
  do 2 apply ends_word_app. now apply IH.
Qed.

(** What ends with a word loses exactly the whitespace after it. *)
Lemma rstrip_ends_word (s b : string) :
  ends_word s -> all_chars Str.isspace b = true -> Str.rstrip (s ++ b) = s.
Proof.
  intros (a & w & -> & Hw) Hb. unfold is_word in Hw.
  apply andb_prop in Hw. destruct Hw as [Hne Hw].
  rewrite append_assoc, rstrip_app; rewrite (rstrip_word_blank w b Hw Hb);
    [ reflexivity | ].
  now apply negb_true_iff in Hne.
Qed.

Lemma split_from_blank (b : string) :
  all_chars Str.isspace b = true ->
  forall tok,
    Str.split_from tok b = if Str.is_empty tok then [] else [tok].
Proof.
  induction b as [|c b IH]; intros H tok; [ reflexivity | ].
  cbn [all_chars] in H. apply andb_prop in H. destruct H as [Hc H].
  cbn [Str.split_from]. rewrite Hc, (IH H).
  now destruct (Str.is_empty tok).
Qed.

(** Whitespace at the end of a string does not change its tokens. *)
Lemma split_app_blank (s b : string) :
  all_chars Str.isspace b = true -> Str.split (s ++ b) = Str.split s.
Proof.
  intros Hb. unfold Str.split.
  assert (H : forall tok,
             Str.split_from tok (s ++ b) = Str.split_from tok s).
  { induction s as [|c s IH]; intros tok; cbn [append Str.split_from].
    - now apply split_from_blank.
    - destruct (Str.isspace c); [ | apply IH ].
      destruct (Str.is_empty tok); now rewrite IH. }
  apply H.
Qed.

Lemma word_free_of_nl (w : string) :
  all_chars (fun c => negb (Str.isspace c)) w = true ->
  free_of "010" w = true.
Proof.
  unfold free_of. induction w as [|c w IH]; intros H; [ reflexivity | ].
  cbn [all_chars] in *. apply andb_prop in H. destruct H as [Hc H].
  rewrite (IH H), andb_true_r.
  destruct (Ascii.eqb_spec c "010") as [->|_]; [ discriminate Hc | ].
  reflexivity.
Qed.

Lemma readlines_from_line (l : string) :
  free_of "010" l = true ->
  forall cur rest,
    readlines_from cur (l ++ nl ++ rest)
    = (cur ++ l ++ nl)%string :: readlines_from "" rest.
Proof.
  unfold free_of. induction l as [|c l IH]; intros Hl cur rest.
  - reflexivity.
  - cbn [all_chars] in Hl. apply andb_prop in Hl. destruct Hl as [Hc Hl].
    apply negb_true_iff in Hc.
    cbn [append readlines_from]. rewrite Hc, (IH Hl).
    unfold Str.snoc. now rewrite append_assoc.
Qed.

(** A text written line by line is read line by line. *)
Lemma readlines_text (ls : list string) :
  Forall (fun l => free_of "010" l = true) ls ->
  readlines (file_text (map (fun l => l ++ nl)%string ls))
  = map (fun l => l ++ nl)%string ls.
Proof.
  unfold readlines, file_text.
  induction 1 as [|l ls Hl _ IH]; [ reflexivity | ].
  cbn [map fold_right]. rewrite append_assoc.
  rewrite (readlines_from_line l Hl). cbn [append]. now rewrite IH.
Qed.

Lemma file_text_app (out out' : list string) :
  file_text (out ++ out') = (file_text out ++ file_text out')%string.
Proof.
  unfold file_text. induction out as [|w out IH]; [ reflexivity | ].
  cbn [app fold_right]. now rewrite IH, append_assoc.
Qed.

(** ** The header that [save4user] writes, read by the user loader *)

(** Whitespace around a string that begins with a character that is no
    whitespace and ends with a word is what [strip] takes away. *)
Lemma strip_core (b1 m b2 : string) :
  all_chars Str.isspace b1 = true ->
  all_chars Str.isspace b2 = true ->
  starts_blank m = false ->
  ends_word m ->
  Str.strip (b1 ++ m ++ b2) = m.
Proof.
  intros H1 H2 Hs He. unfold Str.strip. rewrite lstrip_blank by exact H1.
  destruct m as [|c m]; [ discriminate Hs | ].
  cbn [starts_blank] in Hs. cbn [append Str.lstrip]. rewrite Hs.
  now apply (rstrip_ends_word (String c m) b2).
Qed.

Lemma to_int_stripped (s s' : string) :
  Str.strip s = Str.strip s' -> Str.to_int s = Str.to_int s'.
Proof. unfold Str.to_int. now intros ->. Qed.

Lemma to_int_blank_of_int (n : Z) : Str.to_int (" " ++ Str.of_int n) = Some n.
Proof.
  transitivity (Str.to_int (Str.of_int n)); [ | apply to_int_of_int ].
  apply to_int_stripped.
  rewrite (strip_word (Str.of_int n)) by (apply of_int_chars; reflexivity).
  pose proof (of_int_word n) as Hw.
  assert (Hs : starts_blank (Str.of_int n) = false).
  { unfold is_word in Hw. apply andb_prop in Hw. destruct Hw as [Hne Hw].
    destruct (Str.of_int n) as [|c s]; [ discriminate Hne | ].
    cbn [all_chars] in Hw. apply andb_prop in Hw. destruct Hw as [Hc _].
    now apply negb_true_iff in Hc. }
  replace (" " ++ Str.of_int n)%string
    with (" " ++ Str.of_int n ++ "")%string by now rewrite append_nil_r.
  apply strip_core;
    [ reflexivity | reflexivity | exact Hs | now apply ends_word_word ].
Qed.

Lemma saved_header_read (SG N n : Z) (spinor : bool) (name : string) :
  is_word name = true ->
  free_of "=" name = true ->
  str2bool (Str.of_bool spinor) = OK spinor ->
  header_prefix SG spinor None None
    (map (fun l => l ++ nl)%string
         ["SG=" ++ Str.of_int N; " name=" ++ name ++ " ";
          " nsym= " ++ Str.of_int n; " spinor=" ++ Str.of_bool spinor])
  = Some (Some name, Some n)
  /\ forall nm ns,
      header_line SG spinor nm ns ("symmetries=" ++ nl) = OK Symmetries.
Proof.
  intros Hname Heq Hbool.
  assert (Hint : forall k, free_of "=" (Str.of_int k) = true)
    by (intros k; now apply of_int_chars).
  assert (H1 : forall nm ns,
             header_line SG spinor nm ns (("SG=" ++ Str.of_int N) ++ nl)
             = OK (Continue nm ns)).
  { intros nm ns. unfold header_line.
    change (("SG=" ++ Str.of_int N) ++ nl)%string
      with ("" ++ ("SG=" ++ Str.of_int N) ++ nl)%string.
    rewrite (strip_core "" ("SG=" ++ Str.of_int N) nl);
      [ | reflexivity | reflexivity | reflexivity
        | apply ends_word_app, ends_word_word, of_int_word ].
    unfold Str.split_on.
    change ("SG=" ++ Str.of_int N)%string
      with ("SG" ++ String "=" (Str.of_int N))%string.
    rewrite split_on_from_field by reflexivity.
    rewrite split_on_from_last by apply Hint.
    reflexivity. }
  assert (H2 : forall nm ns,
             header_line SG spinor nm ns ((" name=" ++ name ++ " ") ++ nl)
             = OK (Continue (Some name) ns)).
  { intros nm ns. unfold header_line.
    replace ((" name=" ++ name ++ " ") ++ nl)%string
      with (" " ++ ("name=" ++ name) ++ (" " ++ nl))%string
      by (cbn [append]; now rewrite !append_assoc).
    rewrite (strip_core " " ("name=" ++ name) (" " ++ nl));
      [ | reflexivity | reflexivity | reflexivity
        | now apply ends_word_app, ends_word_word ].
    unfold Str.split_on.
    change ("name=" ++ name)%string
      with ("name" ++ String "=" name)%string.
    rewrite split_on_from_field by reflexivity.
    rewrite split_on_from_last by exact Heq.
    reflexivity. }
  assert (H3 : forall nm ns,
             header_line SG spinor nm ns ((" nsym= " ++ Str.of_int n) ++ nl)
             = OK (Continue nm (Some n))).
  { intros nm ns. unfold header_line.
    change ((" nsym= " ++ Str.of_int n) ++ nl)%string
      with (" " ++ ("nsym= " ++ Str.of_int n) ++ nl)%string.
    rewrite (strip_core " " ("nsym= " ++ Str.of_int n) nl);
      [ | reflexivity | reflexivity | reflexivity
        | apply ends_word_app, ends_word_word, of_int_word ].
    unfold Str.split_on.
    change ("nsym= " ++ Str.of_int n)%string
      with ("nsym" ++ String "=" (" " ++ Str.of_int n))%string.
    rewrite split_on_from_field by reflexivity.
    rewrite split_on_from_last
      by (unfold free_of in *; cbn [append all_chars]; now rewrite Hint).
    cbn [append index nth_error or_raise bind].
    change (String " " (Str.of_int n)) with (" " ++ Str.of_int n)%string.
    rewrite to_int_blank_of_int. reflexivity. }
  assert (H4 : forall nm ns,
             header_line SG spinor nm ns
               ((" spinor=" ++ Str.of_bool spinor) ++ nl)
             = OK (Continue nm ns)).
  { intros nm ns. unfold header_line.
    assert (Hs : Str.split_on "="
                   (Str.strip ((" spinor=" ++ Str.of_bool spinor) ++ nl))
                 = ["spinor"; Str.of_bool spinor])
      by now destruct spinor.
    rewrite Hs. cbn [index nth_error or_raise bind].
    rewrite Hbool. cbn [bind]. rewrite Bool.eqb_reflx. reflexivity. }
  split.
  - cbn [map header_prefix]. now rewrite H1, H2, H3, H4.
  - intros nm ns. reflexivity.
Qed.

(** The line of an irrep whose characters are numbers: its tokens are the
    label, the dimension and the printed numbers, of which there is one at
    least; it begins with the label and ends with a word. *)
Lemma Irrep_str_tokens (irr : Irrep) (line : string) :
  Irrep_str irr = OK line ->
  Forall (fun kv => exists c, snd kv = Const c) (irr_characters irr) ->
  is_word (irr_name irr) = true ->
  Forall (fun x => is_word (str_ x) = true) (printed_numbers irr) ->
  Str.split line
  = irr_name irr :: Str.of_int (irr_dim irr)
    :: map str_ (printed_numbers irr) /\
  ends_word line /\
  starts_blank line = false /\
  numbers irr <> [] /\
  List.length (numbers irr) = List.length (irr_characters irr) /\
  (forall sep,
      forallb (fun c => negb (Ascii.eqb c sep))
              [" "; "-"; "0"; "1"; "2"; "3"; "4"; "5"; "6"; "7"; "8"; "9"]%char
      = true ->
      free_of sep (irr_name irr) = true ->
      Forall (fun x => free_of sep (str_ x) = true) (printed_numbers irr) ->
      free_of sep line = true).
Proof.
  intros Hstr Hd Hname Hw. unfold Irrep_str in Hstr.
  unfold printed_numbers, numbers in *.
  destruct (lookup_numbers (irr_characters irr)
              (sorted (keys (irr_characters irr))) Hd)
    as (ch & Hm & Ha & Hf & Hl).
  { intros x Hx. now apply sorted_In. }
  rewrite Hf in *. rewrite Hm in Hstr. cbn [bind] in Hstr. rewrite Ha in Hstr.
  rewrite sorted_length in Hl. unfold keys in Hl. rewrite length_map in Hl.
  clear Hm Ha Hf Hd. unfold complex_valued in *.
  destruct (np_max (map (fun c => fabs (num_imag c)) ch)) as [m|e] eqn:Emax;
    cbn [bind] in Hstr; [ | discriminate Hstr ].
  assert (Hnz : ch <> []) by (destruct ch; [ discriminate Emax | discriminate ]).
  assert (Hstart : forall body,
             starts_blank (irr_name irr ++ body) = false).
  { intros body. unfold is_word in Hname. apply andb_prop in Hname.
    destruct Hname as [Hne Hall]. destruct (irr_name irr) as [|c s];
      [ discriminate Hne | ].
    cbn [all_chars] in Hall. apply andb_prop in Hall. destruct Hall as [Hc _].
    now apply negb_true_iff in Hc. }
  assert (Hhead : forall body,
             starts_blank body = true ->
             Str.split (irr_name irr ++ " " ++ Str.of_int (irr_dim irr)
                        ++ " " ++ body)
             = irr_name irr :: Str.of_int (irr_dim irr) :: Str.split body).
  { intros body Hb.
    rewrite split_word_then by (assumption || reflexivity).
    rewrite split_blank by reflexivity.
    rewrite split_word_then by (apply of_int_word || reflexivity).
    now rewrite split_blank by reflexivity. }
  assert (Hcolon : forall sep body,
             forallb (fun c => negb (Ascii.eqb c sep))
                     [" "; "-"; "0"; "1"; "2"; "3"; "4"; "5"; "6"; "7"; "8";
                      "9"]%char = true ->
             free_of sep (irr_name irr) = true ->
             free_of sep body = true ->
             free_of sep (irr_name irr ++ " " ++ Str.of_int (irr_dim irr)
                          ++ " " ++ body) = true).
  { intros sep body Hsep Hn Hb. unfold free_of in *.
    cbn [forallb] in Hsep. apply andb_prop in Hsep. destruct Hsep as [Hsp Hsep].
    rewrite !all_chars_app, Hn, Hb.
    rewrite (of_int_chars _ (irr_dim irr)) by exact Hsep.
    cbn [all_chars]. now rewrite Hsp. }
  destruct (fgtb m (float_lit "1e-6")).
  - assert (Hline : line
                    = (irr_name irr ++ " " ++ Str.of_int (irr_dim irr) ++ " "
                       ++ "   "
                       ++ Str.join "  " (map str_ (map num_abs ch))
                       ++ "   "
                       ++ Str.join "  " (map str_ (map num_angle_pi ch)))%string).
    { injection Hstr as <-. now rewrite !map_map. }
    clear Hstr. subst line.
    apply Forall_app in Hw. destruct Hw as [Hwa Hwp].
    split; [ | split; [ | split; [ | split; [ exact Hnz | split; [ exact Hl | ] ] ] ] ].
    + rewrite map_app, Hhead by reflexivity. do 2 f_equal.
      rewrite split_blank by reflexivity.
      rewrite split_join; try reflexivity; [ | now apply Forall_map ].
      f_equal. rewrite split_blank by reflexivity.
      rewrite <- (append_nil_r (Str.join _ _)).
      rewrite split_join; try reflexivity; [ | now apply Forall_map ].
      apply app_nil_r.
    + do 7 apply ends_word_app. apply ends_word_join; [ | now apply Forall_map ].
      destruct ch; [ now elim Hnz | discriminate ].
    + apply Hstart.
    + intros sep Hsep Hn Hc. apply Forall_app in Hc. destruct Hc as [Hca Hcp].
      apply Hcolon; [ exact Hsep | exact Hn | ]. unfold free_of in *.
      cbn [forallb] in Hsep. apply andb_prop in Hsep.
      destruct Hsep as [Hsp _].
      rewrite !all_chars_app.
      rewrite !all_chars_join;
        [ cbn [all_chars]; now rewrite Hsp | cbn [all_chars]; now rewrite Hsp
          | now apply Forall_map | cbn [all_chars]; now rewrite Hsp
          | now apply Forall_map ].
  - assert (Hline : line
                    = (irr_name irr ++ " " ++ Str.of_int (irr_dim irr) ++ " "
                       ++ "   "
                       ++ Str.join "  " (map str_ (map num_real ch)))%string).
    { injection Hstr as <-. now rewrite !map_map. }
    clear Hstr. subst line.
    split; [ | split; [ | split; [ | split; [ exact Hnz | split; [ exact Hl | ] ] ] ] ].
    + rewrite Hhead by reflexivity. do 2 f_equal.
      rewrite split_blank by reflexivity.
      rewrite <- (append_nil_r (Str.join _ _)).
      rewrite split_join; try reflexivity; [ | now apply Forall_map ].
      apply app_nil_r.
    + do 5 apply ends_word_app. apply ends_word_join; [ | now apply Forall_map ].
      destruct ch; [ now elim Hnz | discriminate ].
    + apply Hstart.
    + intros sep Hsep Hn Hc.
      apply Hcolon; [ exact Hsep | exact Hn | ]. unfold free_of in *.
      cbn [forallb] in Hsep. apply andb_prop in Hsep.
      destruct Hsep as [Hsp _].
      rewrite !all_chars_app.
      rewrite !all_chars_join;
        [ cbn [all_chars]; now rewrite Hsp | cbn [all_chars]; now rewrite Hsp
          | now apply Forall_map ].
Qed.

(** A line with the tokens of the line of an irrep is accepted by the
    constructor of the user encoding, against a k-point with as many
    indices as the irrep has characters. *)
Lemma Irrep_tokens_parse (irr : Irrep) (kp : KPoint) (l : string) :
  Str.split l
  = irr_name irr :: Str.of_int (irr_dim irr)
    :: map str_ (printed_numbers irr) ->
  numbers irr <> [] ->
  Forall (fun x => parse_float (str_ x) <> None) (printed_numbers irr) ->
  List.length (kp_isym kp) = List.length (numbers irr) ->
  exists irr',
    Irrep_init_user l kp = OK irr' /\
    irr_name irr' = irr_name irr /\
    irr_dim irr' = irr_dim irr /\
    irr_kpname irr' = kp_name kp /\
    irr_k irr' = kp_k kp /\
    irr_nsym irr' = Z.of_nat (List.length (numbers irr)) /\
    irr_reality irr' = RealityBool (negb (complex_valued (numbers irr))).
Proof.
  unfold printed_numbers. intros Hsplit Hnz Hp Hlen.
  assert (Hnz' : List.length (kp_isym kp) <> O).
  { rewrite Hlen. destruct (numbers irr); [ now elim Hnz | discriminate ]. }
  destruct (complex_valued (numbers irr)); cbn [negb].
  - rewrite map_app in Hsplit. apply Forall_app in Hp.
    destruct Hp as [Hpa Hpp].
    destruct (float_array_defined (map str_ (map num_abs (numbers irr))))
      as (amps & Ea & Hla); [ now apply Forall_map | ].
    destruct (float_array_defined
                (map str_ (map num_angle_pi (numbers irr))))
      as (phases & Ep & Hlp); [ now apply Forall_map | ].
    eexists. split.
    + eapply Irrep_init_user_polar with (7 := Ep) (6 := Ea);
        [ exact Hsplit | apply to_int_of_int | | | exact Hnz' ];
        rewrite !length_map; now symmetry.
    + cbn [irr_name irr_dim irr_kpname irr_k irr_nsym irr_reality].
      rewrite Hlen. now repeat split.
  - destruct (float_array_defined (map str_ (map num_real (numbers irr))))
      as (amps & Ea & Hla); [ now apply Forall_map | ].
    eexists. split.
    + eapply Irrep_init_user_real with (4 := Ea);
        [ exact Hsplit | apply to_int_of_int | ].
      rewrite !length_map. now symmetry.
    + cbn [irr_name irr_dim irr_kpname irr_k irr_nsym irr_reality].
      rewrite Hlen. now repeat split.
Qed.

(** A line without a colon is no k-point line. *)
Lemma line_not_kpoint (l : string) :
  free_of ":" l = true -> exists e, KPoint_of_line l = Raise e.
Proof.
  intros Hc. unfold KPoint_of_line, Str.split_on.
  rewrite split_on_from_last by exact Hc.
  cbn [append index nth_error or_raise bind].
  destruct (index (Str.split l) 0) as [w0|e]; cbn [bind]; [ | now eexists ].
  destruct (negb (w0 =? "kpoint")%string); [ now eexists | ].
  destruct (index (Str.split l) 1) as [w1|e]; cbn [bind]; now eexists.
Qed.

(** [Irrep.str] read back by the user loader. The line that [save4user]
    writes for an irrep whose characters are numbers is no k-point line,
    and, stripped as the loader strips it, it is accepted as an irrep
    against any k-point with as many indices as the irrep has characters.
    The irrep read has the label and the dimension of the one written, the
    name and the coordinates of the k-point, as many operations as the
    irrep written has characters, and its [reality] is [True] exactly when
    no character written had an imaginary part above [1e-6]. The label has
    to be one word without a colon, and so has every printed number, which
    has to parse as a float. *)
Theorem Irrep_str_read_back (irr : Irrep) (kp : KPoint) (line : string) :
  Irrep_str irr = OK line ->
  Forall (fun kv => exists c, snd kv = Const c) (irr_characters irr) ->
  is_word (irr_name irr) = true ->
  free_of ":" (irr_name irr) = true ->
  Forall (fun x => is_word (str_ x) = true
                   /\ free_of ":" (str_ x) = true
                   /\ parse_float (str_ x) <> None) (printed_numbers irr) ->
  List.length (kp_isym kp) = List.length (irr_characters irr) ->
  (exists e, KPoint_of_line (Str.strip (line ++ nl)) = Raise e) /\
  exists irr',
    Irrep_init_user (Str.strip (line ++ nl)) kp = OK irr' /\
    irr_name irr' = irr_name irr /\
    irr_dim irr' = irr_dim irr /\
    irr_kpname irr' = kp_name kp /\
    irr_k irr' = kp_k kp /\
    irr_nsym irr' = Z.of_nat (List.length (irr_characters irr)) /\
    irr_reality irr' = RealityBool (negb (complex_valued (numbers irr))).
Proof.
  intros Hstr Hd Hname Hcolon Hnum Hlen.
  assert (Hw : Forall (fun x => is_word (str_ x) = true) (printed_numbers irr))
    by (eapply Forall_impl; [ | exact Hnum ]; now intros x (H & _ & _)).
  assert (Hc : Forall (fun x => free_of ":" (str_ x) = true)
                      (printed_numbers irr))
    by (eapply Forall_impl; [ | exact Hnum ]; now intros x (_ & H & _)).
  assert (Hp : Forall (fun x => parse_float (str_ x) <> None)
                      (printed_numbers irr))
    by (eapply Forall_impl; [ | exact Hnum ]; now intros x (_ & _ & H)).
  destruct (Irrep_str_tokens irr line Hstr Hd Hname Hw)
    as (Hsplit & Hend & Hstart & Hnz & Hl & Hfree).
  assert (Hstrip : Str.strip (line ++ nl) = line)
    by (apply (strip_core "" line nl); try reflexivity; assumption).
  rewrite Hstrip. split.
  - apply line_not_kpoint. apply (Hfree ":"%char); [ reflexivity | | ]; assumption.
  - rewrite <- Hl. apply Irrep_tokens_parse; try assumption.
    now rewrite Hl.
Qed.

(** ** The lines that [save4user] writes, read by the user loader *)

(** [SymopTable.str] read back by [SymopTable(line, from_user=True)], the
    line taken with its newline as the loader takes it: the rotation comes
    back as it is; the translation comes back as its printed components
    parse; without the spinor part the spinor matrix comes back as the
    identity, whatever it was, and with it as the matrix of the printed
    magnitudes and phases. The rotation has to be 3 x 3, the translation of
    three components and the spinor matrix 2 x 2, and every printed number
    one word. *)
Theorem SymopTable_str_read_back (s : SymopTable) (spinor : bool)
  (t' mags phases : list float64) :
  shaped 3 3 (sym_R s) ->
  List.length (sym_t s) = 3%nat ->
  shaped 2 2 (sym_S s) ->
  Forall (fun x => is_word (str_ x) = true)
         (sym_t s ++ map num_abs (List.concat (sym_S s))
          ++ map num_angle_pi (List.concat (sym_S s)))%list ->
  float_array (map str_ (sym_t s)) = OK t' ->
  float_array (map str_ (map num_abs (List.concat (sym_S s)))) = OK mags ->
  float_array (map str_ (map num_angle_pi (List.concat (sym_S s))))
  = OK phases ->
  SymopTable_init_from_user (SymopTable_str s spinor ++ nl)
  = OK {| sym_R := sym_R s; sym_t := t';
          sym_S := if spinor
                   then chunks 2 2 (map NComplex (map2 cpolar mags phases))
                   else eye2 |}.
Proof.
  intros HR Ht HS Hwords Hpt Hpm Hpp.
  apply SymopTable_tokens_parse; try assumption.
  rewrite split_app_blank by reflexivity.
  now apply SymopTable_str_tokens.
Qed.

(** The line [save4user] writes for a k-point with one index at least,
    stripped as the loader strips it, is the text of the k-point behind the
    marker. *)
Lemma kpoint_line_stripped (kp : KPoint) :
  kp_isym kp <> [] ->
  Str.strip (" kpoint  " ++ KPoint_str kp ++ nl)
  = ("kpoint  " ++ KPoint_str kp)%string.
Proof.
  intros Hne.
  change (" kpoint  " ++ KPoint_str kp ++ nl)%string
    with (" " ++ ("kpoint  " ++ KPoint_str kp) ++ nl)%string.
  apply strip_core; try reflexivity.
  unfold KPoint_str. do 5 apply ends_word_app.
  apply ends_word_join.
  - intros E. apply map_eq_nil in E.
    apply (f_equal (@List.length Z)) in E. rewrite sorted_length in E.
    destruct (kp_isym kp); [ now elim Hne | discriminate E ].
  - apply Forall_map, Forall_forall. intros n _. apply of_int_word.
Qed.

(** [KPoint.str] read back by the user loader: the line that [save4user]
    writes for a k-point with one index at least, stripped as the loader
    strips it, is read as a k-point of the same name, with the coordinates
    that the printed coordinates parse to and the indices that the helper
    reads in the field of the sorted indices. The name has to be one word
    without a colon, and so has every printed coordinate. *)
Theorem KPoint_str_read_back (kp : KPoint) (k' : list float64)
  (isym' : list Z) :
  kp_isym kp <> [] ->
  is_word (kp_name kp) = true ->
  free_of ":" (kp_name kp) = true ->
  Forall (fun x => is_word (str_float x) = true
                   /\ free_of ":" (str_float x) = true) (kp_k kp) ->
  float_array (map str_float (kp_k kp)) = OK k' ->
  str2list_space
    (" " ++ Str.join " " (map Str.of_int (sorted (kp_isym kp)))) = OK isym' ->
  KPoint_of_line (Str.strip (" kpoint  " ++ KPoint_str kp ++ nl))
  = OK {| kp_name := kp_name kp; kp_k := k'; kp_isym := isym' |}.
Proof.
  intros Hne Hname Hcolon Hk Hparse Hisym.
  rewrite (kpoint_line_stripped kp Hne).
  now apply KPoint_str_parses.
Qed.

(** ** The operations and the sections of a saved table *)

Lemma read_symmetries_lines (n : Z) (lines : list string)
  (syms' : list SymopTable) :
  Forall2 (fun l s => SymopTable_init_from_user l = OK s) lines syms' ->
  forall acc rest,
    Z.of_nat (List.length acc) + Z.of_nat (List.length lines)
    = Z.max (Z.of_nat (List.length acc)) n ->
    read_symmetries n acc (lines ++ rest)%list
    = OK ((acc ++ syms')%list, rest).
Proof.
  induction 1 as [|l s lines syms' Hl _ IH]; intros acc rest Hn.
  - cbn [List.length app] in *. rewrite app_nil_r.
    destruct rest; cbn [read_symmetries];
      destruct (Z.ltb_spec (Z.of_nat (List.length acc)) n); try lia;
      reflexivity.
  - cbn [List.length app read_symmetries] in *.
    destruct (Z.ltb_spec (Z.of_nat (List.length acc)) n); [ | lia ].
    rewrite Hl, IH by (rewrite length_app; cbn [List.length]; lia).
    now rewrite <- app_assoc.
Qed.

Lemma printable_op_read (s : SymopTable) (spinor : bool) :
  printable_op s ->
  exists s',
    SymopTable_init_from_user (SymopTable_str s spinor ++ nl) = OK s' /\
    sym_R s' = sym_R s.
Proof.
  intros (HR & Ht & HS & Hnum).
  assert (Hw : Forall (fun x => is_word (str_ x) = true)
                      (sym_t s ++ map num_abs (List.concat (sym_S s))
                       ++ map num_angle_pi (List.concat (sym_S s)))%list)
    by (eapply Forall_impl; [ | exact Hnum ]; now intros x [H _]).
  assert (Hp : Forall (fun x => parse_float (str_ x) <> None)
                      (sym_t s ++ map num_abs (List.concat (sym_S s))
                       ++ map num_angle_pi (List.concat (sym_S s)))%list)
    by (eapply Forall_impl; [ | exact Hnum ]; now intros x [_ H]).
  apply Forall_app in Hp. destruct Hp as [Hpt Hp].
  apply Forall_app in Hp. destruct Hp as [Hpm Hpp].
  destruct (float_array_defined (map str_ (sym_t s)))
    as (t' & Et & _); [ now apply Forall_map | ].
  destruct (float_array_defined
              (map str_ (map num_abs (List.concat (sym_S s)))))
    as (mags & Em & _); [ now apply Forall_map | ].
  destruct (float_array_defined
              (map str_ (map num_angle_pi (List.concat (sym_S s)))))
    as (phases & Ep & _); [ now apply Forall_map | ].
  eexists. split.
  - apply (SymopTable_tokens_parse _ s spinor t' mags phases);
      try assumption.
    rewrite split_app_blank by reflexivity.
    now apply SymopTable_str_tokens.
  - reflexivity.
Qed.

Lemma read_irreps_blank (kp : option KPoint) (acc : list Irrep)
  (rest : file) :
  read_irreps kp acc (("" ++ nl)%string :: rest) = read_irreps kp acc rest.
Proof.
  cbn [read_irreps].
  change (KPoint_of_line (Str.strip ("" ++ nl))) with (@Raise KPoint IndexError).
  destruct kp as [k|]; reflexivity.
Qed.

Lemma read_irreps_lines (kp : KPoint) (lines : list string)
  (irrs' : list Irrep) :
  Forall2 (fun l irr' =>
             (exists e, KPoint_of_line (Str.strip l) = Raise e)
             /\ Irrep_init_user (Str.strip l) kp = OK irr') lines irrs' ->
  forall acc rest,
    read_irreps (Some kp) acc (lines ++ rest)%list
    = read_irreps (Some kp) (acc ++ irrs')%list rest.
Proof.
  induction 1 as [|l irr' lines irrs' [[e He] Hi] _ IH]; intros acc rest.
  - cbn [app]. now rewrite app_nil_r.
  - cbn [app read_irreps]. rewrite He, Hi, IH. now rewrite <- app_assoc.
Qed.

Lemma dedup_NoDup (xs : list Z) : NoDup xs -> dedup xs = xs.
Proof.
  induction 1 as [|x xs Hx _ IH]; [ reflexivity | ].
  cbn [dedup]. rewrite IH.
  replace (existsb (Z.eqb x) xs) with false; [ reflexivity | ].
  symmetry. apply not_true_is_false. intros H.
  apply existsb_exists in H. destruct H as (y & Hy & Heq).
  apply Z.eqb_eq in Heq. now subst y.
Qed.

Lemma py_set_length (xs : list Z) :
  NoDup xs -> List.length (py_set xs) = List.length xs.
Proof.
  intros H. unfold py_set. now rewrite sorted_length, (dedup_NoDup xs H).
Qed.

Lemma list_eqb_eq (xs : list Z) :
  forall ys, list_eqb xs ys = true -> xs = ys.
Proof.
  induction xs as [|x xs IH]; intros [|y ys] H; try discriminate H;
    [ reflexivity | ].
  cbn [list_eqb] in H. apply andb_prop in H. destruct H as [Hx H].
  apply Z.eqb_eq in Hx. subst y. f_equal. now apply IH.
Qed.

Lemma KPoint_eq_isym (kp kp' : KPoint) :
  KPoint_eq kp kp' = OK true -> kp_isym kp = kp_isym kp'.
Proof.
  unfold KPoint_eq. destruct (negb _); [ discriminate | ].
  destruct (broadcast2 _ _ _) as [d|e]; cbn [bind]; [ | discriminate ].
  destruct (fgtb _ _); [ discriminate | ].
  destruct (list_eqb (kp_isym kp) (kp_isym kp')) eqn:E; cbn [negb];
    [ | discriminate ].
  intros _. now apply list_eqb_eq.
Qed.

Lemma is_word_no_newline (w : string) :
  is_word w = true -> free_of "010" w = true.
Proof.
  unfold is_word. intros H. apply andb_prop in H.
  now apply word_free_of_nl.
Qed.

Lemma words_no_newline {A} (f : A -> string) (xs : list A) :
  Forall (fun x => is_word (f x) = true) xs ->
  Forall (fun t => all_chars (fun c => negb (Ascii.eqb c "010")) t = true)
         (map f xs).
Proof.
  intros H. apply Forall_map. eapply Forall_impl; [ | exact H ].
  intros x Hx. now apply is_word_no_newline.
Qed.

Lemma of_ints_no_newline (xs : list Z) :
  Forall (fun t => all_chars (fun c => negb (Ascii.eqb c "010")) t = true)
         (map Str.of_int xs).
Proof.
  apply Forall_map, Forall_forall. intros n _. now apply of_int_chars.
Qed.

Lemma KPoint_line_no_newline (kp : KPoint) :
  is_word (kp_name kp) = true ->
  Forall (fun x => is_word (str_float x) = true) (kp_k kp) ->
  free_of "010" (" kpoint  " ++ KPoint_str kp) = true.
Proof.
  intros Hname Hk. apply is_word_no_newline in Hname.
  unfold KPoint_str, free_of in *.
  rewrite !all_chars_app, Hname.
  rewrite !all_chars_join;
    [ reflexivity | reflexivity | apply of_ints_no_newline | reflexivity
      | now apply words_no_newline ].
Qed.

Lemma SymopTable_str_no_newline (s : SymopTable) (spinor : bool) :
  Forall (fun x => is_word (str_ x) = true)
         (sym_t s ++ map num_abs (List.concat (sym_S s))
          ++ map num_angle_pi (List.concat (sym_S s)))%list ->
  free_of "010" (SymopTable_str s spinor) = true.
Proof.
  intros Hw. apply Forall_app in Hw. destruct Hw as [Hwt Hw].
  apply Forall_app in Hw. destruct Hw as [Hwm Hwp].
  unfold SymopTable_str, free_of. rewrite !all_chars_app.
  rewrite (all_chars_join _ "   ");
    [ | reflexivity
      | apply Forall_map, Forall_forall; intros r _;
        apply all_chars_join; [ reflexivity | apply of_ints_no_newline ] ].
  rewrite (all_chars_join _ " ");
    [ | reflexivity | now apply words_no_newline ].
  destruct spinor; [ | reflexivity ].
  rewrite all_chars_app, (all_chars_join _ "    "); [ reflexivity | reflexivity | ].
  cbn [map].
  constructor;
    [ apply all_chars_join; [ reflexivity | now apply words_no_newline ] | ].
  constructor;
    [ apply all_chars_join; [ reflexivity | now apply words_no_newline ] | ].
  constructor.
Qed.

(** The lines of the irreps of a k-point, read against the k-point read
    from its line. *)
Lemma irrep_lines_read (kp' : KPoint) (irrs : list Irrep) :
  forall lines,
    mapM Irrep_str irrs = OK lines ->
    Forall (fun irr =>
              printable_irrep irr /\
              irr_kpname irr = kp_name kp' /\
              List.length (kp_isym kp') = List.length (irr_characters irr))
           irrs ->
    exists irrs',
      Forall2 read_back irrs irrs' /\
      Forall (fun l => free_of "010" l = true) lines /\
      Forall2 (fun l irr' =>
                 (exists e, KPoint_of_line (Str.strip l) = Raise e)
                 /\ Irrep_init_user (Str.strip l) kp' = OK irr')
              (map (fun l => l ++ nl)%string lines) irrs'.
Proof.
  induction irrs as [|irr irrs IH]; intros lines Hm Hall.
  - injection Hm as <-. exists []. repeat split; constructor.
  - cbn [mapM] in Hm. inv_ok Hm. inv_ok Hm. injection Hm as <-.
    rename a into line. rename a0 into lines.
    inversion Hall as [|? ? [Hp [Hkp Hlen]] Hall']; subst.
    destruct (IH lines eq_refl Hall') as (irrs' & Hrb & Hnl & Hread).
    destruct Hp as (_ & _ & Hd & Hname & Hcolon & Hnum & _).
    assert (Hw : Forall (fun x => is_word (str_ x) = true)
                        (printed_numbers irr))
      by (eapply Forall_impl; [ | exact Hnum ]; now intros x (H & _ & _)).
    assert (Hc : Forall (fun x => free_of ":" (str_ x) = true)
                        (printed_numbers irr))
      by (eapply Forall_impl; [ | exact Hnum ]; now intros x (_ & H & _)).
    assert (Hpf : Forall (fun x => parse_float (str_ x) <> None)
                         (printed_numbers irr))
      by (eapply Forall_impl; [ | exact Hnum ]; now intros x (_ & _ & H)).
    destruct (Irrep_str_tokens irr line E Hd Hname Hw)
      as (Hsplit & Hend & Hstart & Hnz & Hl & Hfree).
    assert (Hstrip : Str.strip (line ++ nl) = line)
      by (apply (strip_core "" line nl); try reflexivity; assumption).
    destruct (Irrep_tokens_parse irr kp' line Hsplit Hnz Hpf)
      as (irr' & Hi & Hn & Hdim & Hk' & _ & Hns & Hre);
      [ now rewrite Hl | ].
    exists (irr' :: irrs'). split; [ | split ].
    + constructor; [ | exact Hrb ].
      unfold read_back. rewrite Hn, Hdim, Hk', Hns, Hre, Hl, Hkp.
      now repeat split.
    + constructor; [ | exact Hnl ].
      apply (Hfree "010"%char); [ reflexivity | | ].
      * now apply is_word_no_newline.
      * eapply Forall_impl; [ | exact Hw ]. intros x Hx.
        now apply is_word_no_newline.
    + cbn [map]. constructor; [ | exact Hread ].
      rewrite Hstrip. split; [ | exact Hi ].
      apply line_not_kpoint.
      apply (Hfree ":"%char); [ reflexivity | | ]; assumption.
Qed.

(** A section of a saved table, read by the second loop of the user
    loader: the blank line is passed over, the line of the k-point is read
    as a k-point and the lines of the irreps as irreps of that k-point. *)
Lemma section_read (rep : Irrep) (irrs : list Irrep) (lines : list string) :
  printable_irrep rep ->
  irr_characters rep <> [] ->
  mapM Irrep_str irrs = OK lines ->
  Forall (fun irr =>
            printable_irrep irr /\
            irr_kpname irr = irr_kpname rep /\
            py_set (keys (irr_characters irr))
            = py_set (keys (irr_characters rep))) irrs ->
  exists irrs',
    Forall2 read_back irrs irrs' /\
    Forall (fun l => free_of "010" l = true)
           ("" :: (" kpoint  " ++ KPoint_str (KPoint_of_irrep rep)) :: lines) /\
    forall kp0 acc rest,
    exists kp1,
      read_irreps kp0 acc
        (map (fun l => l ++ nl)%string
             ("" :: (" kpoint  " ++ KPoint_str (KPoint_of_irrep rep))%string
              :: lines) ++ rest)%list
      = read_irreps (Some kp1) (acc ++ irrs')%list rest.
Proof.
  intros Hrep Hne Hm Hall.
  pose proof Hrep as (_ & Hnd & _ & _ & _ & _ & Hkw & Hkc & Hk & Hisym).
  set (kp := KPoint_of_irrep rep) in *.
  assert (Hkn : kp_isym kp <> []).
  { cbn [kp KPoint_of_irrep kp_isym]. intros E.
    apply (f_equal (@List.length Z)) in E.
    rewrite (py_set_length _ Hnd) in E. unfold keys in E.
    rewrite length_map in E.
    destruct (irr_characters rep); [ now elim Hne | discriminate E ]. }
  destruct (float_array_defined (map str_float (kp_k kp)))
    as (k' & Ek & _).
  { apply Forall_map. eapply Forall_impl; [ | exact Hk ].
    now intros x (_ & _ & H). }
  set (kp' := {| kp_name := kp_name kp; kp_k := k';
                 kp_isym := sorted (py_set (keys (irr_characters rep))) |}).
  assert (Hline : KPoint_of_line
                    (Str.strip (" kpoint  " ++ KPoint_str kp ++ nl))
                  = OK kp').
  { rewrite (kpoint_line_stripped kp Hkn).
    apply KPoint_str_parses; try assumption.
    eapply Forall_impl; [ | exact Hk ]. now intros x (H1 & H2 & _). }
  destruct (irrep_lines_read kp' irrs lines Hm) as (irrs' & Hrb & Hnl & Hread).
  { eapply Forall_impl; [ | exact Hall ].
    intros irr (Hp & Hname & Hset). split; [ exact Hp | ].
    split; [ exact Hname | ].
    cbn [kp' kp_isym]. rewrite sorted_length, <- Hset.
    destruct Hp as (_ & Hnd' & _).
    rewrite (py_set_length _ Hnd'). unfold keys. apply length_map. }
  exists irrs'. split; [ exact Hrb | ]. split.
  - constructor; [ reflexivity | ]. constructor; [ | exact Hnl ].
    apply KPoint_line_no_newline; [ exact Hkw | ].
    eapply Forall_impl; [ | exact Hk ]. now intros x (H & _).
  - intros kp0 acc rest. exists kp'.
    cbn [map app]. rewrite read_irreps_blank.
    cbn [read_irreps].
    change ((" kpoint  " ++ KPoint_str kp) ++ nl)%string
      with (" kpoint  " ++ KPoint_str kp ++ nl)%string.
    rewrite Hline. now apply read_irreps_lines.
Qed.

Lemma Irrep_str_empty (irr : Irrep) :
  irr_characters irr = [] -> Irrep_str irr = Raise ValueError.
Proof. intros E. unfold Irrep_str. now rewrite E. Qed.

Lemma mapM_In {A B} (f : A -> result B) (xs : list A) (x : A) :
  forall ys, mapM f xs = OK ys -> In x xs -> exists y, f x = OK y.
Proof.
  induction xs as [|a xs IH]; intros ys H Hin; [ destruct Hin | ].
  cbn [mapM] in H. inv_ok H. inv_ok H.
  destruct Hin as [->|Hin]; [ eexists; eassumption | now apply (IH a1) ].
Qed.

Lemma join_nl_text (strs : list string) :
  (Str.join nl strs ++ nl)%string
  = file_text (map (fun l => l ++ nl)%string
                   (strs ++ match strs with [] => [""] | _ => [] end)).
Proof.
  unfold Str.join, file_text.
  induction strs as [|a strs IH]; [ reflexivity | ].
  destruct strs as [|b strs].
  - cbn [String.concat app map fold_right]. now rewrite append_nil_r.
  - change (String.concat nl (a :: b :: strs))
      with (a ++ nl ++ String.concat nl (b :: strs))%string.
    rewrite !append_assoc, IH. cbn [app map fold_right].
    now rewrite !append_assoc.
Qed.

Lemma flat_map_keys {V A} (f : string -> list A) (d : list (string * V)) :
  flat_map (fun kv => f (fst kv)) d = flat_map f (keys d).
Proof.
  unfold keys. induction d as [|kv d IH]; [ reflexivity | ].
  cbn [flat_map map]. now rewrite IH.
Qed.

(** The sections of a saved table, read by the second loop of the user
    loader. *)
Lemma saved_sections_read (T : IrrepTable)
  (kpoints : list (string * KPoint)) :
  Forall printable_irrep (tab_irreps T) ->
  foldM add_kpoint (tab_irreps T) [] = OK kpoints ->
  forall nkps sections,
    incl nkps kpoints ->
    Forall2 (section_of T) (values nkps) sections ->
    exists ls irrs',
      file_text (List.concat sections)
      = file_text (map (fun l => l ++ nl)%string ls) /\
      Forall (fun l => free_of "010" l = true) ls /\
      Forall2 read_back
              (flat_map (fun nkp => irreps_at (fst nkp) (tab_irreps T)) nkps)
              irrs' /\
      forall kp0 acc rest,
      exists kp1,
        read_irreps kp0 acc (map (fun l => l ++ nl)%string ls ++ rest)%list
        = read_irreps kp1 (acc ++ irrs')%list rest.
Proof.
  intros Hprint Hk.
  destruct (collected_kpoints _ _ Hk) as (_ & Hrep & Hcons).
  induction nkps as [|[name kp] nkps IH]; intros sections Hincl HF.
  - inversion HF; subst. exists [], []. repeat split; try constructor.
    intros kp0 acc rest. exists kp0. cbn [map app]. now rewrite app_nil_r.
  - cbn [values map] in HF. inversion HF as [|? sec ? secs Hsec HF']; subst.
    destruct (IH secs) as (ls2 & irrs2 & Htext2 & Hnl2 & Hrb2 & Hread2);
      [ intros x Hx; apply Hincl; now right | exact HF' | ].
    assert (Hin : In (name, kp) kpoints) by (apply Hincl; now left).
    rewrite Forall_forall in Hrep. destruct (Hrep _ Hin) as (rep & Hr & Hkp).
    cbn [fst snd] in Hr, Hkp. subst kp.
    pose proof (collected_representative _ _ _ _ Hk Hr) as Hget.
    unfold representative in Hr. apply find_some in Hr.
    destruct Hr as [Hrin Hr]. apply andb_prop in Hr.
    destruct Hr as [Hrel Hrname]. apply String.eqb_eq in Hrname.
    destruct Hsec as (lines & Hm & ->).
    cbn [KPoint_of_irrep kp_name] in Hm. rewrite Hrname in Hm.
    rewrite Forall_forall in Hprint, Hcons.
    assert (Hchars : irr_characters rep <> []).
    { intros E.
      destruct (mapM_In _ _ rep _ Hm) as [l Hl].
      - unfold irreps_at. apply filter_In. split; [ exact Hrin | ].
        now apply String.eqb_eq.
      - rewrite (Irrep_str_empty rep E) in Hl. discriminate Hl. }
    destruct (section_read rep (irreps_at name (tab_irreps T)) lines)
      as (irrs1 & Hrb1 & Hnl1 & Hread1);
      [ now apply Hprint | exact Hchars | exact Hm | | ].
    { apply Forall_forall. intros irr Hirr. unfold irreps_at in Hirr.
      apply filter_In in Hirr. destruct Hirr as [Hirr Hname].
      apply String.eqb_eq in Hname.
      split; [ now apply Hprint | ]. split; [ congruence | ].
      destruct (Hprint _ Hirr) as (Hel & _).
      destruct (Hcons _ Hirr Hel) as (kp2 & Hg2 & Hsame).
      rewrite Hname, Hget in Hg2. injection Hg2 as <-.
      destruct Hsame as [Hsame|Hsame].
      - now injection Hsame as _ _ <-.
      - apply KPoint_eq_isym in Hsame. now symmetry. }
    exists (("" :: (" kpoint  " ++ KPoint_str (KPoint_of_irrep rep))%string
             :: lines) ++ ls2)%list, (irrs1 ++ irrs2)%list.
    split; [ | split; [ | split ] ].
    + cbn [List.concat]. rewrite file_text_app, Htext2, map_app, file_text_app.
      f_equal.
    + apply Forall_app. now split.
    + cbn [flat_map fst]. now apply Forall2_app.
    + intros kp0 acc rest. rewrite map_app, <- app_assoc.
      destruct (Hread1 kp0 acc
                  (map (fun l => l ++ nl)%string ls2 ++ rest)%list)
        as [kp1 ->].
      destruct (Hread2 (Some kp1) (acc ++ irrs1)%list rest) as [kp2 ->].
      exists kp2. now rewrite <- app_assoc.
Qed.

Lemma file_text_cons (w : string) (out : list string) :
  file_text (w :: out) = (w ++ file_text out)%string.
Proof. reflexivity. Qed.

(** The text of the operations, line by line: a line that is blank stands
    for the operations when there is none, and a blank line ends them. *)
Lemma symmetries_text_lines (T : IrrepTable) :
  let strs := map (fun s => SymopTable_str s (tab_spinor T))
                  (tab_symmetries T) in
  symmetries_text T
  = file_text
      (map (fun l => l ++ nl)%string
           ("symmetries="
            :: (strs ++ match strs with [] => [""] | _ => [] end)
               ++ [""])%list).
Proof.
  intros strs. unfold symmetries_text. fold strs.
  cbn [map]. rewrite file_text_cons, map_app, file_text_app.
  rewrite <- join_nl_text. cbn [map]. rewrite file_text_cons.
  cbn [file_text fold_right]. rewrite !append_assoc.
  reflexivity.
Qed.

(** ** A saved table, loaded *)

(** [save4user] and the user loader. When [save4user] completes on a table
    whose name, operations and irreps are written so that they can be read,
    the file it has written loads with the user loader, for the spinor flag
    of the table and any space-group number. The table loaded has the name
    and the [nsym] of the table saved, operations with the same rotations,
    and one irrep for each irrep written, in the order of the lines, with
    its label, dimension, k-point name and number of characters, and a
    [reality] that tells whether the characters written were real. *)
Theorem save4user_load_back (T : IrrepTable) (SG : Z) (out : list string) :
  printable_table T ->
  save4user T = (out, OK tt) ->
  exists T',
    IrrepTable_init_user SG (tab_spinor T) (readlines (file_text out))
    = OK T' /\
    tab_name T' = tab_name T /\
    tab_nsym T' = tab_nsym T /\
    Forall2 (fun s s' => sym_R s' = sym_R s)
            (tab_symmetries T) (tab_symmetries T') /\
    Forall2 read_back (saved_irreps T) (tab_irreps T').
Proof.
  intros ((name & Hname & Hword & Heq) & Hbool & Hcount & Hops & Hirr) Hsave.
  unfold save4user, header_text in Hsave. rewrite Hname in Hsave.
  cbn [or_raise bind] in Hsave.
  destruct (foldM add_kpoint (tab_irreps T) []) as [kpoints|e] eqn:Ek;
    [ | discriminate Hsave ].
  destruct (write_kpoints_done _ _ _ _ _ Hsave) as (sections & HF & ->).
  destruct (saved_sections_read T kpoints Hirr Ek kpoints sections)
    as (ls & irrs' & Htext & Hnl & Hrb & Hread);
    [ apply incl_refl | exact HF | ].
  destruct (collected_kpoints _ _ Ek) as (Hkeys & _ & _).
  (* the operations *)
  set (spinor := tab_spinor T) in *.
  set (strs := map (fun s => SymopTable_str s spinor) (tab_symmetries T)).
  assert (Hparse : exists syms',
             Forall2 (fun l s => SymopTable_init_from_user l = OK s)
                     (map (fun l => l ++ nl)%string strs) syms' /\
             Forall2 (fun s s' => sym_R s' = sym_R s)
                     (tab_symmetries T) syms').
  { subst strs. clear Hcount. induction Hops as [|s syms Hs _ IH].
    - exists []. split; constructor.
    - destruct IH as (syms0 & H1 & H2).
      destruct (printable_op_read s spinor Hs) as (s' & Hs' & HR).
      exists (s' :: syms0). split; constructor; assumption. }
  destruct Hparse as (syms' & Hparse & HsymR).
  assert (Hstrs_nl : Forall (fun l => free_of "010" l = true) strs).
  { subst strs. apply Forall_map. eapply Forall_impl; [ | exact Hops ].
    intros s (_ & _ & _ & Hnum). apply SymopTable_str_no_newline.
    eapply Forall_impl; [ | exact Hnum ]. now intros x [H _]. }
  set (extra := match strs with [] => [""] | _ => [] end).
  set (hl := ["SG=" ++ Str.of_int (tab_number T); " name=" ++ name ++ " ";
              " nsym= " ++ Str.of_int (tab_nsym T);
              " spinor=" ++ Str.of_bool spinor]%string).
  set (sl := ("symmetries=" :: (strs ++ extra) ++ [""])%list).
  assert (Hh : ("SG=" ++ Str.of_int (tab_number T) ++ nl
                ++ " name=" ++ name ++ " " ++ nl
                ++ " nsym= " ++ Str.of_int (tab_nsym T) ++ nl
                ++ " spinor=" ++ Str.of_bool spinor ++ nl)%string
               = file_text (map (fun l => l ++ nl)%string hl)).
  { subst hl. unfold file_text. cbn [map fold_right].
    rewrite !append_assoc. now rewrite (append_nil_r nl). }
  pose proof (symmetries_text_lines T) as Hs. cbn zeta in Hs.
  fold spinor in Hs. fold strs in Hs. fold extra in Hs. fold sl in Hs.
  assert (Hall : file_text
                   (["SG=" ++ Str.of_int (tab_number T) ++ nl
                     ++ " name=" ++ name ++ " " ++ nl
                     ++ " nsym= " ++ Str.of_int (tab_nsym T) ++ nl
                     ++ " spinor=" ++ Str.of_bool spinor ++ nl;
                     symmetries_text T]%string ++ List.concat sections)
                 = file_text
                     (map (fun l => l ++ nl)%string (hl ++ sl ++ ls)%list)).
  { rewrite file_text_app, Htext, !file_text_cons, Hh, Hs.
    rewrite !map_app, !file_text_app. cbn [file_text fold_right].
    now rewrite append_nil_r, !append_assoc. }
  assert (Hallnl : Forall (fun l => free_of "010" l = true)
                          (hl ++ sl ++ ls)%list).
  { apply Forall_app. split; [ | apply Forall_app; split; [ | exact Hnl ] ].
    - assert (Hint : forall k,
                 all_chars (fun c => negb (Ascii.eqb c "010"))
                           (Str.of_int k) = true)
        by (intros k; now apply of_int_chars).
      pose proof (is_word_no_newline _ Hword) as Hn.
      subst hl. unfold free_of in *.
      repeat constructor; rewrite ?all_chars_app, ?Hint, ?Hn;
        try reflexivity.
      now destruct spinor.
    - subst sl. constructor; [ reflexivity | ].
      apply Forall_app. split; [ | now repeat constructor ].
      apply Forall_app. split; [ exact Hstrs_nl | ].
      subst extra. destruct strs; now repeat constructor. }
  rewrite Hall, (readlines_text _ Hallnl).
  destruct (saved_header_read SG (tab_number T) (tab_nsym T) spinor name
              Hword Heq Hbool) as [Hpre Hmark].
  fold hl in Hpre.
  unfold IrrepTable_init_user.
  rewrite map_app, (read_header_prefix _ _ _ _ _ _ _ _ Hpre).
  subst sl. cbn [map app read_header]. rewrite Hmark.
  cbn [bind or_raise]. rewrite !map_app, <- !app_assoc.
  rewrite (read_symmetries_lines (tab_nsym T) _ syms' Hparse []).
  2:{ subst strs. rewrite !length_map. cbn [List.length]. lia. }
  cbn [bind app].
  eexists. split; [ reflexivity | ].
  cbn [tab_name tab_nsym tab_symmetries tab_irreps].
  split; [ now symmetry | ]. split; [ reflexivity | ].
  split; [ exact HsymR | ].
  assert (Hblank : read_irreps None []
                     (map (fun l => l ++ nl)%string extra
                      ++ map (fun l => l ++ nl)%string [""]
                      ++ map (fun l => l ++ nl)%string ls)%list
                   = irrs').
  { destruct (Hread None [] []) as [kp1 Hr].
    rewrite app_nil_r in Hr. cbn [app] in Hr.
    subst extra. destruct strs; cbn [map app];
      rewrite ?read_irreps_blank, Hr; now destruct kp1. }
  rewrite Hblank. unfold saved_irreps.
  now rewrite <- Hkeys, <- flat_map_keys.
Qed.

(** ** The line of [KPoint.str], read as a k-point *)

(** [KPoint.str] and [KPoint(line=...)]. The line that [KPoint.str] returns
    starts with the name of the k-point, and the constructor asks for the
    word [kpoint] there: for a k-point whose name is a word without a colon,
    other than [kpoint] itself, the line is refused with a [ValueError],
    whatever the coordinates and the indices. *)
Theorem KPoint_str_refused (kp : KPoint) :
  is_word (kp_name kp) = true ->
  free_of ":" (kp_name kp) = true ->
  kp_name kp <> "kpoint" ->
  KPoint_of_line (KPoint_str kp) = Raise ValueError.
Proof.
  intros Hw Hf Hne. unfold KPoint_of_line, KPoint_str, Str.split_on.
  change (kp_name kp ++ " : " ++ Str.join " " (map str_float (kp_k kp))
          ++ "  : " ++ Str.join " " (map Str.of_int (sorted (kp_isym kp))))
    with (kp_name kp
          ++ String " " (String ":"
               (" " ++ Str.join " " (map str_float (kp_k kp))
                ++ "  : "
                ++ Str.join " " (map Str.of_int (sorted (kp_isym kp)))))).
  set (s := " " ++ Str.join " " (map str_float (kp_k kp)) ++ "  : "
            ++ Str.join " " (map Str.of_int (sorted (kp_isym kp)))).
  replace (kp_name kp ++ String " " (String ":" s))
    with ((kp_name kp ++ " ") ++ String ":" s)
    by (now rewrite append_assoc).
  rewrite split_on_from_field.
  2:{ unfold free_of in *. now rewrite all_chars_app, Hf. }
  cbn [index nth_error or_raise bind append].
  rewrite (split_word_then _ " " Hw eq_refl).
  change (Str.split " ") with (@nil string).
  cbn [index nth_error or_raise bind].
  destruct (String.eqb_spec (kp_name kp) "kpoint") as [Heq|_];
    [ contradiction | reflexivity ].
Qed.

End Coverage.

(* ===================================================================== *)
(** * The examples, on the executable kernel *)

Import Ref.
Import Examples.

(** C1. The file [user_GM] is what [save4user] writes for the legacy table
    [legacy_GM], and the user loader reads it back; but the table it gives,
    itself a table produced by a load, cannot be saved: [save4user] ends in
    an [AttributeError] on it. *)
Theorem saved_table_cannot_be_saved_again :
  IrrepTable_init 225 false legacy_GM = Some (OK table_GM) /\
  snd (save4user table_GM) = OK tt /\
  String.concat "" (fst (save4user table_GM)) = String.concat "" user_GM /\
  IrrepTable_init_user 225 false user_GM = OK table_user_GM /\
  tab_irreps table_user_GM <> [] /\
  snd (save4user table_user_GM) = Raise AttributeError.
Proof.
  split; [ reflexivity | ]. split; [ reflexivity | ].
  split; [ reflexivity | ]. split; [ reflexivity | ].
  split; [ discriminate | reflexivity ].
Qed.

(** C2. The file [user_GM], whose header says [SG=225], loads when the
    space group asked for is 1: the number of the header is never compared.
    The same file is refused when the spinor flag asked for differs from
    its [spinor=False]. *)
Theorem header_SG_is_not_checked :
  (exists T, IrrepTable_init_user 1 false user_GM = OK T /\
             tab_number T = 1) /\
  IrrepTable_init_user 225 true user_GM = Raise AssertionError.
Proof.
  split; [ | reflexivity ].
  rewrite (IrrepTable_init_user_SG 225 1).
  exists {| tab_number := 1; tab_name := tab_name table_user_GM;
            tab_spinor := tab_spinor table_user_GM;
            tab_nsym := tab_nsym table_user_GM;
            tab_symmetries := tab_symmetries table_user_GM;
            tab_NK := tab_NK table_user_GM;
            tab_irreps := tab_irreps table_user_GM |}.
  split; reflexivity.
Qed.

(** C3. The legacy table [legacy_X] holds two irreps at the k-point [X]:
    [X1], which is plain, and [X2], which is parameterized. [save4user]
    takes the k-point [X] from [X1] and writes a section for it, the line of
    the k-point and the line of [X1]; at the line of [X2], whose characters
    are still callables, it ends in a [TypeError]. The k-point is not left
    out and the save does not complete. *)
Theorem save4user_stops_at_parameterized_irrep :
  IrrepTable_init 225 false legacy_X = Some (OK table_X) /\
  map irr_name (tab_irreps table_X) = ["X1"; "X2"] /\
  map irr_kpname (tab_irreps table_X) = ["X"; "X"] /\
  map irr_hasuvw (tab_irreps table_X) = [Some false; Some true] /\
  save4user table_X
  = (["SG=225" ++ nl ++ " name=Fm-3m " ++ nl ++ " nsym= 2" ++ nl
      ++ " spinor=False" ++ nl;
      "symmetries=" ++ nl
      ++ "1 0 0   0 1 0   0 0 1     0.0 0.0 0.0" ++ nl
      ++ "1 0 0   0 1 0   0 0 1     0.0 0.0 0.0" ++ nl ++ nl;
      nl ++ " kpoint  X : 0.0 0.5 0.0  : 1 2" ++ nl;
      "X1 1    1.0  1.0" ++ nl],
     Raise TypeError).
Proof. repeat split; reflexivity. Qed.

(** The amended C4 at work: a real line and a line with phases, against
    [kp_GM]. *)
Lemma Irrep_init_user_reality_witness :
  (exists irr,
      Irrep_init_user "GM1 1    1.0  1.0" kp_GM = OK irr /\
      irr_reality irr = RealityBool true /\
      irr_characters irr
      = dict_of Z.eqb
          (combine (kp_isym kp_GM)
                   (map (fun a => Const (NFloat a))
                        [Ref.unit_; Ref.unit_]))) /\
  (exists irr,
      Irrep_init_user "GM2 1    1.0  1.0   0.0  0.5" kp_GM = OK irr /\
      irr_reality irr = RealityBool false /\
      irr_characters irr
      = dict_of Z.eqb
          (combine (kp_isym kp_GM)
                   (map2 (fun a p => Const (NComplex (cpolar a p)))
                         [Ref.unit_; Ref.unit_] [0; Ref.unit_ / 2]))).
Proof.
  split.
  - exact (proj1 (Irrep_init_user_reality
                    "GM1 1    1.0  1.0" "GM1" "1" ["1.0"; "1.0"] 1 kp_GM
                    eq_refl eq_refl)
                 [Ref.unit_; Ref.unit_] eq_refl eq_refl).
  - refine (proj2 (Irrep_init_user_reality
                     "GM2 1    1.0  1.0   0.0  0.5" "GM2" "1"
                     ["1.0"; "1.0"; "0.0"; "0.5"] 1 kp_GM
                     eq_refl eq_refl)
                  [Ref.unit_; Ref.unit_] [0; Ref.unit_ / 2] eq_refl _
                  eq_refl eq_refl).
    discriminate.
Defined.

(** C4, the claim as stated fails: against a k-point without operations,
    the line [A 1] has no field after the dimension, which is [2 * nsym]
    fields; the irrep is real nonetheless. *)
Lemma Irrep_init_user_no_operations :
  List.length (skipn 2 (Str.split "A 1"))
  = (2 * List.length (kp_isym kp_bare))%nat /\
  exists irr,
    Irrep_init_user "A 1" kp_bare = OK irr /\
    irr_reality irr = RealityBool true.
Proof.
  split; [ reflexivity | ].
  eexists. split; reflexivity.
Qed.

(** C5 at work: [legacy_GM] declares four operations. *)
Lemma legacy_loader_halves_witness :
  tab_nsym table_GM = 2 /\
  List.length (tab_symmetries table_GM) = 2%nat /\
  exists ops,
    mapM SymopTable_init (firstn 4 (tl legacy_GM)) = OK ops /\
    List.length ops = 4%nat /\
    tab_symmetries table_GM = firstn 2 ops.
Proof.
  apply (legacy_loader_halves 225 false (hd "" legacy_GM) "4" "Fm-3m"
           (tl legacy_GM) 2 table_GM);
    reflexivity.
Defined.

(** C6 at work: the record of [legacy_GM] declares the count 4 and keeps the
    characters of the slots 1 and 2. *)
Lemma Irrep_init_slot_count_witness :
  Irrep_init record_GM 4 = OK (irrep_GM, [nl]) /\
  Z.of_nat (List.length (irr_characters irrep_GM)) = irr_nsym irrep_GM /\
  Irrep_init record_GM 4 <> Raise AssertionError.
Proof.
  assert (E : Irrep_init record_GM 4 = OK (irrep_GM, [nl])) by reflexivity.
  split; [ exact E | ].
  destruct (Irrep_init_slot_count record_GM 4) as [H1 H2].
  split; [ exact (proj1 (H1 _ _ E)) | ].
  eapply H2; reflexivity.
Defined.

(** The amended C7 at work. The record [record_dim2] has no flag [2] on a
    diagonal: its characters are constants, [2] under the key 1 and [0]
    under the key 2. The second record of [legacy_X] has the flag [2] in its
    third slot: its characters are still callables. *)
Lemma Irrep_init_reduction_witness :
  (irr_characters irrep_dim2
   = [(1, Const (NComplex (2 * Ref.unit_, 0)));
      (2, Const (NComplex (0, 0)))] /\
   irr_hasuvw irrep_dim2 = Some (existsb block_flagged slots_dim2) /\
   exists rows : list (Z * list (list float64)),
     Forall2 (fun ib kv => fst kv = fst ib
                           /\ block_rows (snd ib) = OK (snd kv))
             (kept_blocks 4 slots_dim2) rows /\
     if existsb block_flagged slots_dim2
     then irr_characters irrep_dim2
          = map (fun kv => (fst kv, CharFunction (snd kv))) rows
     else Forall2 (fun kv c =>
                     exists z,
                       CharFunction_call0 (snd kv) = OK z /\
                       c = (fst kv, Const (NComplex z)) /\
                       (Forall (fun aaa => exponent_at_zero aaa
                                           = nth 1 aaa (float_of_int 0))
                               (snd kv) ->
                        z = constant_of (snd kv)))
                  rows (irr_characters irrep_dim2)) /\
  (irr_hasuvw irrep_X2 = Some (existsb block_flagged slots_X2) /\
   exists rows : list (Z * list (list float64)),
     Forall2 (fun ib kv => fst kv = fst ib
                           /\ block_rows (snd ib) = OK (snd kv))
             (kept_blocks 4 slots_X2) rows /\
     if existsb block_flagged slots_X2
     then irr_characters irrep_X2
          = map (fun kv => (fst kv, CharFunction (snd kv))) rows
     else Forall2 (fun kv c =>
                     exists z,
                       CharFunction_call0 (snd kv) = OK z /\
                       c = (fst kv, Const (NComplex z)) /\
                       (Forall (fun aaa => exponent_at_zero aaa
                                           = nth 1 aaa (float_of_int 0))
                               (snd kv) ->
                        z = constant_of (snd kv)))
                  rows (irr_characters irrep_X2)).
Proof.
  split.
  - split; [ reflexivity | ].
    refine (proj2 (Irrep_init_reduction
                     ("0.0 0.0 0.0 1 GM3 2 4 GM 1" ++ nl) "2" 2 4
                     slots_dim2 [nl] [nl] irrep_dim2
                     eq_refl eq_refl _ eq_refl)).
    repeat constructor.
  - refine (proj2 (Irrep_init_reduction
                     ("0.0 0.5 0.0 1 X2 1 4 X 1" ++ nl) "1" 1 4
                     slots_X2 [nl] [nl] irrep_X2
                     eq_refl eq_refl _ eq_refl)).
    repeat constructor.
Defined.

(** C7, the claim as stated fails: no flag line of [record_nan] is [2], and
    the row of its first slot is [1.0 0.5 nan 0.0 0.0]. The call with
    [u = v = w = 0] multiplies the not-a-number by [0], and the character
    kept is a not-a-number, where [coefficient * exp(i pi a1)] is the
    imaginary unit. *)
Lemma Irrep_init_reduction_not_a_number :
  Forall2 (slot_laid_out 1) (range 1 2) slots_nan /\
  existsb block_flagged slots_nan = false /\
  @block_rows RefNaN.numpy (nth 0 slots_nan (Absent ""))
  = OK [[Some Ref.unit_; Some (Ref.unit_ / 2); None; Some 0; Some 0]] /\
  (exists irr,
      @Irrep_init RefNaN.numpy record_nan 2 = OK (irr, [nl]) /\
      @irr_hasuvw RefNaN.numpy irr = Some false /\
      @irr_characters RefNaN.numpy irr
      = [(1, @Const RefNaN.numpy (@NComplex RefNaN.numpy None))]) /\
  @constant_of RefNaN.numpy
    [[Some Ref.unit_; Some (Ref.unit_ / 2); None; Some 0; Some 0]]
  = Some (0, Ref.unit_).
Proof.
  split; [ repeat constructor | ]. split; [ reflexivity | ].
  split; [ reflexivity | ]. split; [ | reflexivity ].
  eexists. split; [ reflexivity | ]. split; reflexivity.
Qed.

(** C8. The line [GM : 0.0 0.0 0.0 : 1 2] is refused with a [ValueError]:
    the constructor asks for the word [kpoint] in front, and with it the
    line parses to the k-point [GM] at the origin with the indices 1 and 2.
    [KPoint.str] of that k-point writes no such word, so the line it
    returns is refused in its turn. *)
Theorem KPoint_str_is_not_parsed :
  KPoint_of_line "GM : 0.0 0.0 0.0 : 1 2" = Raise ValueError /\
  KPoint_of_line "kpoint GM : 0.0 0.0 0.0 : 1 2" = OK kp_GM /\
  KPoint_str kp_GM = "GM : 0.0 0.0 0.0  : 1 2" /\
  KPoint_of_line (KPoint_str kp_GM) = Raise ValueError.
Proof. repeat split; reflexivity. Qed.

(** C9 at work: [user_GM] loads into a table with one irrep, and saving it
    ends in an [AttributeError] after the header and the operations. *)
Lemma save4user_of_user_table_raises_witness :
  IrrepTable_init_user 225 false user_GM = OK table_user_GM /\
  tab_irreps table_user_GM <> [] /\
  exists out,
    save4user table_user_GM = (out, Raise AttributeError) /\
    (out = [] \/
     exists h, header_text table_user_GM = OK h /\
               out = [h; symmetries_text table_user_GM]).
Proof.
  assert (E : IrrepTable_init_user 225 false user_GM = OK table_user_GM)
    by reflexivity.
  assert (N : tab_irreps table_user_GM <> []) by discriminate.
  split; [ exact E | ]. split; [ exact N | ].
  exact (proj2 save4user_of_user_table_raises 225 false user_GM
               table_user_GM E N).
Defined.

(** C10 at work: [user_short] announces two operations and gives one. *)
Lemma user_loader_pops_empty_stack_witness :
  IrrepTable_init_user 225 false user_short = Raise IndexError.
Proof.
  exact (user_loader_pops_empty_stack 225 false
           (firstn 4 user_short) (nth 4 user_short "") (skipn 5 user_short)
           (Some "Fm-3m") 2 eq_refl eq_refl eq_refl).
Defined.

(** ** The further properties at work *)

(** [legacy_both] loads for both flags: of its two records, the table with
    the flag keeps [-GM5] and the table without it keeps [GM1]. *)
Lemma legacy_loader_spinor_partition_witness :
  map irr_name (tab_irreps table_both) = ["GM1"] /\
  exists T' tn name n records,
    IrrepTable_init 225 (negb false) legacy_both = Some (OK T') /\
    Str.split (fst (readline legacy_both)) = [tn; name] /\
    Str.to_int tn = Some n /\
    records_of n (skipn (Z.to_nat n + 3) legacy_both) records /\
    tab_irreps (if false then table_both else T')
    = filter (fun s => Str.startswith "-" (irr_name s)) records /\
    tab_irreps (if false then T' else table_both)
    = filter (fun s => negb (Str.startswith "-" (irr_name s))) records /\
    tab_name T' = tab_name table_both /\
    tab_nsym T' = tab_nsym table_both /\
    tab_symmetries T' = tab_symmetries table_both.
Proof.
  split; [ reflexivity | ].
  exact (legacy_loader_spinor_partition 225 false legacy_both table_both
           eq_refl).
Defined.


Lemma legacy_loader_irreps_witness :
  Forall (fun irr =>
            Str.startswith "-" (irr_name irr) = false /\
            Sorted.StronglySorted Z.lt (keys (irr_characters irr)) /\
            Forall (fun k => 1 <= k <= tab_nsym table_GM)
                   (keys (irr_characters irr)) /\
            Z.of_nat (List.length (irr_characters irr)) = irr_nsym irr /\
            irr_nsym irr <= Z.max 0 (tab_nsym table_GM) /\
            irr_hasuvw irr <> None /\
            List.length (irr_k irr) = 3%nat)
         (tab_irreps table_GM).
Proof.
  exact (legacy_loader_irreps 225 false legacy_GM table_GM eq_refl).
Defined.

Lemma save4user_of_legacy_table_witness :
  exists h rest,
    header_text table_GM = OK h /\
    fst (save4user table_GM) = h :: symmetries_text table_GM :: rest /\
    ((exists kpoints, foldM add_kpoint (tab_irreps table_GM) [] = OK kpoints)
     \/ save4user table_GM
        = ([h; symmetries_text table_GM], Raise AssertionError)).
Proof.
  exact (save4user_of_legacy_table 225 false legacy_GM table_GM eq_refl).
Defined.

Lemma user_loader_structure_witness :
  exists pre marker ops rest,
    user_GM = (pre ++ marker :: ops ++ rest)%list /\
    header_prefix 225 false None None pre
    = Some (tab_name table_user_GM, Some (tab_nsym table_user_GM)) /\
    header_line 225 false (tab_name table_user_GM)
                (Some (tab_nsym table_user_GM)) marker
    = OK Symmetries /\
    tab_symmetries table_user_GM = parsed_ops ops /\
    Z.of_nat (List.length (tab_symmetries table_user_GM))
    = Z.max 0 (tab_nsym table_user_GM) /\
    tab_number table_user_GM = 225 /\
    tab_spinor table_user_GM = false /\
    tab_NK table_user_GM = None.
Proof.
  exact (user_loader_structure 225 false user_GM table_user_GM eq_refl).
Defined.

Lemma user_loader_irreps_witness :
  exists pre marker ops rest,
    user_GM = (pre ++ marker :: ops ++ rest)%list /\
    header_line 225 false (tab_name table_user_GM)
                (Some (tab_nsym table_user_GM)) marker
    = OK Symmetries /\
    tab_symmetries table_user_GM = parsed_ops ops /\
    Forall (read_under rest) (tab_irreps table_user_GM).
Proof.
  exact (user_loader_irreps 225 false user_GM table_user_GM eq_refl).
Defined.

Lemma Irrep_init_user_keys_witness :
  Irrep_init_user "A 1 1.0 2.0 3.0" kp_repeat = OK irrep_repeat /\
  irr_characters irrep_repeat
  = [(1, Const (NFloat (3 * Ref.unit_))); (2, Const (NFloat (2 * Ref.unit_)))] /\
  irr_kpname irrep_repeat = kp_name kp_repeat /\
  irr_k irrep_repeat = kp_k kp_repeat /\
  irr_nsym irrep_repeat = Z.of_nat (List.length (kp_isym kp_repeat)) /\
  NoDup (keys (irr_characters irrep_repeat)) /\
  (forall key, In key (keys (irr_characters irrep_repeat))
               <-> In key (kp_isym kp_repeat)) /\
  Forall (fun kv => exists c, snd kv = Const c)
         (irr_characters irrep_repeat) /\
  (List.length (irr_characters irrep_repeat)
   <= List.length (kp_isym kp_repeat))%nat /\
  (List.length (irr_characters irrep_repeat)
   = List.length (kp_isym kp_repeat)
   <-> NoDup (kp_isym kp_repeat)) /\
  exists amps ch,
    float_array (slice 2 (2 + List.length (kp_isym kp_repeat))
                       (Str.split "A 1 1.0 2.0 3.0"))
    = OK amps /\
    (if Nat.eqb (List.length (skipn 2 (Str.split "A 1 1.0 2.0 3.0")))
                (List.length (kp_isym kp_repeat))
     then ch = map NFloat amps
     else exists phases,
            float_array (slice (2 + List.length (kp_isym kp_repeat))
                               (2 + 2 * List.length (kp_isym kp_repeat))
                               (Str.split "A 1 1.0 2.0 3.0"))
            = OK phases /\
            polar_array amps phases = OK ch) /\
    (List.length (kp_isym kp_repeat) <= List.length ch)%nat /\
    (forall key,
        dict_get Z.eqb key (irr_characters irrep_repeat)
        = dict_get Z.eqb key
            (rev (combine (kp_isym kp_repeat) (map Const ch)))) /\
    (forall i key c,
        nth_error (kp_isym kp_repeat) i = Some key ->
        nth_error ch i = Some c ->
        ~ In key (skipn (S i) (kp_isym kp_repeat)) ->
        dict_get Z.eqb key (irr_characters irrep_repeat) = Some (Const c)).
Proof.
  split; [ reflexivity | ]. split; [ reflexivity | ].
  exact (Irrep_init_user_keys "A 1 1.0 2.0 3.0" kp_repeat irrep_repeat
           eq_refl).
Defined.

Lemma SymopTable_init_shape_witness :
  List.length (Str.split identity_line) = 20%nat /\
  shaped 3 3 (sym_R op_identity) /\
  List.length (sym_t op_identity) = 3%nat /\
  shaped 2 2 (sym_S op_identity).
Proof.
  exact (SymopTable_init_shape identity_line op_identity eq_refl).
Defined.

Lemma SymopTable_init_from_user_shape_witness :
  let n := List.length (Str.split "1 0 0   0 1 0   0 0 1     0.0 0.0 0.0") in
  (9 <= n)%nat /\
  (n <= 12 \/ n = 17 \/ 20 <= n)%nat /\
  shaped 3 3 (sym_R op_user) /\
  List.length (sym_t op_user) = Nat.min 3 (n - 9) /\
  shaped 2 2 (sym_S op_user) /\
  ((n <= 12)%nat -> sym_S op_user = eye2).
Proof.
  exact (SymopTable_init_from_user_shape
           "1 0 0   0 1 0   0 0 1     0.0 0.0 0.0" op_user eq_refl).
Defined.

Lemma CharFunction_call_rows_witness :
  CharFunction_call (NP := Ref.numpy) [[Ref.unit_; 0; 0; 0; 0]; []] 0 0 0
  = Raise IndexError.
Proof.
  apply (proj1 (CharFunction_call_rows (NP := Ref.numpy)
                  [[Ref.unit_; 0; 0; 0; 0]; []] 0 0 0)).
  right. left. reflexivity.
Defined.

Lemma Irrep_str_defined_witness :
  exists line, Irrep_str irrep_GM = OK line.
Proof.
  apply (proj2 (Irrep_str_defined irrep_GM)); [ discriminate | ].
  repeat (constructor; [ eexists; reflexivity | ]). constructor.
Defined.

(** [legacy_GM] with [7] on its [NK] line. *)
Lemma legacy_loader_ignores_NK_witness :
  IrrepTable_init 225 false
    (hd "" legacy_GM
     :: firstn 4 (tl legacy_GM) ++ nth 5 legacy_GM "" :: "7" :: record_GM)
  = Some (OK {| tab_number := tab_number table_GM;
                tab_name := tab_name table_GM;
                tab_spinor := tab_spinor table_GM;
                tab_nsym := tab_nsym table_GM;
                tab_symmetries := tab_symmetries table_GM;
                tab_NK := Some 7;
                tab_irreps := tab_irreps table_GM |}).
Proof.
  apply (legacy_loader_ignores_NK 225 false (hd "" legacy_GM) "4" "Fm-3m" 4
           (firstn 4 (tl legacy_GM)) (nth 5 legacy_GM "")
           (nth 6 legacy_GM "") "7" 7 record_GM table_GM);
    reflexivity.
Defined.

(** The identity of [table_GM], written with its spinor part, is read back
    as it was. *)
Lemma SymopTable_str_read_back_witness :
  SymopTable_init_from_user (SymopTable_str op_identity true ++ nl)
  = OK op_identity.
Proof.
  apply (SymopTable_str_read_back op_identity true [0; 0; 0]
           [Ref.unit_; 0; 0; Ref.unit_] [0; 0; 0; 0]);
    try reflexivity;
    try (split; [ reflexivity | repeat constructor ]).
  repeat constructor.
Defined.

(** The line of [kp_GM] is read back as [kp_GM]. *)
Lemma KPoint_str_read_back_witness :
  KPoint_of_line (Str.strip (" kpoint  " ++ KPoint_str kp_GM ++ nl))
  = OK kp_GM.
Proof.
  apply (KPoint_str_read_back kp_GM [0; 0; 0] [1; 2]);
    try reflexivity.
  - discriminate.
  - repeat constructor.
Defined.

(** The line of the irrep of [table_GM] is no k-point line and is accepted
    against [kp_GM]. *)
Lemma Irrep_str_read_back_witness :
  (exists e,
      KPoint_of_line (Str.strip ("GM1 1    1.0  1.0" ++ nl)) = Raise e) /\
  exists irr',
    Irrep_init_user (Str.strip ("GM1 1    1.0  1.0" ++ nl)) kp_GM = OK irr' /\
    irr_name irr' = irr_name irrep_GM /\
    irr_dim irr' = irr_dim irrep_GM /\
    irr_kpname irr' = kp_name kp_GM /\
    irr_k irr' = kp_k kp_GM /\
    irr_nsym irr' = Z.of_nat (List.length (irr_characters irrep_GM)) /\
    irr_reality irr'
    = RealityBool (negb (complex_valued (numbers irrep_GM))).
Proof.
  apply (Irrep_str_read_back irrep_GM kp_GM "GM1 1    1.0  1.0");
    try reflexivity.
  - repeat (constructor; [ eexists; reflexivity | ]). constructor.
  - repeat (constructor;
            [ split; [ reflexivity
                     | split; [ reflexivity
                              | apply (defined_not_None _ Ref.unit_);
                                reflexivity ] ]
            | ]).
    constructor.
Defined.


(** [table_GM], saved, loads again. *)
Lemma save4user_load_back_witness :
  exists T',
    IrrepTable_init_user 225 (tab_spinor table_GM)
      (readlines (file_text (fst (save4user table_GM))))
    = OK T' /\
    tab_name T' = tab_name table_GM /\
    tab_nsym T' = tab_nsym table_GM /\
    Forall2 (fun s s' => sym_R s' = sym_R s)
            (tab_symmetries table_GM) (tab_symmetries T') /\
    Forall2 read_back (saved_irreps table_GM) (tab_irreps T').
Proof.
  apply (save4user_load_back table_GM 225 (fst (save4user table_GM)));
    [ | reflexivity ].
  split; [ exists "Fm-3m"; repeat split; reflexivity | ].
  split; [ reflexivity | ].
  split; [ reflexivity | ].
  split.
  - repeat (constructor;
            [ split; [ split; [ reflexivity | repeat constructor ] | ];
              split; [ reflexivity | ];
              split; [ split; [ reflexivity | repeat constructor ] | ];
              repeat (constructor;
                      [ split; [ reflexivity
                               | first [ apply (defined_not_None _ Ref.unit_);
                                         reflexivity
                                       | apply (defined_not_None _ 0);
                                         reflexivity ] ]
                      | ]);
              constructor
            | ]).
    constructor.
  - constructor; [ | constructor ].
    split; [ reflexivity | ].
    split; [ repeat constructor; cbn [In]; intuition discriminate | ].
    split; [ repeat (constructor; [ eexists; reflexivity | ]); constructor | ].
    split; [ reflexivity | ].
    split; [ reflexivity | ].
    split; [ repeat (constructor;
                     [ split; [ reflexivity
                              | split; [ reflexivity
                                       | apply (defined_not_None _ Ref.unit_);
                                         reflexivity ] ]
                     | ]);
             constructor | ].
    split; [ reflexivity | ].
    split; [ reflexivity | ].
    split; [ repeat (constructor;
                     [ split; [ reflexivity
                              | split; [ reflexivity
                                       | apply (defined_not_None _ 0);
                                         reflexivity ] ]
                     | ]);
             constructor | ].
    reflexivity.
Defined.


(** [save4user] completes on [table_GM_X], with a section for [GM] and one
    for [X]; on [table_clash] the second irrep gives another k-point [X]
    than the first, and the save ends in the assertion. *)
Lemma save4user_sections_witness :
  (exists h kpoints sections,
      header_text table_GM_X = OK h /\
      keys kpoints
      = distinct (map irr_kpname (filter eligible (tab_irreps table_GM_X))) /\
      Forall (fun nkp =>
                exists irr,
                  representative (fst nkp) (tab_irreps table_GM_X) = Some irr /\
                  snd nkp = KPoint_of_irrep irr) kpoints /\
      Forall (fun irr =>
                eligible irr = true ->
                exists kp,
                  dict_get String.eqb (irr_kpname irr) kpoints = Some kp /\
                  (kp = KPoint_of_irrep irr \/
                   KPoint_eq kp (KPoint_of_irrep irr) = OK true))
             (tab_irreps table_GM_X) /\
      Forall2 (section_of table_GM_X) (values kpoints) sections /\
      fst (save4user table_GM_X)
      = h :: symmetries_text table_GM_X :: List.concat sections) /\
  List.length (distinct (map irr_kpname
                             (filter eligible (tab_irreps table_GM_X))))
  = 2%nat /\
  save4user table_clash
  = ([match header_text table_clash with OK h => h | Raise _ => "" end;
      symmetries_text table_clash], Raise AssertionError).
Proof.
  split; [ | split; [ reflexivity | ] ].
  - apply (proj1 (save4user_sections table_GM_X) (fst (save4user table_GM_X))).
    reflexivity.
  - apply (proj2 (save4user_sections table_clash)
             (firstn 1 (tab_irreps table_clash))
             (nth 1 (tab_irreps table_clash) irrep_GM)
             []
             (nth 0 (tab_irreps table_clash) irrep_GM)
             (match header_text table_clash with OK h => h | Raise _ => "" end)
             (match foldM add_kpoint (firstn 1 (tab_irreps table_clash)) []
              with OK k => k | Raise _ => [] end));
      reflexivity.
Defined.

(** The line of [kp_GM] as [KPoint.str] returns it is refused. *)
Lemma KPoint_str_refused_witness :
  KPoint_of_line (KPoint_str kp_GM) = Raise ValueError.
Proof.
  apply (KPoint_str_refused kp_GM); [ reflexivity | reflexivity | ].
  apply String.eqb_neq. reflexivity.
Defined.
